(** * atd: the job runner of the at(1) suite

    A shallow embedding of [src/atd.c]: the directory scan [run_loop], the
    per-job runner [run_file], the batch admission gate and the mail
    decision, together with the properties of the daemon that the
    specification states about them.

    Conventions of the embedding.
    - C integers are [Z].  [unsigned long] is 64 bits and [time_t] is a
      signed 64-bit integer (LP64); [uid_t], [gid_t] and [unsigned int] are
      32 bits.  Wrap-around is written out where the code can reach it
      ([wrap64], [to_time_t], [to_uid_t]); signed overflow is undefined in C
      and no defined run of the daemon reaches it.
    - [double] is the kernel's binary64 [float].
    - File names are [string]s (C strings: no NUL byte inside).
    - Results of system calls are inputs; effects of system calls are
      recorded as actions, and, in the second half of the file, applied to
      a model of the job directory with hard links.
    - Where the daemon leaves what C defines (sprintf() past the end of
      [jobbuf], a read of a name buffer that strncpy() left without NUL)
      the model follows it no further: [RunOverrun], [ActOverread]. *)

From Stdlib Require Import ZArith Lia Bool List Ascii String Floats.
From stdpp Require Import base option gmap strings.
Import ListNotations.

#[local] Open Scope string_scope.
#[local] Open Scope list_scope.
#[local] Open Scope Z_scope.

(** ** Characters: <ctype.h> in the "C" locale (atd never calls setlocale) *)

Module Ctype.

Definition code (c : ascii) : Z := Z.of_N (N_of_ascii c).

Definition isupper (c : ascii) : bool := (65 <=? code c) && (code c <=? 90).
Definition islower (c : ascii) : bool := (97 <=? code c) && (code c <=? 122).
Definition isalpha (c : ascii) : bool := isupper c || islower c.

(** space, and \t \n \v \f \r *)
Definition isspace (c : ascii) : bool :=
  (code c =? 32) || ((9 <=? code c) && (code c <=? 13)).

Definition tolower (c : ascii) : Z :=
  if isupper c then code c + 32 else code c.

(** Value of a hexadecimal digit, either case. *)
Definition xdigit_val (c : ascii) : option Z :=
  let n := code c in
  if (48 <=? n) && (n <=? 57) then Some (n - 48)
  else if (97 <=? n) && (n <=? 102) then Some (n - 87)
  else if (65 <=? n) && (n <=? 70) then Some (n - 55)
  else None.

End Ctype.
Import Ctype.

(** ** Machine integers *)

Definition wrap64 (v : Z) : Z := v mod 2 ^ 64.

(** [(time_t) ctm] for an [unsigned long ctm]. *)
Definition to_time_t (v : Z) : Z :=
  if v <? 2 ^ 63 then v else v - 2 ^ 64.

(** Conversion of an [int] to [uid_t] in [nuid != uid]. *)
Definition to_uid_t (v : Z) : Z := v mod 2 ^ 32.

(** ** sscanf with the formats of atd.c

    [%c] takes one character, whatever it is.  [%<w>lx] skips white space,
    then reads at most [w] characters: an optional sign, an optional [0x]
    prefix and hexadecimal digits, as glibc's scanner does (a lone [0]
    before a non-digit converts to 0); the value is converted as by
    [strtoul], so a leading [-] negates modulo 2^64. *)

Module Scanf.

Fixpoint skip_space (s : string) : string :=
  match s with
  | String c s' => if isspace c then skip_space s' else s
  | EmptyString => s
  end.

(** Digits read within [width], most significant first: value, number of
    digits, and the unread rest. *)
Fixpoint scan_xdigits (width : nat) (acc : Z) (s : string) : Z * nat * string :=
  match width, s with
  | S w, String c s' =>
      match xdigit_val c with
      | Some d =>
          let '(v, n, r) := scan_xdigits w (acc * 16 + d) s' in (v, S n, r)
      | None => (acc, O, s)
      end
  | _, _ => (acc, O, s)
  end.

Definition is_x (c : ascii) : bool := Ascii.eqb c "x" || Ascii.eqb c "X".

(** The sign, when there is one: negative?, width left, rest. *)
Definition scan_sign (width : nat) (s : string) : bool * nat * string :=
  match s with
  | String c s' =>
      if Ascii.eqb c "-" then (true, Nat.pred width, s')
      else if Ascii.eqb c "+" then (false, Nat.pred width, s')
      else (false, width, s)
  | EmptyString => (false, width, s)
  end.

(** The base prefix: saw a leading zero?, width left, rest. *)
Definition scan_prefix (width : nat) (s : string) : bool * nat * string :=
  match width, s with
  | S w, String c s' =>
      if Ascii.eqb c "0" then
        match w, s' with
        | S w', String x s'' => if is_x x then (true, w', s'') else (true, w, s')
        | _, _ => (true, w, s')
        end
      else (false, width, s)
  | _, _ => (false, width, s)
  end.

(** One [%<width>lx] conversion: [None] is an input or matching failure. *)
Definition scan_lx (width : nat) (s : string) : option (Z * string) :=
  match skip_space s with
  | EmptyString => None
  | s0 =>
      let '(neg, w1, s1) := scan_sign width s0 in
      let '(zero, w2, s2) := scan_prefix w1 s1 in
      let '(v, n, rest) := scan_xdigits w2 0 s2 in
      if zero || (0 <? n)%nat
      then Some (wrap64 (if neg then - v else v), rest)
      else None
  end.

(** [sscanf(name, "%c%5lx%8lx", &queue, &jobno, &ctm) == 3] *)
Definition sscanf_c_5lx_8lx (name : string) : option (ascii * Z * Z) :=
  match name with
  | EmptyString => None
  | String queue s =>
      match scan_lx 5 s with
      | None => None
      | Some (jobno, s') =>
          match scan_lx 8 s' with
          | None => None
          | Some (ctm, _) => Some (queue, jobno, ctm)
          end
      end
  end.

(** [sscanf(filename, "%c%5lx", &queue, &jobno)] of run_file; the return
    value is not checked there, [None] leaves both variables unset. *)
Definition sscanf_c_5lx (name : string) : option (ascii * Z) :=
  match name with
  | EmptyString => None
  | String queue s =>
      match scan_lx 5 s with
      | None => None
      | Some (jobno, _) => Some (queue, jobno)
      end
  end.

End Scanf.
Import Scanf.

(** ** The file-name encoding *)

Module JobName.

Definition hex_digit (upper : bool) (d : Z) : ascii :=
  if d <? 10 then ascii_of_N (Z.to_N (48 + d))
  else ascii_of_N (Z.to_N ((if upper then 55 else 87) + d)).

(** [n] hexadecimal digits of [v], most significant first, zero filled. *)
Fixpoint to_hex (upper : bool) (n : nat) (v : Z) : string :=
  match n with
  | O => EmptyString
  | S n' => String (hex_digit upper (v / 16 ^ Z.of_nat n' mod 16)) (to_hex upper n' v)
  end.

(** Modelled from the spec: the encoder of job-file names lives in the
    submission tool, which is not part of src/.  Section 6: "Job file name:
    1 queue-class byte + 5 hex digits (serial) + 8 hex digits (scheduled
    minute)".  The spec does not fix the letter case of the digits, so the
    encoder takes it as a parameter. *)
Definition encode_job_name (upper : bool) (queue : ascii) (serial minute : Z) : string :=
  String queue (to_hex upper 5 serial +:+ to_hex upper 8 minute).

(** A hexadecimal digit as the encoder with case [upper] writes it. *)
Definition is_hex_digit (upper : bool) (c : ascii) : bool :=
  let n := code c in
  ((48 <=? n) && (n <=? 57))
  || (if upper then (65 <=? n) && (n <=? 70) else (97 <=? n) && (n <=? 102)).

Fixpoint all_hex (upper : bool) (s : string) : bool :=
  match s with
  | EmptyString => true
  | String c s' => is_hex_digit upper c && all_hex upper s'
  end.

(** One queue letter, then 13 hexadecimal digits. *)
Definition valid_job_name (upper : bool) (name : string) : bool :=
  match name with
  | EmptyString => false
  | String q s => isalpha q && (String.length s =? 13)%nat && all_hex upper s
  end.

End JobName.
Import JobName.

(** ** stat(2) results and the mode macros of <sys/stat.h> (Linux values) *)

Record stat := mk_stat {
  st_dev : Z;
  st_ino : Z;
  st_mode : Z;
  st_nlink : Z;
  st_uid : Z;
  st_gid : Z;
  st_size : Z;
  st_mtime : Z
}.

Definition S_IFMT : Z := 61440.   (* 0170000 *)
Definition S_IFREG : Z := 32768.  (* 0100000 *)
Definition S_IFLNK : Z := 40960.  (* 0120000 *)
Definition S_IXUSR : Z := 64.     (* 0100 *)

Definition S_ISREG (m : Z) : bool := Z.land m S_IFMT =? S_IFREG.
Definition S_ISLNK (m : Z) : bool := Z.land m S_IFMT =? S_IFLNK.

(** ** Macros and file-scope variables of atd.c *)

Definition BATCH_INTERVAL_DEFAULT : Z := 60.
Definition CHECK_INTERVAL : Z := 3600.

(** What main() fixes before the first scan: [batch_interval] (an
    [unsigned int]) and the load ceiling [load_avg]. *)
Record config := mk_config {
  batch_interval : Z;
  load_avg : float
}.

(** The [-l] option: [if (load_avg <= 0.) load_avg = LOADAVG_MX;].  The
    macro LOADAVG_MX comes from the build configuration and is a parameter
    here. *)
Definition option_l (LOADAVG_MX parsed : float) : float :=
  if PrimFloat.leb parsed 0%float then LOADAVG_MX else parsed.

(** The static variables that survive from one run_loop() to the next. *)
Record sched := mk_sched {
  last_chg : Z;
  nothing_to_do : bool;
  next_batch : Z
}.

(** [isbatch] *)
Definition isbatch (queue : ascii) : bool :=
  isupper queue || Ascii.eqb queue "b".

(** [strcmp]: bytes compared as unsigned char, a proper prefix first; only
    the sign of the result is defined. *)
Definition strcmp (a b : string) : Z :=
  match String.compare a b with
  | Eq => 0
  | Lt => -1
  | Gt => 1
  end.

(** [strncpy(dst, src, n)] into a buffer of [n] bytes: the first [n] bytes
    of [src], as the content of the buffer.  When [src] has [n] bytes or
    more the buffer is left without its terminating NUL. *)
Fixpoint strncpy (n : nat) (src : string) : string :=
  match n, src with
  | S n', String c s => String c (strncpy n' s)
  | _, _ => EmptyString
  end.

(** [batch_name] and [lock_name] are arrays of 15 bytes.  A content of 15
    bytes fills the array: there is no NUL in it, so it is not a string,
    and what the code then does with it ([strcmp], [unlink], the
    [filename] of run_file() with its sscanf() and strdup()) C defines for
    strings only. *)
Definition unterminated (buffer : string) : bool :=
  (15 <=? String.length buffer)%nat.

(** [name[0] = '='] *)
Definition set_sigil (name : string) : string :=
  match name with
  | String _ s => String "=" s
  | EmptyString => EmptyString
  end.

(** ** run_file, the side of the daemon

    run_file() links the lock name, forks, and returns in the parent; all
    the rest runs in the forked child (see [run_file_child] below). *)

Inductive link_result := LinkOk | LinkEEXIST | LinkError.

Record parent_env := mk_parent_env {
  pe_malloc_ok : bool;
  pe_strdup_ok : bool;
  pe_link : link_result;
  pe_fork_ok : bool
}.

(** Lines 240-242: [sscanf(filename, "%c%5lx", &queue, &jobno);
    sprintf(jobbuf, "%8lu", jobno);] with [char jobbuf[9]].  Eight
    characters and the NUL fit when [jobno] has at most eight decimal
    digits; a serial field with a sign converts to a number of twenty.  When
    sscanf() converts no number [jobno] is left unset and nothing says that
    it fits. *)
Definition jobbuf_fits (filename : string) : bool :=
  match sscanf_c_5lx filename with
  | Some (_, jobno) => jobno <? 10 ^ 8
  | None => false
  end.

(** Modelled from the spec: perr() and pabort() are defined in daemon.c,
    which is not part of src/.  Section 7: every failure "terminates the
    current process scope with a diagnostic"; a call to either ends the
    calling process ([RunDied] when that process is the daemon).
    [RunOverrun]: sprintf() wrote past the end of [jobbuf], in the daemon
    and before link(); C defines nothing of what follows. *)
Inductive run_status := RunContended | RunSpawned | RunDied | RunOverrun.

(** Lines 238-275, in the order of the code. *)
Definition run_file_parent (pe : parent_env) (filename : string) : run_status :=
  if negb (pe_malloc_ok pe) then RunDied
  else if negb (jobbuf_fits filename) then RunOverrun
  else if negb (pe_strdup_ok pe) then RunDied
  else match pe_link pe with
       | LinkEEXIST => RunContended
       | LinkError => RunDied
       | LinkOk => if pe_fork_ok pe then RunSpawned else RunDied
       end.

(** After these the daemon does not go on as the code says. *)
Definition ends_daemon (st : run_status) : bool :=
  match st with
  | RunDied | RunOverrun => true
  | RunContended | RunSpawned => false
  end.

(** ** run_loop *)

(** The system calls of run_loop() that change something or sample the
    system, in program order; and the read of a name buffer that
    strncpy() left [unterminated]. *)
Inductive action :=
| ActUnlink (name : string)
| ActRunFile (name : string) (uid gid : Z)
| ActGetloadavg
| ActOverread.

(** The locals of run_loop() that the readdir loop updates, with the global
    [nothing_to_do]. *)
Record loop_vars := mk_loop_vars {
  lv_next_job : Z;
  lv_nothing_to_do : bool;
  lv_run_batch : Z;
  lv_batch_name : string;
  lv_batch_uid : Z;
  lv_batch_gid : Z;
  lv_batch_queue : ascii
}.

Definition set_next_job (t : Z) (v : loop_vars) : loop_vars :=
  mk_loop_vars t (lv_nothing_to_do v) (lv_run_batch v) (lv_batch_name v)
    (lv_batch_uid v) (lv_batch_gid v) (lv_batch_queue v).

Definition set_nothing_to_do (b : bool) (v : loop_vars) : loop_vars :=
  mk_loop_vars (lv_next_job v) b (lv_run_batch v) (lv_batch_name v)
    (lv_batch_uid v) (lv_batch_gid v) (lv_batch_queue v).

Definition set_run_batch (n : Z) (v : loop_vars) : loop_vars :=
  mk_loop_vars (lv_next_job v) (lv_nothing_to_do v) n (lv_batch_name v)
    (lv_batch_uid v) (lv_batch_gid v) (lv_batch_queue v).

Definition set_batch (name : string) (uid gid : Z) (queue : ascii) (v : loop_vars) : loop_vars :=
  mk_loop_vars (lv_next_job v) (lv_nothing_to_do v) (lv_run_batch v) name uid gid queue.

(** The body of the readdir loop for one directory entry; [st] is what
    stat() gave for it ([None]: stat failed). *)
Definition scan_entry (now : Z) (v : loop_vars) (name : string) (st : option stat)
  : loop_vars * list action :=
  match sscanf_c_5lx_8lx name with
  | None => (v, [])
  | Some (queue, jobno, ctm) =>
    match st with
    | None => (v, [])
    | Some buf =>
      if negb (S_ISREG (st_mode buf)) then (v, [])
      else if Z.land (st_mode buf) S_IXUSR =? 0 then (set_nothing_to_do false v, [])
      else
        let run_time := to_time_t ctm * 60 in
        if Ascii.eqb queue "=" then
          if (st_nlink buf =? 1) && (run_time + CHECK_INTERVAL <=? now)
          then (v, [ActUnlink name])
          else (v, [])
        else if negb (isupper queue || islower queue) then (v, [])
        else if 1 <? st_nlink buf then
          if run_time + CHECK_INTERVAL <=? now
          then
            let lock_name := set_sigil (strncpy 15 name) in
            if unterminated lock_name then (v, [ActOverread])
            else (set_nothing_to_do false (set_next_job now v), [ActUnlink lock_name])
          else (v, [])
        else
          let v1 := set_nothing_to_do false v in
          if now <? run_time then
            ((if run_time <? lv_next_job v1 then set_next_job run_time v1 else v1), [])
          else if isbatch queue then
            let v2 := set_run_batch (lv_run_batch v1 + 1) v1 in
            if unterminated (lv_batch_name v2) then (v2, [ActOverread])
            else if 0 <? strcmp (lv_batch_name v2) name
            then (set_batch (strncpy 15 name) (st_uid buf) (st_gid buf) queue v2, [])
            else (v2, [])
          else
            if run_time <=? now
            then (v1, [ActRunFile name (st_uid buf) (st_gid buf)])
            else (v1, [])
    end
  end.

(** One entry as readdir() and stat() deliver it, with what run_file()
    meets in the daemon should the entry be run. *)
Record dirent_in := mk_dirent_in {
  d_name : string;
  d_stat : option stat;
  d_run : parent_env
}.

(** Does the daemon stop following the code at this step?  It does when
    its run_file() calls perr() or pabort() before the fork or overruns
    [jobbuf], and when it reads an unterminated name buffer. *)
Definition fatal (acts : list action) (pe : parent_env) : bool :=
  match acts with
  | [ActRunFile name _ _] => ends_daemon (run_file_parent pe name)
  | [ActOverread] => true
  | _ => false
  end.

(** The readdir loop: the variables at closedir(), or [None] when the
    daemon exited or left defined behaviour on the way, and the actions
    taken until then. *)
Fixpoint scan_dir (now : Z) (v : loop_vars) (es : list dirent_in)
  : option loop_vars * list action :=
  match es with
  | [] => (Some v, [])
  | e :: es' =>
      let '(v', acts) := scan_entry now v (d_name e) (d_stat e) in
      if fatal acts (d_run e) then (None, acts)
      else let '(r, tr) := scan_dir now v' es' in (r, acts ++ tr)
  end.

(** What one call of run_loop() is given. *)
Record cycle_in := mk_cycle_in {
  c_now : Z;                      (* the global [now] *)
  c_dirstat : option stat;        (* stat(".") *)
  c_opendir_ok : bool;
  c_entries : list dirent_in;
  c_loadavg : Z * float;          (* return value of getloadavg, currlavg[0] *)
  c_batch_run : parent_env        (* for run_file(batch_name, ...) *)
}.

(** A call of run_loop(): it returns to main(), or the daemon ends in it,
    by exit() or because C defines its behaviour no further ([RunOverrun],
    [ActOverread]); [trace] is what the call did until then. *)
Inductive loop_result :=
| Returned (s : sched) (next_job : Z) (trace : list action)
| Exited (trace : list action).

Definition initial_vars (now : Z) : loop_vars :=
  mk_loop_vars (now + CHECK_INTERVAL) true 0 "z2345678901234"
    (2 ^ 32 - 1) (2 ^ 32 - 1) "000"%char.

(** [if (next_batch == 0) next_batch = now;] *)
Definition armed_next_batch (s : sched) (now : Z) : Z :=
  if next_batch s =? 0 then now else next_batch s.

(** [currlavg[0]] after [if (getloadavg(currlavg, 1) < 1) currlavg[0] = 0.0;] *)
Definition sampled_load (la : Z * float) : float :=
  if fst la <? 1 then 0%float else snd la.

(** The last statement pair of run_loop(). *)
Definition wake_hint (mtime nb : Z) (v : loop_vars) (tr : list action) : loop_result :=
  if negb (lv_run_batch v =? 0) && (nb <? lv_next_job v)
  then Returned (mk_sched mtime false nb) nb tr
  else Returned (mk_sched mtime (lv_nothing_to_do v) nb) (lv_next_job v) tr.

(** "run the single batch file, if any" *)
Definition batch_admission (cfg : config) (now mtime nb : Z) (v : loop_vars)
    (la : Z * float) (pe : parent_env) (tr : list action) : loop_result :=
  if negb (lv_run_batch v =? 0) && (nb <=? now) then
    let nb' := now + batch_interval cfg in
    if PrimFloat.ltb (sampled_load la) (load_avg cfg) then
      let tr' := tr ++ [ActGetloadavg;
                        ActRunFile (lv_batch_name v) (lv_batch_uid v) (lv_batch_gid v)] in
      if unterminated (lv_batch_name v)
         || ends_daemon (run_file_parent pe (lv_batch_name v))
      then Exited tr'
      else wake_hint mtime nb' (set_run_batch (lv_run_batch v - 1) v) tr'
    else wake_hint mtime nb' v (tr ++ [ActGetloadavg])
  else wake_hint mtime nb v tr.

Definition run_loop (cfg : config) (s : sched) (c : cycle_in) : loop_result :=
  let now := c_now c in
  let nb := armed_next_batch s now in
  match c_dirstat c with
  | None => Exited []
  | Some buf =>
      if nothing_to_do s && (st_mtime buf <=? last_chg s)
      then Returned (mk_sched (last_chg s) (nothing_to_do s) nb) (now + CHECK_INTERVAL) []
      else if negb (c_opendir_ok c) then Exited []
      else
        match scan_dir now (initial_vars now) (c_entries c) with
        | (None, tr) => Exited tr
        | (Some v, tr) =>
            batch_admission cfg now (st_mtime buf) nb v (c_loadavg c) (c_batch_run c) tr
        end
  end.

(** ** run_file, the forked child: validation *)

(** The three header lines as [fscanf(stream, fmt, &nuid, &ngid, mailname,
    &send_mail)] converts them. *)
Record header := mk_header {
  h_nuid : Z;
  h_ngid : Z;
  h_mailname : string;
  h_send_mail : Z
}.

(** The calls of perr() and pabort() in the child, in program order. *)
Inductive abort :=
| AbortNoUser        (* getpwuid(uid) == NULL *)
| AbortOpen          (* "Cannot open input file" *)
| AbortDup
| AbortFstat
| AbortLstat
| AbortSymlink       (* "Symbolic link encountered" *)
| AbortChanged       (* "Somebody changed files from under us" *)
| AbortLinked        (* "Somebody is trying to run a linked script" *)
| AbortFcntl
| AbortFormat        (* "File is in wrong format" *)
| AbortMailName      (* "illegal mail name" *)
| AbortUid           (* "userid does not match file uid" *)
| AbortChdir
| AbortOutput        (* "Cannot create output file" *)
| AbortPam
| AbortFork
| AbortStdin
| AbortDevNull
| AbortInitgroups
| AbortSetgid
| AbortSetuid
| AbortExecMail.

Definition starts_with_dash (s : string) : bool :=
  match s with
  | String c _ => Ascii.eqb c "-"
  | EmptyString => false
  end.

(** Lines 304-344 of atd.c: [buf] is fstat() of the opened descriptor,
    [lbuf] is lstat() of the path, [uid] is the argument of run_file (the
    owner found by the scanner's stat), [hdr] is the header as fscanf
    converted it ([None]: fewer than four conversions). *)
Definition validate (uid : Z) (buf lbuf : stat) (fcntl_ok : bool) (hdr : option header)
  : abort + header :=
  if S_ISLNK (st_mode lbuf) then inl AbortSymlink
  else if negb (st_dev lbuf =? st_dev buf) || negb (st_ino lbuf =? st_ino buf)
          || negb (st_uid lbuf =? st_uid buf) || negb (st_gid lbuf =? st_gid buf)
          || negb (st_size lbuf =? st_size buf)
  then inl AbortChanged
  else if 2 <? st_nlink buf then inl AbortLinked
  else if negb fcntl_ok then inl AbortFcntl
  else match hdr with
       | None => inl AbortFormat
       | Some h =>
           if starts_with_dash (h_mailname h) then inl AbortMailName
           else if negb (to_uid_t (h_nuid h) =? uid) then inl AbortUid
           else inr h
       end.

(** Line 495: [((send_mail != -1) && (buf.st_size != size)) || (send_mail == 1)];
    [size] is the size of the output file after the mail header was
    written, [final] its size after waitpid() returned. *)
Definition mail_decision (send_mail final size : Z) : bool :=
  (negb (send_mail =? -1) && negb (final =? size)) || (send_mail =? 1).

(** ** The job directory, with hard links *)

Record inode := mk_inode {
  i_dev : Z;
  i_mode : Z;
  i_nlink : Z;
  i_uid : Z;
  i_gid : Z;
  i_size : Z;
  i_mtime : Z;
  i_target : string;              (* of a symbolic link: a name in the directory *)
  i_header : option header        (* what fscanf makes of the content *)
}.

Record jobdir := mk_jobdir {
  names : gmap string Z;          (* directory entries: name to inode number *)
  inodes : gmap Z inode
}.

Definition stat_of (n : Z) (i : inode) : stat :=
  mk_stat (i_dev i) n (i_mode i) (i_nlink i) (i_uid i) (i_gid i) (i_size i) (i_mtime i).

Definition fs_lstat (fs : jobdir) (name : string) : option stat :=
  n ← names fs !! name; i ← inodes fs !! n; Some (stat_of n i).

(** Path resolution following symbolic links, at most [fuel] of them. *)
Fixpoint resolve (fuel : nat) (fs : jobdir) (name : string) : option Z :=
  match fuel with
  | O => None
  | S fuel' =>
      n ← names fs !! name;
      i ← inodes fs !! n;
      if S_ISLNK (i_mode i) then resolve fuel' fs (i_target i) else Some n
  end.

Definition MAXSYMLINKS : nat := 40.

Definition fs_fstat (fs : jobdir) (fd : Z) : option stat :=
  i ← inodes fs !! fd; Some (stat_of fd i).

Definition fs_stat (fs : jobdir) (name : string) : option stat :=
  n ← resolve MAXSYMLINKS fs name; fs_fstat fs n.

(** fopen(name, "r") with root privileges; the descriptor is identified
    with the inode it refers to. *)
Definition fs_open (fs : jobdir) (name : string) : option Z :=
  resolve MAXSYMLINKS fs name.

(** fscanf() of the three header lines from the open descriptor. *)
Definition fs_fscanf (fs : jobdir) (fd : Z) : option header :=
  i ← inodes fs !! fd; i_header i.

Definition bump_nlink (d : Z) (i : inode) : inode :=
  mk_inode (i_dev i) (i_mode i) (i_nlink i + d) (i_uid i) (i_gid i) (i_size i)
    (i_mtime i) (i_target i) (i_header i).

(** link(2): fails with EEXIST when [newname] exists; does not follow a
    symbolic link at [oldname]. *)
Definition fs_link (fs : jobdir) (oldname newname : string) : link_result * jobdir :=
  match names fs !! oldname with
  | None => (LinkError, fs)
  | Some n =>
      match names fs !! newname with
      | Some _ => (LinkEEXIST, fs)
      | None => (LinkOk, mk_jobdir (<[newname := n]> (names fs))
                                   (alter (bump_nlink 1) n (inodes fs)))
      end
  end.

(** unlink(2); a missing name leaves the directory as it is. *)
Definition fs_unlink (fs : jobdir) (name : string) : jobdir :=
  match names fs !! name with
  | None => fs
  | Some n => mk_jobdir (delete name (names fs)) (alter (bump_nlink (-1)) n (inodes fs))
  end.

Definition fs_readdir (fs : jobdir) : list string := (map_to_list (names fs)).*1.

(** ** run_file, the forked child *)

(** What the child meets outside the job directory. *)
Record child_env := mk_child_env {
  ce_getpwuid_ok : bool;
  ce_dup_ok : bool;
  ce_fcntl_ok : bool;
  ce_chdir_ok : bool;             (* chdir(ATSPOOL_DIR) *)
  ce_open_out_ok : bool;          (* open(filename, O_RDWR|O_CREAT|O_EXCL) *)
  ce_size : Z;                    (* st_size after the mail header *)
  ce_pam_ok : bool;
  ce_fork_ok : bool;
  ce_final_size : Z;              (* st_size after waitpid() *)
  ce_stdin_ok : bool;             (* dup2(fd_out, STDIN_FILENO) *)
  ce_devnull_ok : bool;
  ce_initgroups_ok : bool;
  ce_setgid_ok : bool;
  ce_setuid_ok : bool;
  ce_exec_mail_ok : bool
}.

(** What the child does that others can see, in program order. *)
Inductive event :=
| EvUnlinkJob (name : string)               (* line 350, the commit *)
| EvCreateOutput (name : string) (uid gid : Z)
| EvShell (uid gid nice : Z)                (* the second fork: /bin/sh *)
| EvWait                                    (* waitpid() returned *)
| EvRemoveOutput (name : string)
| EvUnlinkLock (name : string)
| EvSendmail (recipient : string) (uid gid : Z).

(** The child as a computation over the job directory and the events so
    far, which a call of perr() or pabort() ends. *)
Definition Child (A : Type) : Type :=
  jobdir * list event -> (abort + A) * (jobdir * list event).

#[local] Instance child_ret : MRet Child :=
  fun A (x : A) st => (inr x, st).

#[local] Instance child_bind : MBind Child :=
  fun A B (f : A -> Child B) (m : Child A) st =>
    match m st with
    | (inl a, st') => (inl a, st')
    | (inr x, st') => f x st'
    end.

Definition perr {A : Type} (a : abort) : Child A := fun st => (inl a, st).

(** [if (failed) perr(...)] *)
Definition unless (ok : bool) (a : abort) : Child unit :=
  if ok then mret tt else perr a.

Definition emit (e : event) : Child unit :=
  fun st => (inr tt, (st.1, st.2 ++ [e])).

Definition with_fs {A : Type} (f : jobdir -> A) : Child A :=
  fun st => (inr (f st.1), st).

Definition update_fs (f : jobdir -> jobdir) : Child unit :=
  fun st => (inr tt, (f st.1, st.2)).

Definition from_option {A : Type} (o : option A) (a : abort) : Child A :=
  match o with
  | Some x => mret x
  | None => perr a
  end.

Definition from_sum {A : Type} (r : abort + A) : Child A :=
  match r with
  | inl a => perr a
  | inr x => mret x
  end.

(** [nice((tolower((int) queue) - 'a' + 1) * 2)] *)
Definition nice_of (queue : ascii) : Z := (tolower queue - 97 + 1) * 2.

Definition queue_of (filename : string) : ascii :=
  match filename with
  | String q _ => q
  | EmptyString => "000"%char
  end.

(** Lines 281-344: open the job as root and validate what was opened. *)
Definition open_and_validate (ce : child_env) (filename : string) (uid : Z) : Child header :=
  unless (ce_getpwuid_ok ce) AbortNoUser ;;
  fd_in ← (o ← with_fs (fun fs => fs_open fs filename); from_option o AbortOpen) ;
  unless (ce_dup_ok ce) AbortDup ;;
  buf ← (o ← with_fs (fun fs => fs_fstat fs fd_in); from_option o AbortFstat) ;
  lbuf ← (o ← with_fs (fun fs => fs_lstat fs filename); from_option o AbortLstat) ;
  hdr_in ← with_fs (fun fs => fs_fscanf fs fd_in) ;
  from_sum (validate uid buf lbuf (ce_fcntl_ok ce) hdr_in).

(** Lines 346-519, from "We are now committed to executing this script";
    the result says whether sendmail was started. *)
Definition execute (ce : child_env) (filename : string) (uid gid : Z) (hdr : header)
  : Child bool :=
  let newname := set_sigil filename in
  update_fs (fun fs => fs_unlink fs filename) ;;
  emit (EvUnlinkJob filename) ;;
  unless (ce_chdir_ok ce) AbortChdir ;;
  unless (ce_open_out_ok ce) AbortOutput ;;
  emit (EvCreateOutput filename uid (h_ngid hdr)) ;;
  let size := ce_size ce in
  unless (ce_pam_ok ce) AbortPam ;;
  unless (ce_fork_ok ce) AbortFork ;;
  emit (EvShell uid (h_ngid hdr) (nice_of (queue_of filename))) ;;
  emit EvWait ;;
  unless (ce_stdin_ok ce) AbortStdin ;;
  unless (ce_devnull_ok ce) AbortDevNull ;;
  emit (EvRemoveOutput filename) ;;
  update_fs (fun fs => fs_unlink fs newname) ;;
  emit (EvUnlinkLock newname) ;;
  if mail_decision (h_send_mail hdr) (ce_final_size ce) size then
    unless (ce_initgroups_ok ce) AbortInitgroups ;;
    unless (ce_setgid_ok ce) AbortSetgid ;;
    unless (ce_setuid_ok ce) AbortSetuid ;;
    unless (ce_exec_mail_ok ce) AbortExecMail ;;
    emit (EvSendmail (h_mailname hdr) uid gid) ;;
    mret true
  else mret false.

(** run_file() after its first fork, lines 281-519. *)
Definition run_file_child (ce : child_env) (filename : string) (uid gid : Z) : Child bool :=
  hdr ← open_and_validate ce filename uid ;
  execute ce filename uid gid hdr.

(** The child from fork() to its exit, on the directory as it finds it. *)
Definition run_child (ce : child_env) (fs : jobdir) (filename : string) (uid gid : Z)
  : (abort + bool) * (jobdir * list event) :=
  run_file_child ce filename uid gid (fs, []).

(** ** The daemon on the job directory *)

(** A child forked by run_file(), with the arguments it inherited. *)
Record child_proc := mk_child {
  cp_name : string;
  cp_uid : Z;
  cp_gid : Z
}.

(** What run_file() meets in the daemon, once link() has answered. *)
Definition link_env (res : parent_env) (lr : link_result) : parent_env :=
  mk_parent_env (pe_malloc_ok res) (pe_strdup_ok res) lr (pe_fork_ok res).

(** Lines 238-275: the lock is a second name for the inode of the job. *)
Definition run_file (res : parent_env) (fs : jobdir) (filename : string) (uid gid : Z)
  : run_status * jobdir * list child_proc :=
  let lr := fs_link fs filename (set_sigil filename) in
  let status := run_file_parent (link_env res lr.1) filename in
  (status,
   if pe_malloc_ok res && jobbuf_fits filename && pe_strdup_ok res then lr.2 else fs,
   match status with RunSpawned => [mk_child filename uid gid] | _ => [] end).

(** One action of the readdir loop applied to the directory: the
    environment run_file() met, the directory, the children forked. *)
Definition perform (res : parent_env) (fs : jobdir) (acts : list action)
  : parent_env * jobdir * list child_proc :=
  match acts with
  | [ActUnlink n] => (res, fs_unlink fs n, [])
  | [ActRunFile n u g] =>
      let '(_, fs', cs) := run_file res fs n u g in
      (link_env res (fs_link fs n (set_sigil n)).1, fs', cs)
  | _ => (res, fs, [])
  end.

(** One turn of the readdir loop for the entry [n]. *)
Definition scan_step_fs (res : parent_env) (now : Z) (v : loop_vars) (n : string)
    (fs : jobdir) : option loop_vars * list action * jobdir * list child_proc :=
  let '(v', acts) := scan_entry now v n (fs_stat fs n) in
  let '(pe, fs', cs) := perform res fs acts in
  (if fatal acts pe then None else Some v', acts, fs', cs).

Fixpoint scan_dir_fs (res : parent_env) (now : Z) (v : loop_vars) (ns : list string)
    (fs : jobdir) : option loop_vars * list action * jobdir * list child_proc :=
  match ns with
  | [] => (Some v, [], fs, [])
  | n :: ns' =>
      match scan_step_fs res now v n fs with
      | (None, acts, fs', cs) => (None, acts, fs', cs)
      | (Some v', acts, fs', cs) =>
          let '(r, tr, fs'', cs') := scan_dir_fs res now v' ns' fs' in
          (r, acts ++ tr, fs'', cs ++ cs')
      end
  end.

(** The entries of the readdir loop as the daemon saw them on [fs]. *)
Fixpoint observed (res : parent_env) (now : Z) (v : loop_vars) (ns : list string)
    (fs : jobdir) : list dirent_in :=
  match ns with
  | [] => []
  | n :: ns' =>
      let st := fs_stat fs n in
      let '(v', acts) := scan_entry now v n st in
      let '(pe, fs', _) := perform res fs acts in
      mk_dirent_in n st pe :: (if fatal acts pe then [] else observed res now v' ns' fs')
  end.

Record cycle_fs := mk_cycle_fs {
  f_now : Z;
  f_dirstat : option stat;
  f_loadavg : Z * float;
  f_res : parent_env              (* memory and fork; its link field is not read *)
}.

Definition batch_admission_fs (cfg : config) (c : cycle_fs) (mtime nb : Z) (v : loop_vars)
    (tr : list action) (fs : jobdir) : loop_result * jobdir * list child_proc :=
  let name := lv_batch_name v in
  let pe := link_env (f_res c) (fs_link fs name (set_sigil name)).1 in
  let r := batch_admission cfg (f_now c) mtime nb v (f_loadavg c) pe tr in
  if negb (lv_run_batch v =? 0) && (nb <=? f_now c)
     && PrimFloat.ltb (sampled_load (f_loadavg c)) (load_avg cfg)
     && negb (unterminated name)
  then let '(_, fs', cs) := run_file (f_res c) fs name (lv_batch_uid v) (lv_batch_gid v) in
       (r, fs', cs)
  else (r, fs, []).

(** run_loop() on the directory [fs]: the result, the directory as the
    daemon leaves it, and the children it forked, none of which it waits
    for. *)
Definition run_loop_fs (cfg : config) (s : sched) (c : cycle_fs) (fs : jobdir)
  : loop_result * jobdir * list child_proc :=
  let now := f_now c in
  let nb := armed_next_batch s now in
  match f_dirstat c with
  | None => (Exited [], fs, [])
  | Some buf =>
      if nothing_to_do s && (st_mtime buf <=? last_chg s)
      then (Returned (mk_sched (last_chg s) (nothing_to_do s) nb) (now + CHECK_INTERVAL) [],
            fs, [])
      else
        match scan_dir_fs (f_res c) now (initial_vars now) (fs_readdir fs) fs with
        | (None, tr, fs', cs) => (Exited tr, fs', cs)
        | (Some v, tr, fs', cs) =>
            let '(r, fs'', cs') := batch_admission_fs cfg c (st_mtime buf) nb v tr fs' in
            (r, fs'', cs ++ cs')
        end
  end.

(** ** Daemon and children side by side *)

Inductive sys_event :=
| Started (name : string)       (* run_file() forked the child of this job *)
| Completed (name : string).    (* that child exited *)

Record system := mk_system {
  sy_fs : jobdir;
  sy_todo : list string;        (* entries readdir() has yet to return *)
  sy_vars : loop_vars;
  sy_pool : list child_proc;    (* children forked and not yet exited *)
  sy_log : list sys_event
}.

(** One step of the whole: either the daemon takes the next directory
    entry, or one of the children it forked runs to its exit. *)
Inductive step (res : parent_env) (now : Z) : system -> system -> Prop :=
| step_daemon (s : system) (n : string) (ns : list string) (v' : loop_vars)
      (acts : list action) (fs' : jobdir) (cs : list child_proc) :
    sy_todo s = n :: ns ->
    scan_step_fs res now (sy_vars s) n (sy_fs s) = (Some v', acts, fs', cs) ->
    step res now s
      (mk_system fs' ns v' (sy_pool s ++ cs) (sy_log s ++ map (fun c => Started (cp_name c)) cs))
| step_child (s : system) (ce : child_env) (c : child_proc) (before after : list child_proc) :
    sy_pool s = before ++ c :: after ->
    step res now s
      (mk_system (run_child ce (sy_fs s) (cp_name c) (cp_uid c) (cp_gid c)).2.1
         (sy_todo s) (sy_vars s) (before ++ after) (sy_log s ++ [Completed (cp_name c)])).

Inductive steps (res : parent_env) (now : Z) : system -> system -> Prop :=
| steps_refl (s : system) : steps res now s s
| steps_cons (s1 s2 s3 : system) :
    step res now s1 s2 -> steps res now s2 s3 -> steps res now s1 s3.

(** The state in which run_loop() enters its readdir loop. *)
Definition scan_start (now : Z) (fs : jobdir) : system :=
  mk_system fs (fs_readdir fs) (initial_vars now) [] [].

(** Every job started in a log was completed before the next one started. *)
Definition sequential (log : list sys_event) : Prop :=
  forall (i j : nat) (a b : string),
    (i < j)%nat ->
    log !! i = Some (Started a) ->
    log !! j = Some (Started b) ->
    exists k : nat, (i < k < j)%nat /\ log !! k = Some (Completed a).

(** ** main(): the cycles of the daemon *)

(** The statics before the first cycle. *)
Definition initial_sched : sched := mk_sched 0 false 0.

(** The SIGHUP handler. *)
Definition sdummy (s : sched) : sched := mk_sched (last_chg s) false (next_batch s).

(** One turn of the do-while loop of main(): was SIGHUP delivered since
    the last one, and what run_loop() is given. *)
Record wakeup := mk_wakeup {
  w_sighup : bool;
  w_cycle : cycle_in
}.

(** The cycles of the daemon, each with its [now]; the list ends where the
    daemon exits. *)
Fixpoint daemon_cycles (cfg : config) (s : sched) (ws : list wakeup)
  : list (Z * loop_result) :=
  match ws with
  | [] => []
  | w :: ws' =>
      let r := run_loop cfg (if w_sighup w then sdummy s else s) (w_cycle w) in
      (c_now (w_cycle w), r) ::
      match r with
      | Returned s' _ _ => daemon_cycles cfg s' ws'
      | Exited _ => []
      end
  end.

(** ** Vocabulary of the properties *)

Definition trace_of (r : loop_result) : list action :=
  match r with
  | Returned _ _ tr => tr
  | Exited tr => tr
  end.

Definition is_run_file (a : action) : bool :=
  match a with ActRunFile _ _ _ => true | _ => false end.

(** A run_file() call for a job of a batch queue. *)
Definition is_batch_run (a : action) : bool :=
  match a with ActRunFile n _ _ => isbatch (queue_of n) | _ => false end.

Definition is_getloadavg (a : action) : bool :=
  match a with ActGetloadavg => true | _ => false end.

Definition batch_runs (tr : list action) : list action := List.filter is_batch_run tr.

(** An admission attempt samples the load; an admission runs the batch job. *)
Definition attempted (r : loop_result) : bool := existsb is_getloadavg (trace_of r).
Definition admitted (r : loop_result) : bool := existsb is_batch_run (trace_of r).

(** Does this call of run_loop() read the directory? *)
Definition scans (s : sched) (c : cycle_in) : bool :=
  match c_dirstat c with
  | Some buf => negb (nothing_to_do s && (st_mtime buf <=? last_chg s)) && c_opendir_ok c
  | None => false
  end.

(** An entry that passes the tests made before the sigil is looked at:
    its queue byte, its run time in seconds, its stat. *)
Definition ready (e : dirent_in) : option (ascii * Z * stat) :=
  match sscanf_c_5lx_8lx (d_name e), d_stat e with
  | Some (queue, _, ctm), Some buf =>
      if S_ISREG (st_mode buf) && negb (Z.land (st_mode buf) S_IXUSR =? 0)
      then Some (queue, to_time_t ctm * 60, buf)
      else None
  | _, _ => None
  end.

(** Older than the staleness window. *)
Definition stale (now run_time : Z) : bool := run_time + CHECK_INTERVAL <=? now.

(** A job that is not locked and is due. *)
Definition due (now : Z) (e : dirent_in) : option (ascii * stat) :=
  match ready e with
  | Some (queue, run_time, buf) =>
      if isalpha queue && negb (1 <? st_nlink buf) && negb (now <? run_time)
      then Some (queue, buf)
      else None
  | None => None
  end.

Definition due_batch (now : Z) (e : dirent_in) : bool :=
  match due now e with Some (queue, _) => isbatch queue | None => false end.

Definition due_inline (now : Z) (e : dirent_in) : bool :=
  match due now e with Some (queue, _) => negb (isbatch queue) | None => false end.

(** The run_file() call the loop makes for an entry. *)
Definition run_of (e : dirent_in) : action :=
  match d_stat e with
  | Some buf => ActRunFile (d_name e) (st_uid buf) (st_gid buf)
  | None => ActRunFile (d_name e) 0 0
  end.

(** No entry ends the daemon in the readdir loop: run_file() for it
    would return, and its name leaves room for the NUL in the name
    buffers. *)
Definition survives (es : list dirent_in) : Prop :=
  Forall (fun e => ends_daemon (run_file_parent (d_run e) (d_name e)) = false
                   /\ unterminated (strncpy 15 (d_name e)) = false) es.

(** The aborts that precede the commit of line 350. *)
Definition before_commit (a : abort) : bool :=
  match a with
  | AbortNoUser | AbortOpen | AbortDup | AbortFstat | AbortLstat | AbortSymlink
  | AbortChanged | AbortLinked | AbortFcntl | AbortFormat | AbortMailName
  | AbortUid => true
  | _ => false
  end.

(** The mail rule in the words of the specification: "always", or
    "conditional" and the output grew. *)
Definition mail_rule_of_spec (send_mail final size : Z) : Prop :=
  send_mail = 1 \/ (send_mail = 0 /\ size < final).

(** What the loop holds of the batch candidates among the entries [seen]:
    their number, and the smallest of their names with its owner. *)
Definition batch_choice (now : Z) (seen : list dirent_in) (v : loop_vars) : Prop :=
  lv_run_batch v = Z.of_nat (length (List.filter (due_batch now) seen))
  /\ (List.filter (due_batch now) seen = [] -> lv_batch_name v = "z2345678901234")
  /\ (List.filter (due_batch now) seen <> [] ->
      (exists e, In e seen /\ due_batch now e = true
                 /\ run_of e = ActRunFile (lv_batch_name v) (lv_batch_uid v) (lv_batch_gid v))
      /\ (forall e', In e' seen -> due_batch now e' = true ->
                     strcmp (lv_batch_name v) (d_name e') <= 0)).

(** What the batch gate adds to the trace of the loop. *)
Definition batch_actions (cfg : config) (now nb : Z) (v : loop_vars) (la : Z * float)
  : list action :=
  if negb (lv_run_batch v =? 0) && (nb <=? now) then
    ActGetloadavg ::
    (if PrimFloat.ltb (sampled_load la) (load_avg cfg)
     then [ActRunFile (lv_batch_name v) (lv_batch_uid v) (lv_batch_gid v)]
     else [])
  else [].

(** The number a string of hexadecimal digits denotes, continuing [acc]. *)
Fixpoint hex_value (acc : Z) (ds : string) : Z :=
  match ds with
  | EmptyString => acc
  | String c ds' =>
      match xdigit_val c with
      | Some d => hex_value (acc * 16 + d) ds'
      | None => acc
      end
  end.

(** ** A sample spool *)

Module Sample.

(** S_IFREG | 0700 *)
Definition job_mode : Z := 33216.

Definition job_stat (ino nlink uid : Z) : stat :=
  mk_stat 2049 ino job_mode nlink uid uid 120 0.

Definition dir_stat (mtime : Z) : stat :=
  mk_stat 2049 2 16877 2 0 0 4096 mtime.

Definition all_ok : parent_env := mk_parent_env true true LinkOk true.

Definition entry (name : string) (st : stat) : dirent_in :=
  mk_dirent_in name (Some st) all_ok.

(** [atd -b 60 -l 1.5] *)
Definition cfg : config := mk_config 60 1.5.

(** An orphaned lock of minute 1, a batch job of serial 2 and one of
    serial 1, and an interactive job, all of minute 1. *)
Definition orphan : dirent_in := entry "=0000300000001" (job_stat 13 1 1000).
Definition batch2 : dirent_in := entry "B0000200000001" (job_stat 12 1 1002).
Definition batch1 : dirent_in := entry "B0000100000001" (job_stat 11 1 1001).
Definition inline4 : dirent_in := entry "a0000400000001" (job_stat 14 1 1000).

Definition spool : list dirent_in := [orphan; batch2; batch1; inline4].

(** A scan two hours after the epoch with the load at [load], getloadavg
    returning [ret]. *)
Definition cycle (now ret : Z) (load : float) : cycle_in :=
  mk_cycle_in now (Some (dir_stat 100)) true spool (ret, load) all_ok.

(** The same on the directory model. *)

Definition job_inode (nlink uid size : Z) (h : option header) : inode :=
  mk_inode 2049 job_mode nlink uid uid size 0 "" h.

(** A child that meets no failure; the output file has 45 bytes after the
    mail header and still 45 when the shell has exited. *)
Definition env_ok : child_env :=
  mk_child_env true true true true true 45 true true 45 true true true true true true.

(** The same, but the job cuts its output file down to 10 bytes. *)
Definition env_shrunk : child_env :=
  mk_child_env true true true true true 45 true true 10 true true true true true true.

Definition scan (s : sched) (now : Z) (fs : jobdir)
  : loop_result * jobdir * list child_proc :=
  run_loop_fs cfg s (mk_cycle_fs now (Some (dir_stat now)) (1, 0.25%float) all_ok) fs.


(** A job of uid 1000 whose header says uid 1001: three scans, the child
    of the first running to its end before the second. *)
Definition forged : jobdir :=
  mk_jobdir {[ "a0000100000001" := 100 ]}
            {[ 100 := job_inode 1 1000 120 (Some (mk_header 1001 1000 "alice" 0)) ]}.

Definition scan1 := scan initial_sched 7200 forged.

(** A job as the scanner finds it, and the directory when the child opens
    the name: the lock still names inode 100, the job name now names
    inode 200 on another device, owned by uid 2000 and of another size,
    with a header that says uid 1000. *)
Definition honest : jobdir :=
  mk_jobdir {[ "a0000100000001" := 100 ]}
            {[ 100 := job_inode 1 1000 120 (Some (mk_header 1000 1000 "alice" 0)) ]}.

Definition swapped : jobdir :=
  mk_jobdir {[ "a0000100000001" := 200; "=0000100000001" := 100 ]}
            {[ 100 := job_inode 1 1000 120 (Some (mk_header 1000 1000 "alice" 0));
               200 := mk_inode 2050 job_mode 1 2000 2000 999 0 ""
                        (Some (mk_header 1000 1000 "mallory" 1)) ]}.

(** The job of [honest] once run_file() has linked its lock. *)
Definition locked : jobdir :=
  mk_jobdir {[ "a0000100000001" := 100; "=0000100000001" := 100 ]}
            {[ 100 := job_inode 2 1000 120 (Some (mk_header 1000 1000 "alice" 0)) ]}.

(** Two interactive jobs that are due. *)
Definition two_jobs : jobdir :=
  mk_jobdir {[ "a0000100000001" := 101; "a0000200000001" := 102 ]}
            {[ 101 := job_inode 1 1000 120 (Some (mk_header 1000 1000 "alice" 0));
               102 := job_inode 1 1001 130 (Some (mk_header 1001 1001 "bob" 0)) ]}.

End Sample.

(** ** What a scan leaves for later *)

(** main(): [if (next_invocation > now) sleep(next_invocation - now);] *)
Definition sleep_seconds (now next_invocation : Z) : Z :=
  if now <? next_invocation then next_invocation - now else 0.

(** A job that is not locked and not yet due: its run time. *)
Definition pending (now : Z) (e : dirent_in) : option Z :=
  match ready e with
  | Some (queue, run_time, buf) =>
      if isalpha queue && negb (1 <? st_nlink buf) && (now <? run_time)
      then Some run_time
      else None
  | None => None
  end.

(** A regular file with a name of the job format that at(1) has not yet
    marked executable. *)
Definition unready (e : dirent_in) : bool :=
  match sscanf_c_5lx_8lx (d_name e), d_stat e with
  | Some _, Some buf => S_ISREG (st_mode buf) && (Z.land (st_mode buf) S_IXUSR =? 0)
  | _, _ => false
  end.

(** A job whose lock is older than the staleness window. *)
Definition abandoned (now : Z) (e : dirent_in) : bool :=
  match ready e with
  | Some (queue, run_time, buf) =>
      isalpha queue && (1 <? st_nlink buf) && stale now run_time
  | None => false
  end.

(** A name with the sigil of the locks. *)
Definition is_lock_name (n : string) : bool :=
  match n with
  | String c _ => Ascii.eqb c "="
  | EmptyString => false
  end.

(** ** main(): the options *)

(** One return of getopt(argc, argv, "sdl:b:f") with its argument as sscanf
    converted it ([None]: sscanf did not return 1). *)
Inductive getopt_result :=
| Opt_l (conv : option float)     (* sscanf(optarg, "%lf", &load_avg) *)
| Opt_b (conv : option Z)         (* sscanf(optarg, "%ud", &batch_interval) *)
| Opt_d
| Opt_f
| Opt_s
| Opt_unknown                     (* '?' *)
| Opt_other.                      (* default: *)

(** The variables the option loop sets.  [daemon_debug] and
    [daemon_foreground] are the counters of daemon.c. *)
Record settings := mk_settings {
  set_config : config;
  set_daemon_debug : Z;
  set_daemon_foreground : Z;
  set_run_as_daemon : bool
}.

(** What sscanf's [%u] leaves in an [unsigned int]. *)
Definition to_unsigned_int (v : Z) : Z := v mod 2 ^ 32.

(** One turn of the switch; [None] is a call of pabort(). *)
Definition main_option (LOADAVG_MX : float) (st : settings) (o : getopt_result)
  : option settings :=
  match o with
  | Opt_l None => None
  | Opt_l (Some parsed) =>
      Some (mk_settings
              (mk_config (batch_interval (set_config st)) (option_l LOADAVG_MX parsed))
              (set_daemon_debug st) (set_daemon_foreground st) (set_run_as_daemon st))
  | Opt_b None => None
  | Opt_b (Some parsed) =>
      Some (mk_settings
              (mk_config (to_unsigned_int parsed) (load_avg (set_config st)))
              (set_daemon_debug st) (set_daemon_foreground st) (set_run_as_daemon st))
  | Opt_d =>
      Some (mk_settings (set_config st) (set_daemon_debug st + 1)
              (set_daemon_foreground st + 1) (set_run_as_daemon st))
  | Opt_f =>
      Some (mk_settings (set_config st) (set_daemon_debug st)
              (set_daemon_foreground st + 1) (set_run_as_daemon st))
  | Opt_s =>
      Some (mk_settings (set_config st) (set_daemon_debug st)
              (set_daemon_foreground st) false)
  | Opt_unknown => None
  | Opt_other => None
  end.

Fixpoint main_options (LOADAVG_MX : float) (st : settings) (os : list getopt_result)
  : option settings :=
  match os with
  | [] => Some st
  | o :: os' =>
      match main_option LOADAVG_MX st o with
      | None => None
      | Some st' => main_options LOADAVG_MX st' os'
      end
  end.

(** The settings before the first option: [load_avg] is initialised to
    LOADAVG_MX, [run_as_daemon = 1], [batch_interval =
    BATCH_INTERVAL_DEFAULT]; the two counters start as daemon.c has them. *)
Definition initial_settings (LOADAVG_MX : float) (debug foreground : Z) : settings :=
  mk_settings (mk_config BATCH_INTERVAL_DEFAULT LOADAVG_MX) debug foreground true.

(** A double that is a number: at most zero, or above it. *)
Definition is_number (x : float) : bool :=
  PrimFloat.leb x 0 || PrimFloat.ltb 0 x.

Definition numeric_option (o : getopt_result) : bool :=
  match o with
  | Opt_l (Some parsed) => is_number parsed
  | _ => true
  end.

(** The aborts of the mail stage, which follow the unlink of the lock. *)
Definition after_cleanup (a : abort) : bool :=
  match a with
  | AbortInitgroups | AbortSetgid | AbortSetuid | AbortExecMail => true
  | _ => false
  end.

Definition is_unlink_lock (e : event) : bool :=
  match e with EvUnlinkLock _ => true | _ => false end.

(** ** More sample data *)

Module Later.

(** An interactive job of minute 128, not yet due two hours after the
    epoch, and a job of minute 1 that has had its lock for two hours. *)
Definition waiting : dirent_in :=
  Sample.entry "a0000500000080" (Sample.job_stat 15 1 1000).
Definition crashed : dirent_in :=
  Sample.entry "a0000600000001" (Sample.job_stat 16 2 1000).

Definition cycle (es : list dirent_in) : cycle_in :=
  mk_cycle_in 7200 (Some (Sample.dir_stat 100)) true es (1, 0.25%float) Sample.all_ok.

(** A symbolic link in the spool that points at the job of [Sample.honest]. *)
Definition linked : jobdir :=
  mk_jobdir {[ "a0000100000001" := 100; "a0000700000001" := 300 ]}
            {[ 100 := Sample.job_inode 1 1000 120 (Some (mk_header 1000 1000 "alice" 0));
               300 := mk_inode 2049 41471 1 1000 1000 14 0 "a0000100000001" None ]}.

(** A child whose second fork fails. *)
Definition env_nofork : child_env :=
  mk_child_env true true true true true 45 true false 45 true true true true true true.

End Later.
(** * Properties *)

(** ** Characters and names *)

Lemma equals_not_alpha : isalpha "=" = false.
Proof. reflexivity. Qed.

Lemma eqb_equals_not_alpha (q : ascii) : Ascii.eqb q "=" = true -> isalpha q = false.
Proof. intros H. apply Ascii.eqb_eq in H. subst q. reflexivity. Qed.

Lemma sscanf_queue (name : string) (q : ascii) (jobno ctm : Z) :
  sscanf_c_5lx_8lx name = Some (q, jobno, ctm) -> queue_of name = q.
Proof.
  unfold sscanf_c_5lx_8lx. destruct name as [|c s]; [discriminate|].
  destruct (scan_lx 5 s) as [[j s']|]; [|discriminate].
  destruct (scan_lx 8 s') as [[m r]|]; [|discriminate].
  intros H. injection H as -> _ _. reflexivity.
Qed.

(** ** One entry of the readdir loop *)

Ltac split_ifs :=
  repeat match goal with
         | |- context [if ?b then _ else _] => destruct b eqn:?; simpl in *
         | H : context [if ?b then _ else _] |- _ => destruct b eqn:?; simpl in *
         end.

Lemma scan_entry_unready (now : Z) (v : loop_vars) (e : dirent_in) :
  ready e = None ->
  (scan_entry now v (d_name e) (d_stat e)).2 = []
  /\ lv_run_batch (scan_entry now v (d_name e) (d_stat e)).1 = lv_run_batch v
  /\ lv_batch_name (scan_entry now v (d_name e) (d_stat e)).1 = lv_batch_name v
  /\ lv_batch_uid (scan_entry now v (d_name e) (d_stat e)).1 = lv_batch_uid v
  /\ lv_batch_gid (scan_entry now v (d_name e) (d_stat e)).1 = lv_batch_gid v.
Proof.
  unfold ready, scan_entry.
  destruct (sscanf_c_5lx_8lx (d_name e)) as [[[q j] m]|]; [|auto].
  destruct (d_stat e) as [buf|]; [|auto].
  destruct (S_ISREG (st_mode buf)); simpl; [|auto].
  destruct (Z.land (st_mode buf) S_IXUSR =? 0); simpl; [auto|discriminate].
Qed.

(** What the loop does with an entry that is ready, by cases as in the
    code. *)
Lemma scan_entry_ready (now : Z) (v : loop_vars) (e : dirent_in)
    (q : ascii) (run_time : Z) (buf : stat) :
  ready e = Some (q, run_time, buf) ->
  scan_entry now v (d_name e) (d_stat e) =
    if Ascii.eqb q "=" then
      (v, if (st_nlink buf =? 1) && stale now run_time then [ActUnlink (d_name e)] else [])
    else if negb (isalpha q) then (v, [])
    else if 1 <? st_nlink buf then
      if stale now run_time
      then
        if unterminated (set_sigil (strncpy 15 (d_name e))) then (v, [ActOverread])
        else (set_nothing_to_do false (set_next_job now v),
              [ActUnlink (set_sigil (strncpy 15 (d_name e)))])
      else (v, [])
    else
      let v1 := set_nothing_to_do false v in
      if now <? run_time then
        ((if run_time <? lv_next_job v1 then set_next_job run_time v1 else v1), [])
      else if isbatch q then
        let v2 := set_run_batch (lv_run_batch v1 + 1) v1 in
        if unterminated (lv_batch_name v2) then (v2, [ActOverread])
        else if 0 <? strcmp (lv_batch_name v2) (d_name e)
        then (set_batch (strncpy 15 (d_name e)) (st_uid buf) (st_gid buf) q v2, [])
        else (v2, [])
      else (v1, [ActRunFile (d_name e) (st_uid buf) (st_gid buf)]).
Proof.
  unfold ready, scan_entry, stale, isalpha.
  destruct (sscanf_c_5lx_8lx (d_name e)) as [[[q' j] m]|]; [|discriminate].
  destruct (d_stat e) as [buf'|]; [|discriminate].
  destruct (S_ISREG (st_mode buf')); cbn [negb andb]; [|discriminate].
  destruct (Z.land (st_mode buf') S_IXUSR =? 0); cbn [negb andb]; [discriminate|].
  intros H. injection H as -> <- ->.
  destruct (Ascii.eqb q "="); [destruct (_ && _); reflexivity|].
  destruct (negb (isupper q || islower q)); [reflexivity|].
  destruct (1 <? st_nlink buf); [reflexivity|].
  destruct (now <? to_time_t m * 60) eqn:Hlt; [reflexivity|].
  destruct (isbatch q); [reflexivity|].
  apply Z.ltb_ge in Hlt. apply Z.leb_le in Hlt. rewrite Hlt. reflexivity.
Qed.

(** The run_file() calls of one entry: exactly the due jobs of the
    interactive queues. *)
Lemma scan_entry_runs (now : Z) (v : loop_vars) (e : dirent_in) :
  (scan_entry now v (d_name e) (d_stat e)).2 =
    (if due_inline now e then [run_of e] else [])
  \/ (due_inline now e = false /\
      ((exists n, (scan_entry now v (d_name e) (d_stat e)).2 = [ActUnlink n])
       \/ (scan_entry now v (d_name e) (d_stat e)).2 = [ActOverread])).
Proof.
  destruct (ready e) as [[[q rt] buf]|] eqn:Hr.
  - rewrite (scan_entry_ready _ _ _ _ _ _ Hr).
    assert (Hst : d_stat e = Some buf).
    { unfold ready in Hr. destruct (sscanf_c_5lx_8lx (d_name e)) as [[[? ?] ?]|]; [|discriminate].
      destruct (d_stat e); [|discriminate]. split_ifs; congruence. }
    unfold due_inline, due, run_of. rewrite Hr, Hst.
    destruct (Ascii.eqb q "=") eqn:Heq.
    + rewrite (eqb_equals_not_alpha _ Heq). simpl. split_ifs; eauto.
    + destruct (isalpha q); simpl; [|auto].
      destruct (1 <? st_nlink buf); simpl.
      * split_ifs; eauto.
      * destruct (now <? rt); simpl; [split_ifs; auto|].
        destruct (isbatch q); simpl; [split_ifs; auto|auto].
  - destruct (scan_entry_unready now v e Hr) as [-> _].
    unfold due_inline, due. rewrite Hr. auto.
Qed.

Lemma ready_inv (e : dirent_in) (q : ascii) (rt : Z) (buf : stat) :
  ready e = Some (q, rt, buf) ->
  d_stat e = Some buf /\ queue_of (d_name e) = q
  /\ S_ISREG (st_mode buf) = true /\ Z.land (st_mode buf) S_IXUSR <> 0.
Proof.
  unfold ready.
  destruct (sscanf_c_5lx_8lx (d_name e)) as [[[q' j] m]|] eqn:Hs; [|discriminate].
  destruct (d_stat e) as [buf'|]; [|discriminate].
  destruct (S_ISREG (st_mode buf')) eqn:Hreg; simpl; [|discriminate].
  destruct (Z.land (st_mode buf') S_IXUSR =? 0) eqn:Hx; simpl; [discriminate|].
  intros H. injection H as -> _ ->.
  apply Z.eqb_neq in Hx. eauto using sscanf_queue.
Qed.

Lemma due_inv (now : Z) (e : dirent_in) (q : ascii) (buf : stat) :
  due now e = Some (q, buf) ->
  exists rt, ready e = Some (q, rt, buf) /\ isalpha q = true
             /\ st_nlink buf <= 1 /\ rt <= now.
Proof.
  unfold due. destruct (ready e) as [[[q' rt] buf']|]; [|discriminate].
  destruct (isalpha q') eqn:Ha; simpl; [|discriminate].
  destruct (1 <? st_nlink buf') eqn:Hn; simpl; [discriminate|].
  destruct (now <? rt) eqn:Hd; simpl; [discriminate|].
  intros H. injection H as -> ->. exists rt.
  apply Z.ltb_ge in Hn, Hd. auto.
Qed.

Lemma due_inline_not_batch (now : Z) (e : dirent_in) :
  due_inline now e = true -> is_batch_run (run_of e) = false.
Proof.
  unfold due_inline. destruct (due now e) as [[q buf]|] eqn:Hd; [|discriminate].
  destruct (due_inv _ _ _ _ Hd) as (rt & Hr & _).
  destruct (ready_inv _ _ _ _ Hr) as (Hst & Hq & _).
  unfold run_of. rewrite Hst. simpl. rewrite Hq.
  intros H. apply negb_true_iff in H. exact H.
Qed.

(** No step of the readdir loop samples the load or runs a batch job. *)
Lemma scan_entry_quiet (now : Z) (v : loop_vars) (e : dirent_in) :
  Forall (fun a => is_getloadavg a = false /\ is_batch_run a = false)
    (scan_entry now v (d_name e) (d_stat e)).2.
Proof.
  destruct (scan_entry_runs now v e) as [-> | [_ [[n ->] | ->]]].
  - destruct (due_inline now e) eqn:Hd; [|constructor].
    repeat constructor.
    + unfold run_of. destruct (d_stat e); reflexivity.
    + eauto using due_inline_not_batch.
  - repeat constructor.
  - repeat constructor.
Qed.

(** ** The readdir loop *)

Lemma scan_dir_quiet (now : Z) (es : list dirent_in) (v : loop_vars) :
  Forall (fun a => is_getloadavg a = false /\ is_batch_run a = false)
    (scan_dir now v es).2.
Proof.
  revert v. induction es as [|e es IH]; intros v; simpl; [constructor|].
  pose proof (scan_entry_quiet now v e) as Hq.
  destruct (scan_entry now v (d_name e) (d_stat e)) as [v' acts]. simpl in Hq.
  destruct (fatal acts (d_run e)); simpl; [exact Hq|].
  specialize (IH v'). destruct (scan_dir now v' es) as [r tr]. simpl in *.
  apply Forall_app; auto.
Qed.

Lemma quiet_no_batch_runs (tr : list action) :
  Forall (fun a => is_getloadavg a = false /\ is_batch_run a = false) tr ->
  batch_runs tr = [] /\ existsb is_getloadavg tr = false /\ existsb is_batch_run tr = false.
Proof.
  induction 1 as [|a tr [Hg Hb] _ (IH1 & IH2 & IH3)]; simpl; [auto|].
  unfold batch_runs in *. simpl. rewrite Hg, Hb. auto.
Qed.

Lemma unterminated_set_sigil (s : string) :
  unterminated (set_sigil s) = unterminated s.
Proof. destruct s; reflexivity. Qed.

(** An entry whose run_file() returns and whose name fits the name
    buffers does not end the daemon, and leaves [batch_name] with its
    NUL. *)
Lemma fatal_survives (now : Z) (v : loop_vars) (e : dirent_in) :
  ends_daemon (run_file_parent (d_run e) (d_name e)) = false ->
  unterminated (strncpy 15 (d_name e)) = false ->
  unterminated (lv_batch_name v) = false ->
  fatal (scan_entry now v (d_name e) (d_stat e)).2 (d_run e) = false
  /\ unterminated (lv_batch_name (scan_entry now v (d_name e) (d_stat e)).1) = false.
Proof.
  intros Hrun Hname Hbatch.
  destruct (ready e) as [[[q rt] buf]|] eqn:Hr.
  - rewrite (scan_entry_ready _ _ _ _ _ _ Hr). rewrite unterminated_set_sigil, Hname.
    cbn [lv_batch_name set_run_batch set_nothing_to_do]. rewrite Hbatch.
    repeat match goal with
           | |- context [if ?b then _ else _] => destruct b
           end; cbn [fst snd fatal lv_batch_name set_batch set_run_batch set_nothing_to_do
                     set_next_job]; auto.
  - destruct (scan_entry_unready now v e Hr) as (-> & _ & -> & _). auto.
Qed.

(** When no entry ends the daemon, the loop reaches closedir(). *)
Lemma scan_dir_survives (now : Z) (es : list dirent_in) (v : loop_vars) :
  unterminated (lv_batch_name v) = false ->
  survives es ->
  exists v' tr, scan_dir now v es = (Some v', tr)
                /\ unterminated (lv_batch_name v') = false.
Proof.
  intros Hb Hs. revert v Hb.
  induction Hs as [|e es [Hrun Hname] _ IH]; intros v Hb; simpl; [eauto|].
  destruct (fatal_survives now v e Hrun Hname Hb) as [Hf Hb'].
  destruct (scan_entry now v (d_name e) (d_stat e)) as [v' acts]. simpl in Hf, Hb'.
  rewrite Hf.
  destruct (IH v' Hb') as (v'' & tr & -> & Hb''). eauto.
Qed.

(** The run_file() calls of the loop are the due interactive jobs, in the
    order in which readdir() returned them. *)
Lemma scan_dir_run_files (now : Z) (es : list dirent_in) (v v' : loop_vars)
    (tr : list action) :
  scan_dir now v es = (Some v', tr) ->
  List.filter is_run_file tr = map run_of (List.filter (due_inline now) es).
Proof.
  revert v tr. induction es as [|e es IH]; intros v tr; simpl.
  - intros H. injection H as _ <-. reflexivity.
  - pose proof (scan_entry_runs now v e) as Hr.
    destruct (scan_entry now v (d_name e) (d_stat e)) as [v1 acts]. simpl in Hr.
    destruct (fatal acts (d_run e)); [discriminate|].
    destruct (scan_dir now v1 es) as [r tr1] eqn:Hs.
    intros H. injection H as -> <-.
    rewrite List.filter_app, (IH _ _ Hs).
    destruct Hr as [-> | [Hd [[n ->] | ->]]].
    + destruct (due_inline now e); simpl; [|reflexivity].
      unfold run_of. destruct (d_stat e); reflexivity.
    + rewrite Hd. reflexivity.
    + rewrite Hd. reflexivity.
Qed.


(** ** strcmp is a total order on names *)

Lemma ascii_compare_N (a b : ascii) :
  Ascii.compare a b = N.compare (N_of_ascii a) (N_of_ascii b).
Proof. reflexivity. Qed.

Lemma ascii_compare_refl (a : ascii) : Ascii.compare a a = Eq.
Proof. rewrite ascii_compare_N. apply N.compare_refl. Qed.

Lemma string_compare_refl (a : string) : String.compare a a = Eq.
Proof. induction a as [|c a IH]; simpl; [reflexivity|]. rewrite ascii_compare_refl. exact IH. Qed.

Lemma string_compare_lt_trans (a b c : string) :
  String.compare a b = Lt -> String.compare b c = Lt -> String.compare a c = Lt.
Proof.
  revert b c. induction a as [|x a IH]; intros [|y b] [|z c]; simpl; try congruence.
  destruct (Ascii.compare x y) eqn:Hxy; try discriminate;
    destruct (Ascii.compare y z) eqn:Hyz; try discriminate; intros H1 H2.
  - apply Ascii.compare_eq_iff in Hxy, Hyz. subst. rewrite ascii_compare_refl. eauto.
  - apply Ascii.compare_eq_iff in Hxy. subst. rewrite Hyz. reflexivity.
  - apply Ascii.compare_eq_iff in Hyz. subst. rewrite Hxy. reflexivity.
  - rewrite ascii_compare_N in Hxy. rewrite ascii_compare_N in Hyz.
    assert (Hxz : Ascii.compare x z = Lt).
    { rewrite ascii_compare_N. apply N.compare_lt_iff. eapply N.lt_trans; eassumption. }
    rewrite Hxz. reflexivity.
Qed.

Lemma strcmp_refl (a : string) : strcmp a a = 0.
Proof. unfold strcmp. rewrite string_compare_refl. reflexivity. Qed.

Lemma strcmp_pos_swap (a b : string) : 0 < strcmp a b -> strcmp b a < 0.
Proof.
  unfold strcmp. rewrite (String.compare_antisym a b).
  destruct (String.compare b a); simpl; lia.
Qed.

Lemma strcmp_neg_le_trans (a b c : string) :
  strcmp a b < 0 -> strcmp b c <= 0 -> strcmp a c <= 0.
Proof.
  unfold strcmp.
  destruct (String.compare a b) eqn:Hab; try lia.
  destruct (String.compare b c) eqn:Hbc; try lia; intros _ _.
  - apply String.compare_eq_iff in Hbc. subst. rewrite Hab. lia.
  - rewrite (string_compare_lt_trans _ _ _ Hab Hbc). lia.
Qed.

Lemma strncpy_fits (n : nat) (s : string) :
  (String.length s <= n)%nat -> strncpy n s = s.
Proof.
  revert n. induction s as [|c s IH]; intros [|n]; simpl; try reflexivity; try lia.
  intros H. f_equal. apply IH. lia.
Qed.

Lemma sscanf_name (name : string) (q : ascii) (jobno ctm : Z) :
  sscanf_c_5lx_8lx name = Some (q, jobno, ctm) -> exists s, name = String q s.
Proof.
  destruct name as [|c s]; [discriminate|].
  intros H. pose proof (sscanf_queue _ _ _ _ H) as Hq. simpl in Hq. subst. eauto.
Qed.

(** Every batch queue letter sorts before the initial [batch_name]. *)
Lemma sentinel_above_batch (q : ascii) (s : string) :
  isbatch q = true -> 0 < strcmp "z2345678901234" (String q s).
Proof.
  intros Hb. unfold strcmp. simpl.
  assert (Hlt : Ascii.compare "z" q = Gt).
  { rewrite ascii_compare_N. apply N.compare_gt_iff.
    unfold isbatch, isupper, code in Hb.
    apply orb_true_iff in Hb as [Hb | Hb].
    - apply andb_true_iff in Hb as [_ Hb]. apply Z.leb_le in Hb.
      change (N_of_ascii "z") with 122%N. lia.
    - apply Ascii.eqb_eq in Hb. subst q. reflexivity. }
  rewrite Hlt. lia.
Qed.

(** ** The batch candidate *)

Lemma due_batch_inv (now : Z) (e : dirent_in) :
  due_batch now e = true ->
  exists q rt buf s, ready e = Some (q, rt, buf) /\ d_stat e = Some buf
    /\ d_name e = String q s /\ isbatch q = true /\ isalpha q = true
    /\ st_nlink buf <= 1 /\ rt <= now.
Proof.
  unfold due_batch. destruct (due now e) as [[q buf]|] eqn:Hd; [|discriminate].
  intros Hb. destruct (due_inv _ _ _ _ Hd) as (rt & Hr & Ha & Hn & Ht).
  destruct (ready_inv _ _ _ _ Hr) as (Hst & Hq & _).
  assert (exists s, d_name e = String q s) as [s Hs].
  { unfold ready in Hr.
    destruct (sscanf_c_5lx_8lx (d_name e)) as [[[q' j] m]|] eqn:Hsc; [|discriminate].
    destruct (sscanf_name _ _ _ _ Hsc) as [s Hs].
    rewrite Hs in Hq. simpl in Hq. subst q'. eauto. }
  exists q, rt, buf, s. auto 10.
Qed.

Lemma scan_entry_candidate (now : Z) (v : loop_vars) (e : dirent_in) (buf : stat) :
  due_batch now e = true -> d_stat e = Some buf ->
  let v' := (scan_entry now v (d_name e) (d_stat e)).1 in
  lv_run_batch v' = lv_run_batch v + 1
  /\ if unterminated (lv_batch_name v)
     then (scan_entry now v (d_name e) (d_stat e)).2 = [ActOverread]
     else
       if 0 <? strcmp (lv_batch_name v) (d_name e)
       then lv_batch_name v' = strncpy 15 (d_name e)
            /\ lv_batch_uid v' = st_uid buf /\ lv_batch_gid v' = st_gid buf
       else lv_batch_name v' = lv_batch_name v
            /\ lv_batch_uid v' = lv_batch_uid v /\ lv_batch_gid v' = lv_batch_gid v.
Proof.
  intros Hd Hst.
  destruct (due_batch_inv _ _ Hd) as (q & rt & buf' & s & Hr & Hst' & Hn & Hb & Ha & Hl & Ht).
  assert (buf' = buf) by congruence. subst buf'.
  rewrite (scan_entry_ready _ _ _ _ _ _ Hr).
  assert (Hq : Ascii.eqb q "=" = false).
  { destruct (Ascii.eqb q "=") eqn:E; [|reflexivity].
    apply eqb_equals_not_alpha in E. congruence. }
  rewrite Hq, Ha. simpl.
  replace (1 <? st_nlink buf) with false by (symmetry; apply Z.ltb_ge; lia).
  replace (now <? rt) with false by (symmetry; apply Z.ltb_ge; lia).
  rewrite Hb. cbn [lv_batch_name set_run_batch set_nothing_to_do].
  destruct (unterminated (lv_batch_name v)); [simpl; auto|].
  destruct (0 <? strcmp (lv_batch_name v) (d_name e)); simpl; auto.
Qed.

Lemma scan_entry_no_candidate (now : Z) (v : loop_vars) (e : dirent_in) :
  due_batch now e = false ->
  let v' := (scan_entry now v (d_name e) (d_stat e)).1 in
  lv_run_batch v' = lv_run_batch v /\ lv_batch_name v' = lv_batch_name v
  /\ lv_batch_uid v' = lv_batch_uid v /\ lv_batch_gid v' = lv_batch_gid v.
Proof.
  intros Hd. destruct (ready e) as [[[q rt] buf]|] eqn:Hr.
  - rewrite (scan_entry_ready _ _ _ _ _ _ Hr).
    unfold due_batch, due in Hd. rewrite Hr in Hd.
    destruct (Ascii.eqb q "="); [split_ifs; auto|].
    destruct (isalpha q); simpl in *; [|auto].
    destruct (1 <? st_nlink buf); simpl in *; [split_ifs; auto|].
    destruct (now <? rt); simpl in *; [split_ifs; auto|].
    rewrite Hd. simpl. auto.
  - destruct (scan_entry_unready now v e Hr) as (_ & ? & ? & ? & ?). auto.
Qed.

Lemma filter_snoc_due (now : Z) (seen : list dirent_in) (e : dirent_in) :
  List.filter (due_batch now) (seen ++ [e]) =
  List.filter (due_batch now) seen ++ (if due_batch now e then [e] else []).
Proof. rewrite List.filter_app. simpl. destruct (due_batch now e); reflexivity. Qed.

Lemma filter_nil_none (now : Z) (seen : list dirent_in) (e : dirent_in) :
  List.filter (due_batch now) seen = [] -> In e seen -> due_batch now e = true -> False.
Proof.
  intros Hnil Hin Hd.
  assert (H : In e (List.filter (due_batch now) seen)) by (apply List.filter_In; auto).
  rewrite Hnil in H. exact H.
Qed.

Lemma batch_choice_start (now : Z) : batch_choice now [] (initial_vars now).
Proof. unfold batch_choice. simpl. repeat split; auto; congruence. Qed.

(** The first entry of a loop that reached closedir(). *)
Lemma scan_dir_cons_inv (now : Z) (e : dirent_in) (es : list dirent_in)
    (v v' : loop_vars) (tr : list action) :
  scan_dir now v (e :: es) = (Some v', tr) ->
  exists tr1,
    fatal (scan_entry now v (d_name e) (d_stat e)).2 (d_run e) = false
    /\ scan_dir now (scan_entry now v (d_name e) (d_stat e)).1 es = (Some v', tr1)
    /\ tr = (scan_entry now v (d_name e) (d_stat e)).2 ++ tr1.
Proof.
  simpl. destruct (scan_entry now v (d_name e) (d_stat e)) as [v1 acts]. simpl.
  destruct (fatal acts (d_run e)); [discriminate|].
  destruct (scan_dir now v1 es) as [r tr1].
  intros H. injection H as -> <-. eauto.
Qed.

(** A batch candidate met with [batch_name] unterminated ends the loop. *)
Lemma candidate_terminated (now : Z) (e : dirent_in) (es : list dirent_in)
    (v v' : loop_vars) (tr : list action) :
  scan_dir now v (e :: es) = (Some v', tr) ->
  due_batch now e = true -> unterminated (lv_batch_name v) = false.
Proof.
  intros Hs Hd. destruct (scan_dir_cons_inv _ _ _ _ _ _ Hs) as (tr1 & Hf & _).
  destruct (unterminated (lv_batch_name v)) eqn:Hu; [|reflexivity].
  destruct (due_batch_inv _ _ Hd) as (q & rt & buf & s & _ & Hst & _).
  destruct (scan_entry_candidate now v e buf Hd Hst) as [_ Hov].
  rewrite Hu in Hov. rewrite Hov in Hf. discriminate.
Qed.

(** One more entry keeps [batch_name] the smallest candidate seen. *)
Lemma batch_choice_step (now : Z) (seen : list dirent_in) (v : loop_vars) (e : dirent_in) :
  (due_batch now e = true -> (String.length (d_name e) <= 14)%nat) ->
  (due_batch now e = true -> unterminated (lv_batch_name v) = false) ->
  batch_choice now seen v ->
  batch_choice now (seen ++ [e]) (scan_entry now v (d_name e) (d_stat e)).1.
Proof.
  intros Hlen Hterm (Hn & Hnone & Hsome). unfold batch_choice.
  rewrite filter_snoc_due.
  destruct (due_batch now e) eqn:Hd.
  - destruct (due_batch_inv _ _ Hd) as (q & rt & buf & s & Hr & Hst & Hname & Hb & _).
    destruct (scan_entry_candidate now v e buf Hd Hst) as [Hrb Hsel].
    rewrite (Hterm eq_refl) in Hsel.
    set (v' := (scan_entry now v (d_name e) (d_stat e)).1) in *.
    rewrite Hrb, Hn, length_app. simpl.
    split; [lia|]. split; [intros H; destruct (List.filter (due_batch now) seen); discriminate|].
    intros _.
    assert (Hfit : strncpy 15 (d_name e) = d_name e) by (apply strncpy_fits; specialize (Hlen eq_refl); lia).
    destruct (0 <? strcmp (lv_batch_name v) (d_name e)) eqn:Hcmp.
    + destruct Hsel as (Hnm & Hu & Hg). rewrite Hfit in Hnm. split.
      * exists e. rewrite in_app_iff. simpl. unfold run_of. rewrite Hst, Hnm, Hu, Hg. auto.
      * intros e' Hin Hd'. rewrite Hnm. apply in_app_iff in Hin as [Hin | [<- | []]].
        -- destruct (List.filter (due_batch now) seen) eqn:Hf.
           ++ exfalso. eapply filter_nil_none; eauto.
           ++ destruct Hsome as [_ Hmin]; [discriminate|].
              apply strcmp_neg_le_trans with (lv_batch_name v); [|auto].
              apply strcmp_pos_swap. apply Z.ltb_lt. exact Hcmp.
        -- rewrite strcmp_refl. lia.
    + destruct Hsel as (Hnm & Hu & Hg).
      assert (Hne : List.filter (due_batch now) seen <> []).
      { intros Hnil. rewrite (Hnone Hnil), Hname in Hcmp.
        pose proof (sentinel_above_batch q s Hb) as Hlt.
        apply Z.ltb_ge in Hcmp. lia. }
      destruct (Hsome Hne) as [(e0 & Hin0 & Hd0 & Hrun0) Hmin]. split.
      * exists e0. rewrite in_app_iff, Hnm, Hu, Hg. auto.
      * intros e' Hin Hd'. rewrite Hnm. apply in_app_iff in Hin as [Hin | [<- | []]]; [auto|].
        apply Z.ltb_ge in Hcmp. exact Hcmp.
  - destruct (scan_entry_no_candidate now v e Hd) as (Hrb & Hnm & Hu & Hg).
    set (v' := (scan_entry now v (d_name e) (d_stat e)).1) in *.
    rewrite app_nil_r, Hrb, Hnm, Hu, Hg.
    split; [exact Hn|]. split; [exact Hnone|].
    intros Hne. destruct (Hsome Hne) as [(e0 & Hin0 & Hd0 & Hrun0) Hmin]. split.
    + exists e0. rewrite in_app_iff. auto.
    + intros e' Hin Hd'. apply in_app_iff in Hin as [Hin | [<- | []]]; [auto|congruence].
Qed.

Lemma scan_dir_batch_choice (now : Z) (es seen : list dirent_in) (v v' : loop_vars)
    (tr : list action) :
  (forall e, In e es -> due_batch now e = true -> (String.length (d_name e) <= 14)%nat) ->
  batch_choice now seen v ->
  scan_dir now v es = (Some v', tr) ->
  batch_choice now (seen ++ es) v'.
Proof.
  revert seen v tr. induction es as [|e es IH]; intros seen v tr Hlen Hinv.
  - simpl. intros H. injection H as <- _. rewrite app_nil_r. exact Hinv.
  - intros Hscan.
    pose proof (batch_choice_step now seen v e (Hlen e (or_introl eq_refl))
                  (candidate_terminated _ _ _ _ _ _ Hscan) Hinv) as Hstep.
    destruct (scan_dir_cons_inv _ _ _ _ _ _ Hscan) as (tr1 & _ & Hs & _).
    replace (seen ++ e :: es) with ((seen ++ [e]) ++ es) by (rewrite <- app_assoc; reflexivity).
    eapply IH; eauto. intros e' Hin. apply Hlen. right. exact Hin.
Qed.

(** The number of batch candidates the loop counted. *)
Lemma scan_dir_run_batch (now : Z) (es : list dirent_in) (v v' : loop_vars) (tr : list action) :
  scan_dir now v es = (Some v', tr) ->
  lv_run_batch v' = lv_run_batch v + Z.of_nat (length (List.filter (due_batch now) es)).
Proof.
  revert v tr. induction es as [|e es IH]; intros v tr; simpl.
  - intros H. injection H as <- _. lia.
  - destruct (due_batch now e) eqn:Hd.
    + destruct (due_batch_inv _ _ Hd) as (q & rt & buf & s & _ & Hst & _).
      destruct (scan_entry_candidate now v e buf Hd Hst) as [Hrb _].
      destruct (scan_entry now v (d_name e) (d_stat e)) as [v1 acts]. simpl in Hrb.
      destruct (fatal acts (d_run e)); [discriminate|].
      destruct (scan_dir now v1 es) as [r tr1] eqn:Hs.
      intros H. injection H as -> _. rewrite (IH _ _ Hs), Hrb. simpl length. lia.
    + destruct (scan_entry_no_candidate now v e Hd) as (Hrb & _).
      destruct (scan_entry now v (d_name e) (d_stat e)) as [v1 acts]. simpl in Hrb.
      destruct (fatal acts (d_run e)); [discriminate|].
      destruct (scan_dir now v1 es) as [r tr1] eqn:Hs.
      intros H. injection H as -> _. rewrite (IH _ _ Hs), Hrb. lia.
Qed.

(** ** The batch gate *)

Lemma wake_hint_trace (mtime nb : Z) (v : loop_vars) (tr : list action) :
  trace_of (wake_hint mtime nb v tr) = tr.
Proof. unfold wake_hint. destruct (_ && _); reflexivity. Qed.

Lemma wake_hint_next_batch (mtime nb : Z) (v : loop_vars) (tr tr' : list action)
    (s' : sched) (nj : Z) :
  wake_hint mtime nb v tr = Returned s' nj tr' -> next_batch s' = nb.
Proof. unfold wake_hint. destruct (_ && _); intros H; injection H as <- _ _; reflexivity. Qed.

Lemma batch_admission_trace (cfg : config) (now mtime nb : Z) (v : loop_vars)
    (la : Z * float) (pe : parent_env) (tr : list action) :
  trace_of (batch_admission cfg now mtime nb v la pe tr) =
  tr ++ batch_actions cfg now nb v la.
Proof.
  unfold batch_admission, batch_actions.
  destruct (negb (lv_run_batch v =? 0) && (nb <=? now)).
  - destruct (PrimFloat.ltb (sampled_load la) (load_avg cfg)).
    + destruct (unterminated (lv_batch_name v)
                || ends_daemon (run_file_parent pe (lv_batch_name v)));
        simpl; rewrite ?wake_hint_trace; reflexivity.
    + apply wake_hint_trace.
  - rewrite wake_hint_trace, app_nil_r. reflexivity.
Qed.

Lemma batch_admission_next_batch (cfg : config) (now mtime nb : Z) (v : loop_vars)
    (la : Z * float) (pe : parent_env) (tr tr' : list action) (s' : sched) (nj : Z) :
  batch_admission cfg now mtime nb v la pe tr = Returned s' nj tr' ->
  next_batch s' =
    if negb (lv_run_batch v =? 0) && (nb <=? now) then now + batch_interval cfg else nb.
Proof.
  unfold batch_admission.
  destruct (negb (lv_run_batch v =? 0) && (nb <=? now)).
  - destruct (PrimFloat.ltb (sampled_load la) (load_avg cfg)).
    + destruct (unterminated (lv_batch_name v)
                || ends_daemon (run_file_parent pe (lv_batch_name v)));
        try discriminate; apply wake_hint_next_batch.
    + apply wake_hint_next_batch.
  - apply wake_hint_next_batch.
Qed.

(** run_loop() by cases: what it returns and the trace it leaves. *)
Lemma run_loop_trace (cfg : config) (s : sched) (c : cycle_in) :
  trace_of (run_loop cfg s c) =
    if scans s c then
      match scan_dir (c_now c) (initial_vars (c_now c)) (c_entries c) with
      | (None, tr) => tr
      | (Some v, tr) =>
          tr ++ batch_actions cfg (c_now c) (armed_next_batch s (c_now c)) v (c_loadavg c)
      end
    else [].
Proof.
  unfold run_loop, scans. destruct (c_dirstat c) as [buf|]; [|reflexivity].
  destruct (nothing_to_do s && (st_mtime buf <=? last_chg s)); simpl; [reflexivity|].
  destruct (c_opendir_ok c); simpl; [|reflexivity].
  destruct (scan_dir (c_now c) (initial_vars (c_now c)) (c_entries c)) as [[v|] tr];
    [apply batch_admission_trace|reflexivity].
Qed.

(** ** Comparison of doubles *)

Lemma SFcompare_swap (x y : SpecFloat.spec_float) :
  SpecFloat.SFcompare y x = option_map CompOpp (SpecFloat.SFcompare x y).
Proof.
  destruct x as [sx|sx| |sx mx ex], y as [sy|sy| |sy my ey]; simpl;
    try reflexivity; try (destruct sx; reflexivity); try (destruct sy; reflexivity);
    try (destruct sx, sy; reflexivity).
  assert (Hm : Pos.compare_cont Eq my mx = CompOpp (Pos.compare_cont Eq mx my))
    by (symmetry; apply (Pos.compare_cont_antisym mx my Eq)).
  destruct sx, sy; simpl; try reflexivity;
    rewrite (Z.compare_antisym ex ey); destruct (ex ?= ey)%Z; simpl; try reflexivity;
    rewrite Hm; destruct (Pos.compare_cont Eq mx my); reflexivity.
Qed.

(** [b <= a] excludes [a < b], whatever the two doubles are. *)
Lemma float_leb_not_ltb (a b : float) :
  PrimFloat.leb b a = true -> PrimFloat.ltb a b = false.
Proof.
  rewrite ltb_spec, leb_spec. unfold SpecFloat.SFltb, SpecFloat.SFleb.
  rewrite (SFcompare_swap (Prim2SF b) (Prim2SF a)).
  destruct (SpecFloat.SFcompare (Prim2SF b) (Prim2SF a)) as [[]|]; simpl; congruence.
Qed.

(** ** run_loop() as a whole *)

Lemma run_loop_returned (cfg : config) (s s' : sched) (c : cycle_in) (nj : Z)
    (tr : list action) :
  scans s c = true -> run_loop cfg s c = Returned s' nj tr ->
  exists v tr0 buf,
    c_dirstat c = Some buf
    /\ scan_dir (c_now c) (initial_vars (c_now c)) (c_entries c) = (Some v, tr0)
    /\ batch_admission cfg (c_now c) (st_mtime buf) (armed_next_batch s (c_now c)) v
         (c_loadavg c) (c_batch_run c) tr0 = Returned s' nj tr.
Proof.
  unfold scans, run_loop. destruct (c_dirstat c) as [buf|]; [|discriminate].
  destruct (nothing_to_do s && (st_mtime buf <=? last_chg s)); simpl; [discriminate|].
  destruct (c_opendir_ok c); simpl; [|discriminate]. intros _.
  destruct (scan_dir (c_now c) (initial_vars (c_now c)) (c_entries c)) as [[v|] tr0];
    [|discriminate].
  intros H. exists v, tr0, buf. auto.
Qed.

Lemma run_loop_skipped (cfg : config) (s s' : sched) (c : cycle_in) (nj : Z)
    (tr : list action) :
  scans s c = false -> run_loop cfg s c = Returned s' nj tr ->
  next_batch s' = armed_next_batch s (c_now c) /\ tr = [].
Proof.
  unfold scans, run_loop. destruct (c_dirstat c) as [buf|]; [|discriminate].
  destruct (nothing_to_do s && (st_mtime buf <=? last_chg s)); simpl.
  - intros _ H. injection H as <- _ <-. auto.
  - destruct (c_opendir_ok c); simpl; discriminate.
Qed.

Lemma batch_actions_zero (cfg : config) (now nb : Z) (v : loop_vars) (la : Z * float) :
  lv_run_batch v = 0 -> batch_actions cfg now nb v la = [].
Proof. unfold batch_actions. intros ->. reflexivity. Qed.

(** The trace after the loop: nothing, a sample of the load, or a sample
    and the batch job. *)
Lemma batch_actions_cases (cfg : config) (now nb : Z) (v : loop_vars) (la : Z * float) :
  (batch_actions cfg now nb v la = []
   /\ (lv_run_batch v = 0 \/ now < nb))
  \/ (batch_actions cfg now nb v la = [ActGetloadavg]
      /\ lv_run_batch v <> 0 /\ nb <= now
      /\ PrimFloat.ltb (sampled_load la) (load_avg cfg) = false)
  \/ (batch_actions cfg now nb v la =
        [ActGetloadavg; ActRunFile (lv_batch_name v) (lv_batch_uid v) (lv_batch_gid v)]
      /\ lv_run_batch v <> 0 /\ nb <= now
      /\ PrimFloat.ltb (sampled_load la) (load_avg cfg) = true).
Proof.
  unfold batch_actions.
  destruct (lv_run_batch v =? 0) eqn:Hz; simpl.
  - left. apply Z.eqb_eq in Hz. auto.
  - apply Z.eqb_neq in Hz. destruct (nb <=? now) eqn:Hn.
    + apply Z.leb_le in Hn.
      destruct (PrimFloat.ltb (sampled_load la) (load_avg cfg)); auto 10.
    + apply Z.leb_gt in Hn. auto.
Qed.

(** While there are candidates, [batch_name] starts with a batch letter,
    however long the names in the directory are. *)
Lemma scan_dir_batch_queue (now : Z) (es : list dirent_in) (v v' : loop_vars)
    (tr : list action) :
  0 <= lv_run_batch v ->
  (lv_run_batch v = 0 -> lv_batch_name v = "z2345678901234") ->
  (lv_run_batch v <> 0 -> isbatch (queue_of (lv_batch_name v)) = true) ->
  scan_dir now v es = (Some v', tr) ->
  0 <= lv_run_batch v'
  /\ (lv_run_batch v' <> 0 -> isbatch (queue_of (lv_batch_name v')) = true).
Proof.
  revert v tr. induction es as [|e es IH]; intros v tr H0 Hz Hnz.
  - simpl. intros H. injection H as <- _. auto.
  - intros Hscan.
    destruct (scan_dir_cons_inv _ _ _ _ _ _ Hscan) as (tr1 & _ & Hs & _).
    destruct (due_batch now e) eqn:Hd.
    + destruct (due_batch_inv _ _ Hd) as (q & rt & buf & s & _ & Hst & Hname & Hb & _).
      destruct (scan_entry_candidate now v e buf Hd Hst) as [Hrb Hsel].
      rewrite (candidate_terminated _ _ _ _ _ _ Hscan Hd) in Hsel.
      apply (IH (scan_entry now v (d_name e) (d_stat e)).1 tr1);
        [lia | intros Hzero; lia | intros _ | exact Hs].
      destruct (0 <? strcmp (lv_batch_name v) (d_name e)) eqn:Hcmp.
      * destruct Hsel as [-> _]. rewrite Hname. exact Hb.
      * destruct Hsel as [-> _]. apply Hnz. intros Hzero.
        rewrite (Hz Hzero), Hname in Hcmp.
        pose proof (sentinel_above_batch q s Hb). apply Z.ltb_ge in Hcmp. lia.
    + destruct (scan_entry_no_candidate now v e Hd) as (Hrb & Hnm & _).
      apply (IH (scan_entry now v (d_name e) (d_stat e)).1 tr1); rewrite ?Hrb, ?Hnm; auto.
Qed.

Lemma existsb_app_quiet (tr extra : list action) (f : action -> bool) :
  existsb f tr = false -> existsb f (tr ++ extra) = existsb f extra.
Proof. intros H. rewrite existsb_app, H. reflexivity. Qed.

(** What an attempt and an admission mean for one call of run_loop(). *)
Lemma run_loop_gate (cfg : config) (s : sched) (c : cycle_in) :
  (attempted (run_loop cfg s c) = true ->
     armed_next_batch s (c_now c) <= c_now c
     /\ forall s' nj tr, run_loop cfg s c = Returned s' nj tr ->
                         next_batch s' = c_now c + batch_interval cfg)
  /\ (attempted (run_loop cfg s c) = false ->
      forall s' nj tr, run_loop cfg s c = Returned s' nj tr ->
                       next_batch s' = armed_next_batch s (c_now c))
  /\ (admitted (run_loop cfg s c) = true ->
      attempted (run_loop cfg s c) = true
      /\ PrimFloat.ltb (sampled_load (c_loadavg c)) (load_avg cfg) = true)
  /\ (length (batch_runs (trace_of (run_loop cfg s c))) <= 1)%nat.
Proof.
  unfold attempted, admitted. rewrite run_loop_trace.
  destruct (scans s c) eqn:Hsc.
  - pose proof (scan_dir_quiet (c_now c) (c_entries c) (initial_vars (c_now c))) as Hq.
    destruct (scan_dir (c_now c) (initial_vars (c_now c)) (c_entries c)) as [[v|] tr0] eqn:Hs;
      simpl in Hq; destruct (quiet_no_batch_runs _ Hq) as (Hb & Hg & Ha).
    + unfold batch_runs in *. rewrite List.filter_app, Hb, length_app.
      rewrite !existsb_app, Hg, Ha. simpl.
      assert (Hnb : forall s' nj tr, run_loop cfg s c = Returned s' nj tr ->
                next_batch s' =
                  if negb (lv_run_batch v =? 0) && (armed_next_batch s (c_now c) <=? c_now c)
                  then c_now c + batch_interval cfg else armed_next_batch s (c_now c)).
      { intros s' nj tr Hr.
        destruct (run_loop_returned _ _ _ _ _ _ Hsc Hr) as (v1 & tr1 & buf & _ & Hs1 & Hba).
        rewrite Hs in Hs1. injection Hs1 as <- <-.
        eapply batch_admission_next_batch; eauto. }
      destruct (batch_actions_cases cfg (c_now c) (armed_next_batch s (c_now c)) v (c_loadavg c))
        as [[-> Hc] | [(-> & Hc1 & Hc2 & Hc3) | (-> & Hc1 & Hc2 & Hc3)]]; simpl.
      * repeat split; try discriminate; try lia.
        intros _ s' nj tr Hr. rewrite (Hnb _ _ _ Hr).
        destruct Hc as [-> | Hc]; [reflexivity|].
        replace (armed_next_batch s (c_now c) <=? c_now c) with false
          by (symmetry; apply Z.leb_gt; exact Hc).
        rewrite andb_false_r. reflexivity.
      * repeat split; try discriminate; try lia.
        intros s' nj tr Hr. rewrite (Hnb _ _ _ Hr).
        apply Z.eqb_neq in Hc1. apply Z.leb_le in Hc2. rewrite Hc1, Hc2. reflexivity.
      * destruct (isbatch (queue_of (lv_batch_name v))); simpl;
          (repeat split; try discriminate; try lia; auto);
          intros s' nj tr Hr; rewrite (Hnb _ _ _ Hr);
          apply Z.eqb_neq in Hc1; apply Z.leb_le in Hc2; rewrite Hc1, Hc2; reflexivity.
    + rewrite Hb, Hg, Ha. simpl. repeat split; try discriminate; try lia.
      intros _ s' nj tr Hr.
      destruct (run_loop_returned _ _ _ _ _ _ Hsc Hr) as (v1 & tr1 & buf & _ & Hs1 & _).
      congruence.
  - simpl. repeat split; try discriminate; try lia.
    intros _ s' nj tr Hr. apply (run_loop_skipped _ _ _ _ _ _ Hsc Hr).
Qed.

(** ** Stale locks *)



(** ** The batch candidate *)

(** C7: when run_loop() hands a batch job to run_file(), it is a due batch
    entry of the directory, with the owner stat() gave for it, and its name
    is not above (strcmp) the name of any due batch entry of the scan.
    Names are those of jobs: at most 14 bytes, the size [batch_name]
    holds. *)
Theorem batch_candidate_smallest (cfg : config) (s : sched) (c : cycle_in)
    (name : string) (uid gid : Z) :
  (forall e, In e (c_entries c) -> due_batch (c_now c) e = true ->
             (String.length (d_name e) <= 14)%nat) ->
  In (ActRunFile name uid gid) (trace_of (run_loop cfg s c)) ->
  isbatch (queue_of name) = true ->
  (exists e, In e (c_entries c) /\ due_batch (c_now c) e = true
             /\ run_of e = ActRunFile name uid gid)
  /\ (forall e', In e' (c_entries c) -> due_batch (c_now c) e' = true ->
                 strcmp name (d_name e') <= 0).
Proof.
  intros Hlen Hin Hb. rewrite run_loop_trace in Hin.
  destruct (scans s c); [|destruct Hin].
  pose proof (scan_dir_quiet (c_now c) (c_entries c) (initial_vars (c_now c))) as Hq.
  destruct (scan_dir (c_now c) (initial_vars (c_now c)) (c_entries c)) as [[v|] tr0] eqn:Hs;
    simpl in Hq.
  - apply in_app_or in Hin as [Hin | Hin].
    + rewrite List.Forall_forall in Hq. destruct (Hq _ Hin) as [_ Hnb]. simpl in Hnb. congruence.
    + pose proof (scan_dir_batch_choice _ _ [] _ _ _ Hlen (batch_choice_start _) Hs)
        as (Hcount & _ & Hsome).
      simpl in Hcount, Hsome.
      destruct (batch_actions_cases cfg (c_now c) (armed_next_batch s (c_now c)) v (c_loadavg c))
        as [[Hnil _] | [(Hone & _) | (Htwo & Hnz & _)]].
      * rewrite Hnil in Hin. destruct Hin.
      * rewrite Hone in Hin. destruct Hin as [Hin | []]. discriminate.
      * rewrite Htwo in Hin. destruct Hin as [Hin | [Hin | []]]; [discriminate|].
        injection Hin as <- <- <-.
        apply Hsome. intros Hnil. rewrite Hnil in Hcount. simpl in Hcount. lia.
  - rewrite List.Forall_forall in Hq. destruct (Hq _ Hin) as [_ Hnb]. simpl in Hnb. congruence.
Qed.

Lemma batch_candidate_smallest_witness :
  strcmp "B0000100000001" "B0000200000001" <= 0.
Proof.
  destruct (batch_candidate_smallest Sample.cfg initial_sched (Sample.cycle 7200 1 0.25)
              "B0000100000001" 1001 1001) as [_ Hmin].
  - intros e [<- | [<- | [<- | [<- | []]]]] _; simpl; lia.
  - vm_compute. right. right. right. left. reflexivity.
  - reflexivity.
  - apply (Hmin Sample.batch2).
    + simpl. right. left. reflexivity.
    + reflexivity.
Defined.

(** ** The batch gate and the load *)

Lemma existsb_false_filter (f : action -> bool) (tr : list action) :
  existsb f tr = false -> List.filter f tr = [].
Proof.
  induction tr as [|a tr IH]; simpl; [reflexivity|].
  intros H. apply orb_false_iff in H as [Ha Htr]. rewrite Ha. auto.
Qed.

(** With a due batch entry in a directory that is read to its end, and the
    interval elapsed, the gate samples the load; the job runs when the
    sample is below the ceiling. *)
Lemma gate_open (cfg : config) (s : sched) (c : cycle_in) (e : dirent_in) :
  scans s c = true -> survives (c_entries c) ->
  In e (c_entries c) -> due_batch (c_now c) e = true ->
  armed_next_batch s (c_now c) <= c_now c ->
  exists v tr0,
    isbatch (queue_of (lv_batch_name v)) = true
    /\ trace_of (run_loop cfg s c) =
       tr0 ++ ActGetloadavg ::
         (if PrimFloat.ltb (sampled_load (c_loadavg c)) (load_avg cfg)
          then [ActRunFile (lv_batch_name v) (lv_batch_uid v) (lv_batch_gid v)]
          else []).
Proof.
  intros Hsc Hsv Hin Hd Hnb.
  destruct (scan_dir_survives (c_now c) (c_entries c) (initial_vars (c_now c)) eq_refl Hsv)
    as (v & tr0 & Hs & _).
  pose proof (scan_dir_run_batch _ _ _ _ _ Hs) as Hcount. simpl in Hcount.
  assert (Hpos : 0 < lv_run_batch v).
  { assert (Hf : In e (List.filter (due_batch (c_now c)) (c_entries c)))
      by (apply List.filter_In; auto).
    destruct (List.filter (due_batch (c_now c)) (c_entries c)); [destruct Hf|].
    simpl length in Hcount. lia. }
  destruct (scan_dir_batch_queue (c_now c) (c_entries c) (initial_vars (c_now c)) v tr0)
    as [_ Hq]; simpl; auto; try lia; try congruence.
  exists v, tr0. split; [apply Hq; lia|].
  rewrite run_loop_trace, Hsc, Hs. unfold batch_actions.
  replace (lv_run_batch v =? 0) with false by (symmetry; apply Z.eqb_neq; lia).
  replace (armed_next_batch s (c_now c) <=? c_now c) with true
    by (symmetry; apply Z.leb_le; exact Hnb).
  reflexivity.
Qed.

(** C5: when getloadavg() delivers a sample and the sample is at or above
    the ceiling [load_avg], run_loop() runs no batch job; with a due batch
    candidate and the interval elapsed the load is sampled all the same. *)
Theorem batch_refused_under_load (cfg : config) (s : sched) (c : cycle_in) :
  1 <= (c_loadavg c).1 ->
  PrimFloat.leb (load_avg cfg) (c_loadavg c).2 = true ->
  admitted (run_loop cfg s c) = false
  /\ batch_runs (trace_of (run_loop cfg s c)) = []
  /\ (forall e, scans s c = true -> survives (c_entries c) ->
                In e (c_entries c) -> due_batch (c_now c) e = true ->
                armed_next_batch s (c_now c) <= c_now c ->
                attempted (run_loop cfg s c) = true).
Proof.
  intros Hret Hle.
  assert (Hno : PrimFloat.ltb (sampled_load (c_loadavg c)) (load_avg cfg) = false).
  { unfold sampled_load.
    replace ((c_loadavg c).1 <? 1) with false by (symmetry; apply Z.ltb_ge; exact Hret).
    apply float_leb_not_ltb. exact Hle. }
  assert (Hadm : admitted (run_loop cfg s c) = false).
  { destruct (admitted (run_loop cfg s c)) eqn:Ha; [|reflexivity].
    destruct (run_loop_gate cfg s c) as (_ & _ & Hg & _).
    destruct (Hg Ha) as [_ Hlt]. congruence. }
  split; [exact Hadm|]. split; [apply existsb_false_filter; exact Hadm|].
  intros e Hsc Hsv Hin Hd Hnb.
  destruct (gate_open cfg s c e Hsc Hsv Hin Hd Hnb) as (v & tr0 & _ & Htr).
  unfold attempted. rewrite Htr, existsb_app. simpl. apply orb_true_r.
Qed.

Lemma batch_refused_under_load_witness :
  admitted (run_loop Sample.cfg initial_sched (Sample.cycle 7200 1 2)) = false
  /\ attempted (run_loop Sample.cfg initial_sched (Sample.cycle 7200 1 2)) = true.
Proof.
  destruct (batch_refused_under_load Sample.cfg initial_sched (Sample.cycle 7200 1 2))
    as (Ha & _ & Hatt).
  - apply Z.leb_le. reflexivity.
  - reflexivity.
  - split; [exact Ha|]. apply (Hatt Sample.batch1).
    + reflexivity.
    + repeat constructor.
    + simpl. auto.
    + reflexivity.
    + apply Z.leb_le. reflexivity.
Defined.



(** Every ceiling the [-l] option can set from a number is positive when
    the default LOADAVG_MX is. *)
Lemma option_l_positive (LOADAVG_MX parsed : float) :
  PrimFloat.ltb 0 LOADAVG_MX = true ->
  PrimFloat.leb parsed 0 = true \/ PrimFloat.ltb 0 parsed = true ->
  PrimFloat.ltb 0 (option_l LOADAVG_MX parsed) = true.
Proof.
  intros Hmx [Hle | Hlt]; unfold option_l.
  - rewrite Hle. exact Hmx.
  - destruct (PrimFloat.leb parsed 0) eqn:Hle; [|exact Hlt].
    rewrite (float_leb_not_ltb _ _ Hle) in Hlt. discriminate.
Qed.

(** ** Batch admissions over the cycles of the daemon *)

Lemma sdummy_next_batch (s : sched) (b : bool) :
  next_batch (if b then sdummy s else s) = next_batch s.
Proof. destruct b; reflexivity. Qed.

Lemma armed_positive (s : sched) (now : Z) :
  0 < next_batch s -> armed_next_batch s now = next_batch s.
Proof.
  intros H. unfold armed_next_batch.
  replace (next_batch s =? 0) with false by (symmetry; apply Z.eqb_neq; lia).
  reflexivity.
Qed.

(** [next_batch] never moves back once it is set. *)
Lemma run_loop_next_batch_mono (cfg : config) (s s' : sched) (c : cycle_in) (nj : Z)
    (tr : list action) (L : Z) :
  0 <= batch_interval cfg -> 0 < L <= next_batch s ->
  run_loop cfg s c = Returned s' nj tr -> 0 < L <= next_batch s'.
Proof.
  intros Hbi HL Hr.
  destruct (run_loop_gate cfg s c) as (Hatt & Hnot & _).
  rewrite (armed_positive s (c_now c)) in Hatt, Hnot by lia.
  destruct (attempted (run_loop cfg s c)).
  - destruct (Hatt eq_refl) as [Hle Hnb]. rewrite (Hnb _ _ _ Hr). lia.
  - rewrite (Hnot eq_refl _ _ _ Hr). lia.
Qed.

(** After [next_batch] has passed [L], no cycle admits a batch job before
    [L]. *)
Lemma cycles_admit_after (cfg : config) (ws : list wakeup) (s : sched) (L : Z)
    (j : nat) (tj : Z) (rj : loop_result) :
  0 <= batch_interval cfg -> 0 < L <= next_batch s ->
  daemon_cycles cfg s ws !! j = Some (tj, rj) ->
  admitted rj = true -> L <= tj.
Proof.
  intros Hbi. revert s j. induction ws as [|w ws IH]; intros s j HL; simpl; [discriminate|].
  set (s1 := if w_sighup w then sdummy s else s).
  assert (HL1 : 0 < L <= next_batch s1) by (unfold s1; rewrite sdummy_next_batch; exact HL).
  destruct j as [|j]; simpl.
  - intros H Ha. injection H as <- <-.
    destruct (run_loop_gate cfg s1 (w_cycle w)) as (Hatt & _ & Hadm & _).
    destruct (Hadm Ha) as [Hat _]. destruct (Hatt Hat) as [Hle _].
    rewrite armed_positive in Hle by lia. lia.
  - destruct (run_loop cfg s1 (w_cycle w)) as [s' nj tr|tr] eqn:Hr; [|discriminate].
    apply IH. eapply run_loop_next_batch_mono; eauto.
Qed.

(** C4: over the cycles of the daemon, (1) a cycle runs at most one batch
    job; (2) a cycle that runs one comes no sooner than [batch_interval]
    after any earlier cycle that sampled the load for an admission; (3) a
    cycle that sampled the load leaves [next_batch] at its [now] plus
    [batch_interval], whether or not the batch job was run. *)
Theorem batch_admission_spacing (cfg : config) (s : sched) (ws : list wakeup) :
  0 <= batch_interval cfg ->
  Forall (fun w => 0 < c_now (w_cycle w)) ws ->
  (forall t r, In (t, r) (daemon_cycles cfg s ws) ->
     (length (batch_runs (trace_of r)) <= 1)%nat)
  /\ (forall (i j : nat) ti ri tj rj,
        (i < j)%nat ->
        daemon_cycles cfg s ws !! i = Some (ti, ri) ->
        daemon_cycles cfg s ws !! j = Some (tj, rj) ->
        attempted ri = true -> admitted rj = true ->
        ti + batch_interval cfg <= tj)
  /\ (forall t r s' nj tr,
        In (t, r) (daemon_cycles cfg s ws) ->
        attempted r = true -> r = Returned s' nj tr ->
        next_batch s' = t + batch_interval cfg).
Proof.
  intros Hbi Hpos. revert s. induction Hpos as [|w ws Hw _ IH]; intros s.
  - simpl. repeat split; intros; try tauto; discriminate.
  - simpl. set (s1 := if w_sighup w then sdummy s else s).
    destruct (run_loop_gate cfg s1 (w_cycle w)) as (Hatt & _ & _ & Hone).
    destruct (run_loop cfg s1 (w_cycle w)) as [s' nj0 tr0|tr0] eqn:Hr.
    + specialize (IH s'). destruct IH as (IH1 & IH2 & IH3).
      split; [|split].
      * intros t r [H | H]; [injection H as <- <-; exact Hone | eauto].
      * intros [|i] [|j] ti ri tj rj Hij; try lia; simpl.
        -- intros Hi Hj Ha Hb. injection Hi as <- <-.
           destruct (Hatt Ha) as [_ Hnb].
           apply (cycles_admit_after cfg ws s' _ j tj rj Hbi); auto.
           rewrite (Hnb _ _ _ eq_refl). lia.
        -- apply IH2. lia.
      * intros t r s0 nj tr [H | H]; [|eauto].
        injection H as <- <-. intros Ha Heq. destruct (Hatt Ha) as [_ Hnb].
        injection Heq as <- _ _. eauto.
    + split; [|split].
      * intros t r [H | []]. injection H as <- <-. exact Hone.
      * intros [|i] [|j] ti ri tj rj Hij; try lia; simpl; intros; discriminate.
      * intros t r s0 nj tr [H | []]. injection H as <- <-. discriminate.
Qed.

Lemma batch_admission_spacing_witness :
  7200 + 60 <= 7260.
Proof.
  destruct (batch_admission_spacing Sample.cfg initial_sched
              [mk_wakeup false (Sample.cycle 7200 1 2);
               mk_wakeup true (Sample.cycle 7260 1 0.25)]) as (_ & Hgap & _).
  - apply Z.leb_le. reflexivity.
  - repeat constructor.
  - refine (Hgap 0%nat 1%nat 7200 _ 7260 _ _ _ _ _ _);
      [lia | reflexivity | reflexivity | reflexivity | reflexivity].
Defined.

(** ** The mail decision *)

(** Line 495 in words: policy 1, or a policy other than -1 and a size that
    is no longer the size after the header. *)
Lemma mail_decision_iff (send_mail final size : Z) :
  mail_decision send_mail final size = true <->
    send_mail = 1 \/ (send_mail <> -1 /\ final <> size).
Proof.
  unfold mail_decision. split.
  - intros H. apply orb_true_iff in H as [H | H].
    + apply andb_true_iff in H as [H1 H2].
      apply negb_true_iff in H1, H2. apply Z.eqb_neq in H1, H2. auto.
    + apply Z.eqb_eq in H. auto.
  - intros [-> | [H1 H2]].
    + destruct (final =? size); reflexivity.
    + apply Z.eqb_neq in H1, H2. rewrite H1, H2. reflexivity.
Qed.

(** ** Validation *)

Lemma validate_accepts (uid : Z) (buf lbuf : stat) (fcntl_ok : bool)
    (hdr : option header) (h : header) :
  validate uid buf lbuf fcntl_ok hdr = inr h <->
    S_ISLNK (st_mode lbuf) = false
    /\ st_dev lbuf = st_dev buf /\ st_ino lbuf = st_ino buf
    /\ st_uid lbuf = st_uid buf /\ st_gid lbuf = st_gid buf
    /\ st_size lbuf = st_size buf
    /\ st_nlink buf <= 2
    /\ fcntl_ok = true
    /\ hdr = Some h
    /\ starts_with_dash (h_mailname h) = false
    /\ to_uid_t (h_nuid h) = uid.
Proof.
  unfold validate. split.
  - destruct (S_ISLNK (st_mode lbuf)); [discriminate|].
    destruct (st_dev lbuf =? st_dev buf) eqn:H1; simpl; [|discriminate].
    destruct (st_ino lbuf =? st_ino buf) eqn:H2; simpl; [|discriminate].
    destruct (st_uid lbuf =? st_uid buf) eqn:H3; simpl; [|discriminate].
    destruct (st_gid lbuf =? st_gid buf) eqn:H4; simpl; [|discriminate].
    destruct (st_size lbuf =? st_size buf) eqn:H5; simpl; [|discriminate].
    destruct (2 <? st_nlink buf) eqn:H6; [discriminate|].
    destruct fcntl_ok; simpl; [|discriminate].
    destruct hdr as [h'|]; [|discriminate].
    destruct (starts_with_dash (h_mailname h')) eqn:H7; [discriminate|].
    destruct (to_uid_t (h_nuid h') =? uid) eqn:H8; simpl; [|discriminate].
    intros H. injection H as <-.
    apply Z.eqb_eq in H1, H2, H3, H4, H5, H8. apply Z.ltb_ge in H6. auto 12.
  - intros (-> & -> & -> & -> & -> & -> & H6 & -> & -> & -> & <-).
    rewrite !Z.eqb_refl. simpl.
    replace (2 <? st_nlink buf) with false by (symmetry; apply Z.ltb_ge; exact H6).
    reflexivity.
Qed.

Lemma validate_abort_before_commit (uid : Z) (buf lbuf : stat) (fcntl_ok : bool)
    (hdr : option header) (a : abort) :
  validate uid buf lbuf fcntl_ok hdr = inl a -> before_commit a = true.
Proof.
  unfold validate. split_ifs; try (intros H; injection H as <-; reflexivity).
  destruct hdr; split_ifs; intros H; try discriminate; injection H as <-; reflexivity.
Qed.

(** ** The child of run_file() *)

Ltac unfold_child :=
  cbv [mbind child_bind mret child_ret unless perr emit with_fs update_fs
       from_option from_sum]; simpl.

(** Validation either stops the child, leaving the directory and the
    events as they were, or hands over the header of the file it opened. *)
Lemma open_and_validate_cases (ce : child_env) (filename : string) (uid : Z)
    (fs : jobdir) (evs : list event) :
  (exists a, before_commit a = true
             /\ open_and_validate ce filename uid (fs, evs) = (inl a, (fs, evs)))
  \/ (exists fd buf lbuf h,
        fs_open fs filename = Some fd
        /\ fs_fstat fs fd = Some buf
        /\ fs_lstat fs filename = Some lbuf
        /\ validate uid buf lbuf (ce_fcntl_ok ce) (fs_fscanf fs fd) = inr h
        /\ open_and_validate ce filename uid (fs, evs) = (inr h, (fs, evs))).
Proof.
  unfold open_and_validate. unfold_child.
  destruct (ce_getpwuid_ok ce); simpl; [|left; exists AbortNoUser; auto].
  destruct (fs_open fs filename) as [fd|] eqn:Hopen; simpl; [|left; exists AbortOpen; auto].
  destruct (ce_dup_ok ce); simpl; [|left; exists AbortDup; auto].
  destruct (fs_fstat fs fd) as [buf|] eqn:Hfstat; simpl; [|left; exists AbortFstat; auto].
  destruct (fs_lstat fs filename) as [lbuf|] eqn:Hlstat; simpl; [|left; exists AbortLstat; auto].
  destruct (validate uid buf lbuf (ce_fcntl_ok ce) (fs_fscanf fs fd))
    as [a|h] eqn:Hv; simpl.
  - left. exists a. split; [eapply validate_abort_before_commit; eauto|reflexivity].
  - right. exists fd, buf, lbuf, h. repeat split; auto.
Qed.

Lemma fs_unlink_gone (fs : jobdir) (n : string) : names (fs_unlink fs n) !! n = None.
Proof.
  unfold fs_unlink. destruct (names fs !! n) eqn:H; simpl; [|exact H].
  apply lookup_delete_eq.
Qed.

Lemma fs_unlink_stays_gone (fs : jobdir) (n m : string) :
  names fs !! n = None -> names (fs_unlink fs m) !! n = None.
Proof.
  intros H. unfold fs_unlink. destruct (names fs !! m); simpl; [|exact H].
  rewrite lookup_delete. case_decide; [reflexivity|exact H].
Qed.

Ltac finish_execute :=
  do 3 eexists; split; [reflexivity|];
  split; [assumption|];
  repeat split; intros; simpl in *; try discriminate;
  try (match goal with H : inl _ = inl _ |- _ => injection H as <-; reflexivity end);
  intuition congruence.

(** From the commit on: the first thing others can see is the unlink of
    the job file; the shell runs as the owner the scanner found with the
    group of the header; sendmail is started exactly when the child gets to
    its end with [mail_decision] true. *)
Lemma execute_cases (ce : child_env) (filename : string) (uid gid : Z) (h : header)
    (fs : jobdir) :
  exists res fs' rest,
    execute ce filename uid gid h (fs, []) = (res, (fs', EvUnlinkJob filename :: rest))
    /\ names fs' !! filename = None
    /\ (forall u g n, In (EvShell u g n) rest -> u = uid /\ g = h_ngid h)
    /\ (forall b, res = inr b ->
          b = mail_decision (h_send_mail h) (ce_final_size ce) (ce_size ce))
    /\ (forall r u g, In (EvSendmail r u g) rest -> res = inr true)
    /\ (res = inr true -> In (EvSendmail (h_mailname h) uid gid) rest)
    /\ (forall a, res = inl a -> before_commit a = false).
Proof.
  assert (Hgone : names (fs_unlink fs filename) !! filename = None) by apply fs_unlink_gone.
  assert (Hgone2 : names (fs_unlink (fs_unlink fs filename) (set_sigil filename)) !! filename = None)
    by (apply fs_unlink_stays_gone, Hgone).
  unfold execute. unfold_child.
  destruct (ce_chdir_ok ce); simpl; [|finish_execute].
  destruct (ce_open_out_ok ce); simpl; [|finish_execute].
  destruct (ce_pam_ok ce); simpl; [|finish_execute].
  destruct (ce_fork_ok ce); simpl; [|finish_execute].
  destruct (ce_stdin_ok ce); simpl; [|finish_execute].
  destruct (ce_devnull_ok ce); simpl; [|finish_execute].
  destruct (mail_decision (h_send_mail h) (ce_final_size ce) (ce_size ce)) eqn:Hm; simpl.
  - destruct (ce_initgroups_ok ce); simpl; [|finish_execute].
    destruct (ce_setgid_ok ce); simpl; [|finish_execute].
    destruct (ce_setuid_ok ce); simpl; [|finish_execute].
    destruct (ce_exec_mail_ok ce); simpl; [|finish_execute].
    finish_execute.
  - finish_execute.
Qed.

(** The child of run_file() by cases: stopped before the commit with
    nothing touched, or past validation with the job file unlinked first. *)
Lemma run_child_cases (ce : child_env) (fs : jobdir) (name : string) (uid gid : Z) :
  (exists a, before_commit a = true
             /\ run_child ce fs name uid gid = (inl a, (fs, [])))
  \/ (exists fd buf lbuf h res fs' rest,
        fs_open fs name = Some fd
        /\ fs_fstat fs fd = Some buf
        /\ fs_lstat fs name = Some lbuf
        /\ validate uid buf lbuf (ce_fcntl_ok ce) (fs_fscanf fs fd) = inr h
        /\ run_child ce fs name uid gid = (res, (fs', EvUnlinkJob name :: rest))
        /\ names fs' !! name = None
        /\ (forall u g n, In (EvShell u g n) rest -> u = uid /\ g = h_ngid h)
        /\ (forall a, res = inl a -> before_commit a = false)
        /\ (forall b, res = inr b ->
              b = mail_decision (h_send_mail h) (ce_final_size ce) (ce_size ce))
        /\ (forall r u g, In (EvSendmail r u g) rest -> res = inr true)
        /\ (res = inr true -> In (EvSendmail (h_mailname h) uid gid) rest)).
Proof.
  unfold run_child, run_file_child.
  destruct (open_and_validate_cases ce name uid fs [])
    as [(a & Ha & Hrun) | (fd & buf & lbuf & h & Hopen & Hfstat & Hlstat & Hv & Hrun)].
  - left. exists a. split; [exact Ha|].
    cbv [mbind child_bind]. rewrite Hrun. reflexivity.
  - right.
    destruct (execute_cases ce name uid gid h fs)
      as (res & fs' & rest & Hex & Hgone & Hshell & Hdec & Hsent & Hsend & Hab).
    exists fd, buf, lbuf, h, res, fs', rest.
    repeat split; eauto; try (apply (Hshell _ _ _ H)).
    cbv [mbind child_bind]. rewrite Hrun. exact Hex.
Qed.

(** ** A job stopped by the Validator, on the sample directory *)


(** ** What the Validator compares *)

(** C2, as amended: the Validator accepts exactly when lstat() of the path
    shows no symbolic link, lstat() of the path and fstat() of the opened
    descriptor agree on device, inode, uid, gid and size, the inode has at
    most two links, the header parses, its mail name does not start with a
    dash and its uid is the owner uid the scanner passed to run_file(); the
    shell of a job is started only for a file the Validator accepted, as
    that owner.  The device, inode and size the scanner's own stat() gave
    are not arguments of run_file() and take no part. *)
Theorem validator_compares_opened_file (ce : child_env) (fs : jobdir) (name : string)
    (uid gid : Z) :
  (forall buf lbuf fcntl_ok hdr h,
      validate uid buf lbuf fcntl_ok hdr = inr h <->
        S_ISLNK (st_mode lbuf) = false
        /\ st_dev lbuf = st_dev buf /\ st_ino lbuf = st_ino buf
        /\ st_uid lbuf = st_uid buf /\ st_gid lbuf = st_gid buf
        /\ st_size lbuf = st_size buf
        /\ st_nlink buf <= 2
        /\ fcntl_ok = true
        /\ hdr = Some h
        /\ starts_with_dash (h_mailname h) = false
        /\ to_uid_t (h_nuid h) = uid)
  /\ (forall u g n,
        In (EvShell u g n) (run_child ce fs name uid gid).2.2 ->
        exists fd buf lbuf h,
          fs_open fs name = Some fd
          /\ fs_fstat fs fd = Some buf
          /\ fs_lstat fs name = Some lbuf
          /\ validate uid buf lbuf (ce_fcntl_ok ce) (fs_fscanf fs fd) = inr h
          /\ u = uid /\ g = h_ngid h).
Proof.
  split; [intros; apply validate_accepts|].
  intros u g n.
  destruct (run_child_cases ce fs name uid gid)
    as [(a & _ & ->) | (fd & buf & lbuf & h & res & fs' & rest & Ho & Hf & Hl & Hv & -> & _ & Hsh & _)];
    simpl; [tauto|].
  intros [Hin | Hin]; [discriminate|].
  destruct (Hsh _ _ _ Hin) as [-> ->].
  exists fd, buf, lbuf, h. auto 10.
Qed.

Lemma validator_compares_opened_file_witness :
  exists h, fs_fscanf Sample.swapped 200 = Some h /\ to_uid_t (h_nuid h) = 1000.
Proof.
  destruct (validator_compares_opened_file Sample.env_ok Sample.swapped "a0000100000001"
              1000 1000) as [Hval Hrun].
  destruct (Hrun 1000 1000 2) as (fd & buf & lbuf & h & Ho & _ & _ & Hv & _).
  - vm_compute. right. right. left. reflexivity.
  - assert (Hfd : fd = 200) by (vm_compute in Ho; congruence).
    subst fd. apply Hval in Hv. destruct Hv as (_ & _ & _ & _ & _ & _ & _ & _ & Hh & _ & Hu).
    exists h. split; assumption.
Defined.

(** The scanner stats the job as inode 100 on device 2049, owner 1000,
    120 bytes, and run_file() is called with that owner.  By the time the
    child opens the name it is inode 200 on device 2050, owner 2000, 999
    bytes: the shell is started all the same. *)
Lemma changed_job_still_runs :
  fs_stat Sample.honest "a0000100000001" = Some (mk_stat 2049 100 33216 1 1000 1000 120 0)
  /\ (Sample.scan initial_sched 7200 Sample.honest).2 = [mk_child "a0000100000001" 1000 1000]
  /\ fs_lstat Sample.swapped "a0000100000001" = Some (mk_stat 2050 200 33216 1 2000 2000 999 0)
  /\ In (EvShell 1000 1000 2)
        (run_child Sample.env_ok Sample.swapped "a0000100000001" 1000 1000).2.2.
Proof.
  repeat split; try (vm_compute; reflexivity).
  vm_compute. right. right. left. reflexivity.
Qed.

(** ** Mail *)

(** C6, as amended: a child that gets to its end started sendmail exactly
    when [mail_decision] holds for the policy of the header it validated
    and the two sizes of the output file; that is when the policy is 1, or
    the policy is not -1 and the size after the wait differs from the size
    after the header: always for policy 1, never for policy -1, and for
    policy 0 exactly when the size changed, whether it grew or shrank. *)
Theorem mail_decision_spec (ce : child_env) (fs : jobdir) (name : string) (uid gid : Z) :
  (forall send_mail final size,
      (mail_decision send_mail final size = true <->
         send_mail = 1 \/ (send_mail <> -1 /\ final <> size))
      /\ mail_decision 1 final size = true
      /\ (mail_decision 0 final size = true <-> final <> size)
      /\ mail_decision (-1) final size = false)
  /\ (forall b,
        (run_child ce fs name uid gid).1 = inr b ->
        exists fd h,
          fs_open fs name = Some fd /\ fs_fscanf fs fd = Some h
          /\ b = mail_decision (h_send_mail h) (ce_final_size ce) (ce_size ce)
          /\ (b = true <->
                In (EvSendmail (h_mailname h) uid gid) (run_child ce fs name uid gid).2.2))
  /\ (forall r u g,
        In (EvSendmail r u g) (run_child ce fs name uid gid).2.2 ->
        (run_child ce fs name uid gid).1 = inr true).
Proof.
  split; [|split].
  - intros send_mail final size. split; [apply mail_decision_iff|].
    split; [apply mail_decision_iff; auto|]. split.
    + rewrite mail_decision_iff. split; [intros [H | [_ H]]; [discriminate | exact H]|].
      intros H. right. split; [discriminate | exact H].
    + destruct (mail_decision (-1) final size) eqn:H; [|reflexivity].
      apply mail_decision_iff in H. destruct H as [H | [H _]]; [discriminate | congruence].
  - intros b.
    destruct (run_child_cases ce fs name uid gid)
      as [(a & _ & ->) | (fd & buf & lbuf & h & res & fs' & rest & Ho & _ & _ & Hv & -> & _ & _ & _ & Hdec & Hsent & Hsend)];
      simpl; [discriminate|].
    intros ->. exists fd, h.
    apply validate_accepts in Hv as (_ & _ & _ & _ & _ & _ & _ & _ & Hh & _).
    split; [exact Ho|]. split; [exact Hh|]. split; [apply Hdec; reflexivity|].
    split.
    + intros ->. right. apply Hsend. reflexivity.
    + intros [Hin | Hin]; [discriminate|].
      specialize (Hsent _ _ _ Hin). congruence.
  - intros r u g.
    destruct (run_child_cases ce fs name uid gid)
      as [(a & _ & ->) | (fd & buf & lbuf & h & res & fs' & rest & _ & _ & _ & _ & -> & _ & _ & _ & _ & Hsent & _)];
      simpl; [tauto|].
    intros [Hin | Hin]; [discriminate|]. eauto.
Qed.

(** A job of policy 0 that truncates its output file below the header is
    mailed, although the output did not grow. *)
Lemma mail_for_shrunk_output :
  mail_decision 0 10 45 = true
  /\ ~ mail_rule_of_spec 0 10 45
  /\ In (EvSendmail "alice" 1000 1000)
        (run_child Sample.env_shrunk Sample.locked "a0000100000001" 1000 1000).2.2.
Proof.
  split; [reflexivity|]. split.
  - unfold mail_rule_of_spec. lia.
  - vm_compute. do 6 right. left. reflexivity.
Qed.

(** ** Jobs are started one after the other, and not awaited *)

(** C3, as amended: in a scan that reads the directory, the run_file()
    calls are those for the due jobs of the interactive queues, in the
    order in which readdir() returned them, followed by the call for the
    batch job when one is admitted.  Each call returns once the child is
    forked ([run_file_parent] has no wait), so the jobs are started one at
    a time; their executions are not awaited. *)
Theorem jobs_started_in_order (cfg : config) (s s' : sched) (c : cycle_in) (nj : Z)
    (tr : list action) :
  scans s c = true ->
  run_loop cfg s c = Returned s' nj tr ->
  List.filter is_run_file tr =
    map run_of (List.filter (due_inline (c_now c)) (c_entries c)) ++ batch_runs tr
  /\ (length (batch_runs tr) <= 1)%nat.
Proof.
  intros Hsc Hr.
  destruct (run_loop_gate cfg s c) as (_ & _ & _ & Hone). rewrite Hr in Hone. simpl in Hone.
  split; [|exact Hone].
  destruct (run_loop_returned _ _ _ _ _ _ Hsc Hr) as (v & tr0 & dbuf & _ & Hs & Hba).
  pose proof (batch_admission_trace cfg (c_now c) (st_mtime dbuf)
                (armed_next_batch s (c_now c)) v (c_loadavg c) (c_batch_run c) tr0) as Htr.
  rewrite Hba in Htr. simpl in Htr. subst tr.
  pose proof (scan_dir_quiet (c_now c) (c_entries c) (initial_vars (c_now c))) as Hq.
  rewrite Hs in Hq. simpl in Hq. destruct (quiet_no_batch_runs _ Hq) as (Hb & _).
  unfold batch_runs in *. rewrite !List.filter_app, Hb, (scan_dir_run_files _ _ _ _ _ Hs).
  simpl. f_equal.
  destruct (batch_actions_cases cfg (c_now c) (armed_next_batch s (c_now c)) v (c_loadavg c))
    as [[-> _] | [(-> & _) | (-> & Hnz & _)]]; try reflexivity.
  destruct (scan_dir_batch_queue (c_now c) (c_entries c) (initial_vars (c_now c)) v tr0)
    as [_ Hbq]; simpl; auto; try lia; try congruence.
  simpl. rewrite (Hbq Hnz). reflexivity.
Qed.

Lemma jobs_started_in_order_witness :
  let tr := [ActUnlink "=0000300000001"; ActRunFile "a0000400000001" 1000 1000;
             ActGetloadavg; ActRunFile "B0000100000001" 1001 1001] in
  List.filter is_run_file tr =
    map run_of (List.filter (due_inline 7200) Sample.spool) ++ batch_runs tr
  /\ (length (batch_runs tr) <= 1)%nat.
Proof.
  apply (jobs_started_in_order Sample.cfg initial_sched (mk_sched 100 false 7260)
           (Sample.cycle 7200 1 0.25) 7260).
  - vm_compute. reflexivity.
  - vm_compute. reflexivity.
Defined.

(** Two due jobs: the daemon links and forks the first, then links and
    forks the second while the child of the first has not yet run. *)
Lemma second_job_starts_before_first_completes :
  exists sys,
    steps Sample.all_ok 7200 (scan_start 7200 Sample.two_jobs) sys
    /\ sy_log sys = [Started "a0000100000001"; Started "a0000200000001"]
    /\ sy_pool sys = [mk_child "a0000100000001" 1000 1000;
                      mk_child "a0000200000001" 1001 1001]
    /\ ~ sequential (sy_log sys).
Proof.
  eexists. split; [|split; [|split]].
  - eapply steps_cons.
    { eapply step_daemon; [vm_compute; reflexivity | vm_compute; reflexivity]. }
    eapply steps_cons.
    { eapply step_daemon; [vm_compute; reflexivity | vm_compute; reflexivity]. }
    apply steps_refl.
  - reflexivity.
  - reflexivity.
  - intros Hseq.
    destruct (Hseq 0%nat 1%nat "a0000100000001" "a0000200000001") as (k & Hk & _);
      [lia | reflexivity | reflexivity | lia].
Qed.

(** ** The encoding of job names *)

Lemma hex_digit_val (upper : bool) (d : Z) :
  0 <= d < 16 ->
  xdigit_val (hex_digit upper d) = Some d
  /\ is_hex_digit upper (hex_digit upper d) = true.
Proof.
  intros H.
  assert (Hd : d = 0 \/ d = 1 \/ d = 2 \/ d = 3 \/ d = 4 \/ d = 5 \/ d = 6 \/ d = 7 \/
               d = 8 \/ d = 9 \/ d = 10 \/ d = 11 \/ d = 12 \/ d = 13 \/ d = 14 \/ d = 15)
    by lia.
  destruct upper;
    repeat (destruct Hd as [-> | Hd]; [split; reflexivity|]);
    subst d; split; reflexivity.
Qed.

(** A digit the encoder writes: its value, and what the scanner makes of
    it. *)
Lemma hex_char_inv (upper : bool) (c : ascii) :
  is_hex_digit upper c = true ->
  exists d, xdigit_val c = Some d /\ 0 <= d < 16 /\ hex_digit upper d = c
            /\ isspace c = false /\ is_x c = false
            /\ Ascii.eqb c "-" = false /\ Ascii.eqb c "+" = false.
Proof.
  destruct c as [b0 b1 b2 b3 b4 b5 b6 b7].
  destruct upper, b0, b1, b2, b3, b4, b5, b6, b7; intros H;
    try discriminate H;
    (eexists; split; [vm_compute; reflexivity|];
     repeat split; vm_compute; first [reflexivity | congruence]).
Qed.

Lemma append_length (a b : string) :
  String.length (a +:+ b) = (String.length a + String.length b)%nat.
Proof. induction a as [|c a IH]; simpl; [reflexivity|]. rewrite IH. reflexivity. Qed.

Lemma all_hex_append (upper : bool) (a b : string) :
  all_hex upper (a +:+ b) = all_hex upper a && all_hex upper b.
Proof.
  induction a as [|c a IH]; simpl; [reflexivity|].
  rewrite IH, andb_assoc. reflexivity.
Qed.

Lemma hex_value_bounds (ds : string) (acc : Z) (upper : bool) :
  all_hex upper ds = true -> 0 <= acc ->
  acc * 16 ^ Z.of_nat (String.length ds) <= hex_value acc ds
    < (acc + 1) * 16 ^ Z.of_nat (String.length ds).
Proof.
  revert acc. induction ds as [|c ds IH]; intros acc Hh Hacc.
  - simpl. lia.
  - simpl in Hh. apply andb_true_iff in Hh as [Hc Hds].
    destruct (hex_char_inv upper c Hc) as (d & Hv & Hd & _).
    cbn [hex_value String.length]. rewrite Hv.
    specialize (IH (acc * 16 + d) Hds ltac:(lia)).
    rewrite Nat2Z.inj_succ, Z.pow_succ_r by lia.
    nia.
Qed.

(** The digits the scanner reads from a string of digits of the width it
    is given. *)
Lemma scan_xdigits_hex (upper : bool) (ds rest : string) (acc : Z) :
  all_hex upper ds = true ->
  scan_xdigits (String.length ds) acc (ds +:+ rest) =
    (hex_value acc ds, String.length ds, rest).
Proof.
  revert acc. induction ds as [|c ds IH]; intros acc Hh.
  - simpl. destruct rest; reflexivity.
  - simpl in Hh. apply andb_true_iff in Hh as [Hc Hds].
    destruct (hex_char_inv upper c Hc) as (d & Hv & _).
    simpl. rewrite Hv. rewrite (IH _ Hds). reflexivity.
Qed.

Lemma all_hex_not_x (upper : bool) (c : ascii) (ds : string) :
  all_hex upper (String c ds) = true -> is_x c = false.
Proof.
  simpl. intros H. apply andb_true_iff in H as [Hc _].
  destruct (hex_char_inv upper c Hc) as (d & _ & _ & _ & _ & Hx & _). exact Hx.
Qed.

Lemma wrap64_small (v : Z) : 0 <= v < 2 ^ 64 -> wrap64 v = v.
Proof. intros H. unfold wrap64. apply Z.mod_small. exact H. Qed.

Lemma append_cons (c : ascii) (a b : string) : String c a +:+ b = String c (a +:+ b).
Proof. reflexivity. Qed.

(** [%<w>lx] on [w] digits, [w] between 1 and 16: their value, and the
    rest unread. *)
Lemma scan_lx_hex (upper : bool) (ds rest : string) :
  all_hex upper ds = true ->
  (1 <= String.length ds <= 16)%nat ->
  scan_lx (String.length ds) (ds +:+ rest) = Some (hex_value 0 ds, rest).
Proof.
  intros Hh Hlen.
  assert (Hb := hex_value_bounds ds 0 upper Hh ltac:(lia)).
  assert (Hsmall : 0 <= hex_value 0 ds < 2 ^ 64).
  { assert (16 ^ Z.of_nat (String.length ds) <= 16 ^ 16)
      by (apply Z.pow_le_mono_r; lia).
    change (2 ^ 64) with (16 ^ 16). lia. }
  assert (Hscan := scan_xdigits_hex upper ds rest 0 Hh).
  destruct ds as [|c ds]; [simpl in Hlen; lia|].
  pose proof Hh as Hh'. simpl in Hh'. apply andb_true_iff in Hh' as [Hc Hds].
  destruct (hex_char_inv upper c Hc) as (d & Hv & Hd & _ & Hsp & _ & Hm & Hp).
  unfold scan_lx. rewrite append_cons in *. cbn [skip_space]. rewrite Hsp.
  unfold scan_sign. rewrite Hm, Hp.
  destruct (Ascii.eqb c "0") eqn:H0.
  - (* a leading zero is taken by the prefix test *)
    apply Ascii.eqb_eq in H0. subst c.
    assert (d = 0) by (vm_compute in Hv; congruence). subst d.
    assert (Hval : hex_value 0 (String "0" ds) = hex_value 0 ds) by reflexivity.
    rewrite Hval in *.
    assert (Htail := scan_xdigits_hex upper ds rest 0 Hds).
    destruct ds as [|x ds].
    + simpl. destruct rest; reflexivity.
    + assert (Hx : is_x x = false) by (eapply all_hex_not_x; eauto).
      rewrite append_cons in *.
      unfold scan_prefix. cbn [String.length]. rewrite Ascii.eqb_refl, Hx.
      cbn [String.length] in Htail. rewrite Htail. simpl.
      rewrite wrap64_small by exact Hsmall. reflexivity.
  - unfold scan_prefix. cbn [String.length]. rewrite H0.
    cbn [String.length] in Hscan. rewrite Hscan. simpl.
    rewrite wrap64_small by exact Hsmall. reflexivity.
Qed.

Lemma to_hex_length (upper : bool) (n : nat) (v : Z) :
  String.length (to_hex upper n v) = n.
Proof. induction n as [|n IH]; simpl; [reflexivity|]. rewrite IH. reflexivity. Qed.

Lemma to_hex_all_hex (upper : bool) (n : nat) (v : Z) :
  all_hex upper (to_hex upper n v) = true.
Proof.
  induction n as [|n IH]; simpl; [reflexivity|].
  rewrite IH, andb_true_r.
  apply hex_digit_val. apply Z.mod_pos_bound. lia.
Qed.

(** The digits written denote the number, modulo the width. *)
Lemma hex_value_to_hex (upper : bool) (n : nat) (v acc : Z) :
  0 <= v ->
  hex_value acc (to_hex upper n v) = acc * 16 ^ Z.of_nat n + v mod 16 ^ Z.of_nat n.
Proof.
  intros Hv. revert acc. induction n as [|n IH]; intros acc.
  - simpl. rewrite Z.mod_1_r. lia.
  - cbn [to_hex hex_value].
    destruct (hex_digit_val upper (v / 16 ^ Z.of_nat n mod 16)) as [Hd _];
      [apply Z.mod_pos_bound; lia|].
    rewrite Hd, IH.
    rewrite Nat2Z.inj_succ, Z.pow_succ_r by lia.
    assert (Hp : 0 < 16 ^ Z.of_nat n) by (apply Z.pow_pos_nonneg; lia).
    rewrite (Z.mul_comm 16 (16 ^ Z.of_nat n)).
    rewrite (Z.rem_mul_r v (16 ^ Z.of_nat n) 16) by lia.
    ring.
Qed.

(** Writing the value of a digit string gives the string back. *)
Lemma to_hex_hex_value (upper : bool) (ds : string) (acc : Z) :
  all_hex upper ds = true -> 0 <= acc ->
  to_hex upper (String.length ds) (hex_value acc ds) = ds.
Proof.
  revert acc. induction ds as [|c ds IH]; intros acc Hh Hacc; [reflexivity|].
  pose proof Hh as Hh'. simpl in Hh'. apply andb_true_iff in Hh' as [Hc Hds].
  destruct (hex_char_inv upper c Hc) as (d & Hv & Hd & Hback & _).
  cbn [String.length to_hex hex_value]. rewrite Hv.
  assert (Hb := hex_value_bounds ds (acc * 16 + d) upper Hds ltac:(lia)).
  assert (Hp : 0 < 16 ^ Z.of_nat (String.length ds)) by (apply Z.pow_pos_nonneg; lia).
  assert (Hq : hex_value (acc * 16 + d) ds / 16 ^ Z.of_nat (String.length ds) = acc * 16 + d).
  { symmetry. apply (Z.div_unique _ _ _ (hex_value (acc * 16 + d) ds
                       - (acc * 16 + d) * 16 ^ Z.of_nat (String.length ds))); lia. }
  rewrite Hq.
  replace ((acc * 16 + d) mod 16) with d
    by (symmetry; rewrite Z.add_comm, Z.mod_add by lia; apply Z.mod_small; lia).
  rewrite Hback. f_equal. apply IH; [exact Hds | lia].
Qed.

Lemma append_empty (s : string) : s +:+ "" = s.
Proof. induction s as [|c s IH]; [reflexivity|]. rewrite append_cons, IH. reflexivity. Qed.

Lemma scan_lx_to_hex (upper : bool) (n : nat) (v : Z) (rest : string) :
  (1 <= n <= 16)%nat -> 0 <= v ->
  scan_lx n (to_hex upper n v +:+ rest) = Some (v mod 16 ^ Z.of_nat n, rest).
Proof.
  intros Hn Hv.
  pose proof (scan_lx_hex upper (to_hex upper n v) rest (to_hex_all_hex upper n v)) as H.
  rewrite to_hex_length, (hex_value_to_hex upper n v 0 Hv) in H.
  rewrite H by exact Hn. f_equal.
Qed.

Lemma split_string (n m : nat) (s : string) :
  String.length s = (n + m)%nat ->
  exists a b, s = a +:+ b /\ String.length a = n /\ String.length b = m.
Proof.
  revert s. induction n as [|n IH]; intros s Hs.
  - exists "", s. auto.
  - destruct s as [|c s]; [discriminate|]. simpl in Hs. injection Hs as Hs.
    destruct (IH s Hs) as (a & b & -> & Ha & Hb).
    exists (String c a), b. simpl. auto.
Qed.

(** C9: for either letter case of the digits, (1) the name written for a
    queue letter, a serial below 16^5 and a minute below 16^8 is a valid
    job name, and both sscanf calls of atd.c read back the letter, the
    serial and the minute; (2) every valid job name is read by sscanf, and
    writing what was read gives the same name. *)
Theorem job_name_roundtrip (upper : bool) :
  (forall q serial minute,
      isalpha q = true -> 0 <= serial < 16 ^ 5 -> 0 <= minute < 16 ^ 8 ->
      valid_job_name upper (encode_job_name upper q serial minute) = true
      /\ sscanf_c_5lx_8lx (encode_job_name upper q serial minute) = Some (q, serial, minute)
      /\ sscanf_c_5lx (encode_job_name upper q serial minute) = Some (q, serial))
  /\ (forall name,
        valid_job_name upper name = true ->
        exists q serial minute,
          sscanf_c_5lx_8lx name = Some (q, serial, minute)
          /\ isalpha q = true /\ 0 <= serial < 16 ^ 5 /\ 0 <= minute < 16 ^ 8
          /\ encode_job_name upper q serial minute = name).
Proof.
  split.
  - intros q serial minute Hq Hs Hm. unfold encode_job_name.
    assert (H5 : scan_lx 5 (to_hex upper 5 serial +:+ to_hex upper 8 minute) =
                 Some (serial, to_hex upper 8 minute)).
    { rewrite (scan_lx_to_hex upper 5 serial) by lia.
      rewrite Z.mod_small by exact Hs. reflexivity. }
    assert (H8 : scan_lx 8 (to_hex upper 8 minute) = Some (minute, "")).
    { rewrite <- (append_empty (to_hex upper 8 minute)).
      rewrite (scan_lx_to_hex upper 8 minute) by lia.
      rewrite Z.mod_small by exact Hm. reflexivity. }
    split; [|split].
    + unfold valid_job_name.
      rewrite Hq, append_length, (to_hex_length upper 5), (to_hex_length upper 8).
      rewrite all_hex_append, (to_hex_all_hex upper 5), (to_hex_all_hex upper 8).
      reflexivity.
    + unfold sscanf_c_5lx_8lx. rewrite H5, H8. reflexivity.
    + unfold sscanf_c_5lx. rewrite H5. reflexivity.
  - intros [|q s]; [discriminate|]. unfold valid_job_name.
    intros H. apply andb_true_iff in H as [H Hh]. apply andb_true_iff in H as [Hq Hl].
    apply Nat.eqb_eq in Hl.
    destruct (split_string 5 8 s Hl) as (a & b & -> & Ha & Hb).
    rewrite all_hex_append in Hh. apply andb_true_iff in Hh as [Hha Hhb].
    exists q, (hex_value 0 a), (hex_value 0 b).
    assert (H5 : scan_lx 5 (a +:+ b) = Some (hex_value 0 a, b)).
    { rewrite <- Ha. apply (scan_lx_hex upper); [exact Hha | lia]. }
    assert (H8 : scan_lx 8 b = Some (hex_value 0 b, "")).
    { rewrite <- (append_empty b) at 1. rewrite <- Hb. apply (scan_lx_hex upper); [exact Hhb | lia]. }
    pose proof (hex_value_bounds a 0 upper Hha ltac:(lia)) as Hba.
    pose proof (hex_value_bounds b 0 upper Hhb ltac:(lia)) as Hbb.
    rewrite Ha in Hba. rewrite Hb in Hbb.
    split; [|split; [exact Hq|split; [|split]]].
    + unfold sscanf_c_5lx_8lx. rewrite H5, H8. reflexivity.
    + simpl Z.of_nat in Hba. lia.
    + simpl Z.of_nat in Hbb. lia.
    + unfold encode_job_name. rewrite <- Hb, <- Ha.
      rewrite (to_hex_hex_value upper a 0 Hha), (to_hex_hex_value upper b 0 Hhb) by lia.
      reflexivity.
Qed.

Lemma job_name_roundtrip_witness :
  sscanf_c_5lx_8lx "a0000101a2b3c4" = Some ("a"%char, 1, 27440068)
  /\ encode_job_name false "a" 1 27440068 = "a0000101a2b3c4".
Proof.
  destruct (job_name_roundtrip false) as [Henc Hdec].
  destruct (Henc "a"%char 1 27440068) as (_ & Hscan & _);
    [reflexivity | lia | lia |].
  destruct (Hdec "a0000101a2b3c4") as (q & s & m & Hs & _ & _ & _ & He); [reflexivity|].
  split; [exact Hscan | reflexivity].
Defined.

(** The scanner reads digits of either case alike, so a name with capital
    digits and its lower-case twin are one job to it. *)
Example sscanf_either_case :
  sscanf_c_5lx_8lx "a0000A0000000B" = Some ("a"%char, 10, 11)
  /\ sscanf_c_5lx_8lx "a0000a0000000b" = Some ("a"%char, 10, 11).
Proof. split; reflexivity. Qed.

Example sscanf_lock_name :
  sscanf_c_5lx_8lx "=0001f00000010" = Some ("="%char, 31, 16).
Proof. reflexivity. Qed.

Example sscanf_not_a_job :
  sscanf_c_5lx_8lx ".SEQ" = None /\ sscanf_c_5lx_8lx "a12" = None.
Proof. split; reflexivity. Qed.

(** ** The directory model runs the same run_loop() *)

Lemma scan_dir_fs_observed (res : parent_env) (now : Z) (ns : list string)
    (v : loop_vars) (fs : jobdir) :
  scan_dir now v (observed res now v ns fs) =
    ((scan_dir_fs res now v ns fs).1.1.1, (scan_dir_fs res now v ns fs).1.1.2).
Proof.
  revert v fs. induction ns as [|n ns IH]; intros v fs; [reflexivity|].
  cbn [observed scan_dir_fs scan_dir]. unfold scan_step_fs.
  cbn [d_name d_stat d_run].
  destruct (scan_entry now v n (fs_stat fs n)) as [v' acts] eqn:Hse.
  destruct (perform res fs acts) as [[pe fs'] cs].
  cbn [scan_dir d_name d_stat d_run]. rewrite Hse.
  destruct (fatal acts pe); [reflexivity|].
  rewrite IH.
  destruct (scan_dir_fs res now v' ns fs') as [[[r tr] fs''] cs']. reflexivity.
Qed.

(** On the directory model run_loop() is the run_loop() of the first
    half, given the entries as the daemon saw them. *)
Lemma run_loop_fs_is_run_loop (cfg : config) (s : sched) (c : cycle_fs) (fs : jobdir) :
  exists pe,
    (run_loop_fs cfg s c fs).1.1 =
    run_loop cfg s
      (mk_cycle_in (f_now c) (f_dirstat c) true
         (observed (f_res c) (f_now c) (initial_vars (f_now c)) (fs_readdir fs) fs)
         (f_loadavg c) pe).
Proof.
  unfold run_loop_fs, run_loop. cbn [c_now c_dirstat c_opendir_ok c_entries c_loadavg c_batch_run].
  destruct (f_dirstat c) as [buf|]; [|exists (f_res c); reflexivity].
  destruct (nothing_to_do s && (st_mtime buf <=? last_chg s));
    [exists (f_res c); reflexivity|].
  cbn [negb]. rewrite scan_dir_fs_observed.
  destruct (scan_dir_fs (f_res c) (f_now c) (initial_vars (f_now c)) (fs_readdir fs) fs)
    as [[[[v|] tr] fs'] cs]; cbn [fst snd]; [|exists (f_res c); reflexivity].
  unfold batch_admission_fs.
  exists (link_env (f_res c) (fs_link fs' (lv_batch_name v) (set_sigil (lv_batch_name v))).1).
  destruct (negb (lv_run_batch v =? 0) && (armed_next_batch s (f_now c) <=? f_now c)
            && PrimFloat.ltb (sampled_load (f_loadavg c)) (load_avg cfg)
            && negb (unterminated (lv_batch_name v))).
  - destruct (run_file (f_res c) fs' (lv_batch_name v) (lv_batch_uid v) (lv_batch_gid v))
      as [[st fs''] cs']. reflexivity.
  - reflexivity.
Qed.

(** * Further properties of the scan *)

(** ** What one entry does to the wake-up time and to the idle flag *)

Lemma unready_not_ready (e : dirent_in) : unready e = true -> ready e = None.
Proof.
  unfold unready, ready.
  destruct (sscanf_c_5lx_8lx (d_name e)) as [[[q j] m]|]; [|reflexivity].
  destruct (d_stat e) as [buf|]; [|reflexivity].
  intros H. apply andb_true_iff in H as [-> ->]. reflexivity.
Qed.

(** An entry that is not ready either changes nothing or, when it is a
    file still to be marked executable, clears the idle flag. *)
Lemma scan_entry_unready_vars (now : Z) (v : loop_vars) (e : dirent_in) :
  ready e = None ->
  scan_entry now v (d_name e) (d_stat e) =
    (if unready e then set_nothing_to_do false v else v, []).
Proof.
  unfold ready, unready, scan_entry.
  destruct (sscanf_c_5lx_8lx (d_name e)) as [[[q j] m]|]; [|reflexivity].
  destruct (d_stat e) as [buf|]; [|reflexivity].
  destruct (S_ISREG (st_mode buf)); simpl; [|reflexivity].
  destruct (Z.land (st_mode buf) S_IXUSR =? 0); simpl; [reflexivity|discriminate].
Qed.

Lemma ready_excludes (now : Z) (e : dirent_in) :
  ready e = None -> due now e = None /\ pending now e = None /\ abandoned now e = false.
Proof. unfold due, pending, abandoned. intros ->. auto. Qed.

Ltac wake_leaf :=
  simpl; intros Hgo; try congruence; repeat split; auto; try lia; try discriminate.

(** The wake-up time only moves towards [now], and never past a job that
    waits; the idle flag, once cleared, stays cleared, and every entry that
    needs another look clears it.  This for a step after which the loop
    goes on. *)
Lemma scan_entry_wake (now : Z) (v : loop_vars) (e : dirent_in) :
  now <= lv_next_job v ->
  (scan_entry now v (d_name e) (d_stat e)).2 <> [ActOverread] ->
  let v' := (scan_entry now v (d_name e) (d_stat e)).1 in
  now <= lv_next_job v' <= lv_next_job v
  /\ (forall rt, pending now e = Some rt -> lv_next_job v' <= rt)
  /\ (abandoned now e = true -> lv_next_job v' = now)
  /\ (lv_nothing_to_do v = false -> lv_nothing_to_do v' = false)
  /\ (lv_nothing_to_do v' = true ->
      due now e = None /\ pending now e = None /\ abandoned now e = false
      /\ unready e = false).
Proof.
  intros Hnow. destruct (ready e) as [[[q rt] buf]|] eqn:Hr.
  - rewrite (scan_entry_ready _ _ _ _ _ _ Hr). cbv zeta.
    cbn [lv_batch_name lv_next_job set_run_batch set_nothing_to_do].
    assert (Hu : unready e = false).
    { destruct (unready e) eqn:E; [|reflexivity].
      apply unready_not_ready in E. congruence. }
    unfold due, pending, abandoned. rewrite Hr, Hu.
    destruct (Ascii.eqb q "=") eqn:Heq.
    + rewrite (eqb_equals_not_alpha _ Heq).
      destruct ((st_nlink buf =? 1) && stale now rt); wake_leaf.
    + destruct (isalpha q); [|wake_leaf].
      destruct (1 <? st_nlink buf).
      * destruct (stale now rt); [|wake_leaf].
        destruct (unterminated (set_sigil (strncpy 15 (d_name e)))); wake_leaf.
      * destruct (now <? rt) eqn:Hlt.
        -- apply Z.ltb_lt in Hlt.
           destruct (rt <? lv_next_job v) eqn:Hnj;
             [apply Z.ltb_lt in Hnj | apply Z.ltb_ge in Hnj];
             (wake_leaf; intros rt' Hp; injection Hp as <-; lia).
        -- destruct (isbatch q).
           ++ destruct (unterminated (lv_batch_name v)); [wake_leaf|].
              destruct (0 <? strcmp (lv_batch_name v) (d_name e)); wake_leaf.
           ++ wake_leaf.
  - rewrite (scan_entry_unready_vars _ _ _ Hr). intros _.
    destruct (ready_excludes now e Hr) as (-> & -> & ->).
    destruct (unready e); simpl; (repeat split; auto; try lia; try discriminate).
Qed.

(** The same for the whole readdir loop. *)
Lemma scan_dir_wake (now : Z) (es : list dirent_in) (v v' : loop_vars)
    (tr : list action) :
  now <= lv_next_job v ->
  scan_dir now v es = (Some v', tr) ->
  now <= lv_next_job v' <= lv_next_job v
  /\ (forall e rt, In e es -> pending now e = Some rt -> lv_next_job v' <= rt)
  /\ (forall e, In e es -> abandoned now e = true -> lv_next_job v' = now)
  /\ (lv_nothing_to_do v = false -> lv_nothing_to_do v' = false)
  /\ (lv_nothing_to_do v' = true ->
      forall e, In e es ->
        due now e = None /\ pending now e = None /\ abandoned now e = false
        /\ unready e = false).
Proof.
  revert v tr. induction es as [|e es IH]; intros v tr Hnow; simpl.
  - intros H. injection H as <- _. repeat split; auto; try lia; intros; tauto.
  - pose proof (scan_entry_wake now v e Hnow) as Hstep.
    destruct (scan_entry now v (d_name e) (d_stat e)) as [v1 acts]. simpl in Hstep.
    destruct (fatal acts (d_run e)) eqn:Hf; [discriminate|].
    destruct Hstep as (Hb & Hp & Hab & Hk & Hidle); [intros ->; discriminate|].
    destruct (scan_dir now v1 es) as [r tr1] eqn:Hs.
    intros H. injection H as -> _.
    destruct (IH v1 tr1 ltac:(lia) Hs) as (Hb' & Hp' & Hab' & Hk' & Hidle').
    split; [lia|]. split; [|split; [|split]].
    + intros x rt [<- | Hin] Hpe; [specialize (Hp _ Hpe); lia | eauto].
    + intros x [<- | Hin] Ha; [specialize (Hab Ha); lia | eauto].
    + auto.
    + intros Hv' x [<- | Hin]; [|auto].
      apply Hidle. destruct (lv_nothing_to_do v1) eqn:E; [reflexivity|].
      rewrite (Hk' eq_refl) in Hv'. discriminate.
Qed.

(** ** The wake-up time run_loop() returns *)

Lemma wake_hint_cases (mtime nb : Z) (v : loop_vars) (tr tr' : list action)
    (s' : sched) (nj : Z) :
  wake_hint mtime nb v tr = Returned s' nj tr' ->
  last_chg s' = mtime /\ next_batch s' = nb /\ tr' = tr
  /\ ((lv_run_batch v <> 0 /\ nb < lv_next_job v /\ nj = nb /\ nothing_to_do s' = false)
      \/ ((lv_run_batch v = 0 \/ lv_next_job v <= nb)
          /\ nj = lv_next_job v /\ nothing_to_do s' = lv_nothing_to_do v)).
Proof.
  unfold wake_hint.
  destruct (lv_run_batch v =? 0) eqn:Hz; simpl.
  - apply Z.eqb_eq in Hz. intros H. injection H as <- <- <-. simpl. auto 10.
  - apply Z.eqb_neq in Hz. destruct (nb <? lv_next_job v) eqn:Hlt.
    + apply Z.ltb_lt in Hlt. intros H. injection H as <- <- <-. simpl. auto 10.
    + apply Z.ltb_ge in Hlt. intros H. injection H as <- <- <-. simpl. auto 10.
Qed.

(** What the batch gate and the last statements make of the variables the
    loop left. *)
Lemma batch_admission_wake (cfg : config) (now mtime nb : Z) (v : loop_vars)
    (la : Z * float) (pe : parent_env) (tr tr' : list action) (s' : sched) (nj : Z) :
  0 <= batch_interval cfg -> now <= lv_next_job v ->
  batch_admission cfg now mtime nb v la pe tr = Returned s' nj tr' ->
  now <= nj <= lv_next_job v
  /\ last_chg s' = mtime
  /\ (nothing_to_do s' = true -> lv_nothing_to_do v = true)
  /\ (lv_run_batch v -
        (if negb (lv_run_batch v =? 0) && (nb <=? now)
            && PrimFloat.ltb (sampled_load la) (load_avg cfg) then 1 else 0) <> 0 ->
      nj <= next_batch s').
Proof.
  intros Hbi Hnow. unfold batch_admission.
  destruct (lv_run_batch v =? 0) eqn:Hz; simpl.
  - apply Z.eqb_eq in Hz. intros H.
    destruct (wake_hint_cases _ _ _ _ _ _ _ H) as (Hl & Hn & _ & [(? & _) | (_ & -> & Hidle)]);
      [congruence|].
    rewrite Hidle. repeat split; auto; lia.
  - apply Z.eqb_neq in Hz. destruct (nb <=? now) eqn:Hgate; simpl.
    + apply Z.leb_le in Hgate.
      destruct (PrimFloat.ltb (sampled_load la) (load_avg cfg)).
      * destruct (unterminated (lv_batch_name v)
                  || ends_daemon (run_file_parent pe (lv_batch_name v)));
          try discriminate; intros H;
          destruct (wake_hint_cases _ _ _ _ _ _ _ H)
            as (Hl & Hn & Htr & [(Hrb & Hlt & -> & Hidle) | (Hrb & -> & Hidle)]);
          simpl in *; rewrite ?Hidle, ?Hn;
          (repeat split; auto; try lia; try discriminate).
      * intros H.
        destruct (wake_hint_cases _ _ _ _ _ _ _ H)
          as (Hl & Hn & Htr & [(Hrb & Hlt & -> & Hidle) | (Hrb & -> & Hidle)]);
          rewrite ?Hidle, ?Hn; (repeat split; auto; try lia; try discriminate).
    + apply Z.leb_gt in Hgate. intros H.
      destruct (wake_hint_cases _ _ _ _ _ _ _ H)
        as (Hl & Hn & Htr & [(Hrb & Hlt & -> & Hidle) | (Hrb & -> & Hidle)]);
        rewrite ?Hidle, ?Hn; (repeat split; auto; try lia; try discriminate).
Qed.

Lemma run_loop_skipped_result (cfg : config) (s s' : sched) (c : cycle_in) (nj : Z)
    (tr : list action) :
  scans s c = false -> run_loop cfg s c = Returned s' nj tr ->
  nj = c_now c + CHECK_INTERVAL /\ tr = []
  /\ last_chg s' = last_chg s /\ nothing_to_do s' = nothing_to_do s
  /\ exists buf, c_dirstat c = Some buf
                 /\ nothing_to_do s = true /\ st_mtime buf <= last_chg s.
Proof.
  unfold scans, run_loop. destruct (c_dirstat c) as [buf|]; [|discriminate].
  destruct (nothing_to_do s) eqn:Hn; simpl.
  - destruct (st_mtime buf <=? last_chg s) eqn:Hm; simpl.
    + intros _ H. injection H as <- <- <-. apply Z.leb_le in Hm. simpl. eauto 10.
    + destruct (c_opendir_ok c); simpl; discriminate.
  - destruct (c_opendir_ok c); simpl; discriminate.
Qed.

Lemma initial_vars_next_job (now : Z) : now <= lv_next_job (initial_vars now).
Proof. simpl. unfold CHECK_INTERVAL. lia. Qed.

(** X1.  run_loop() never asks main() to sleep longer than CHECK_INTERVAL,
    and never names a wake-up time before [now]. *)
Theorem wake_up_within_the_hour (cfg : config) (s s' : sched) (c : cycle_in) (nj : Z)
    (tr : list action) :
  0 <= batch_interval cfg ->
  run_loop cfg s c = Returned s' nj tr ->
  c_now c <= nj <= c_now c + CHECK_INTERVAL
  /\ 0 <= sleep_seconds (c_now c) nj <= CHECK_INTERVAL.
Proof.
  intros Hbi Hr.
  assert (Hb : c_now c <= nj <= c_now c + CHECK_INTERVAL).
  { destruct (scans s c) eqn:Hsc.
    - destruct (run_loop_returned _ _ _ _ _ _ Hsc Hr) as (v & tr0 & buf & _ & Hs & Hba).
      destruct (scan_dir_wake _ _ _ _ _ (initial_vars_next_job (c_now c)) Hs) as (Hv & _).
      assert (Hv0 : c_now c <= lv_next_job v) by lia.
      destruct (batch_admission_wake _ _ _ _ _ _ _ _ _ _ _ Hbi Hv0 Hba) as (Hnj & _).
      simpl in Hv. lia.
    - destruct (run_loop_skipped_result _ _ _ _ _ _ Hsc Hr) as (-> & _).
      unfold CHECK_INTERVAL. lia. }
  split; [exact Hb|]. unfold sleep_seconds.
  destruct (c_now c <? nj) eqn:E; [apply Z.ltb_lt in E | unfold CHECK_INTERVAL]; lia.
Qed.

Lemma wake_up_within_the_hour_witness :
  0 <= sleep_seconds 7200 7260 <= CHECK_INTERVAL.
Proof.
  apply (wake_up_within_the_hour Sample.cfg initial_sched (mk_sched 100 false 7260)
           (Sample.cycle 7200 1 0.25) 7260
           [ActUnlink "=0000300000001"; ActRunFile "a0000400000001" 1000 1000;
            ActGetloadavg; ActRunFile "B0000100000001" 1001 1001]).
  - apply Z.leb_le. reflexivity.
  - vm_compute. reflexivity.
Defined.

(** X2.  A scan that read the directory never tells main() to sleep past
    the run time of a job that waits unlocked in the spool; and when it
    cleared the lock of an abandoned job it asks to be called again at
    once. *)
Theorem no_job_is_overslept (cfg : config) (s s' : sched) (c : cycle_in) (nj : Z)
    (tr : list action) (e : dirent_in) :
  0 <= batch_interval cfg ->
  scans s c = true ->
  run_loop cfg s c = Returned s' nj tr ->
  In e (c_entries c) ->
  (forall rt, pending (c_now c) e = Some rt -> nj <= rt)
  /\ (abandoned (c_now c) e = true ->
      nj = c_now c /\ sleep_seconds (c_now c) nj = 0).
Proof.
  intros Hbi Hsc Hr Hin.
  destruct (run_loop_returned _ _ _ _ _ _ Hsc Hr) as (v & tr0 & buf & _ & Hs & Hba).
  destruct (scan_dir_wake _ _ _ _ _ (initial_vars_next_job (c_now c)) Hs)
    as (Hv & Hp & Hab & _).
  assert (Hv0 : c_now c <= lv_next_job v) by lia.
      destruct (batch_admission_wake _ _ _ _ _ _ _ _ _ _ _ Hbi Hv0 Hba) as (Hnj & _).
  split.
  - intros rt Hpe. specialize (Hp _ _ Hin Hpe). lia.
  - intros Ha. specialize (Hab _ Hin Ha).
    assert (nj = c_now c) by lia. subst nj. split; [reflexivity|].
    unfold sleep_seconds. rewrite Z.ltb_irrefl. reflexivity.
Qed.

(** X3.  A scan that read the directory leaves [nothing_to_do] set only
    when no entry needs another look: none is a job due or waiting, none is
    an abandoned job, none is a file still to be marked executable; and
    such a scan has called run_file() for nothing. *)
Theorem idle_flag_is_sound (cfg : config) (s s' : sched) (c : cycle_in) (nj : Z)
    (tr : list action) :
  0 <= batch_interval cfg ->
  scans s c = true ->
  run_loop cfg s c = Returned s' nj tr ->
  nothing_to_do s' = true ->
  (forall e, In e (c_entries c) ->
     due (c_now c) e = None /\ pending (c_now c) e = None
     /\ abandoned (c_now c) e = false /\ unready e = false)
  /\ List.filter is_run_file tr = [].
Proof.
  intros Hbi Hsc Hr Hidle.
  destruct (run_loop_returned _ _ _ _ _ _ Hsc Hr) as (v & tr0 & buf & _ & Hs & Hba).
  destruct (scan_dir_wake _ _ _ _ _ (initial_vars_next_job (c_now c)) Hs)
    as (Hv & _ & _ & _ & Hall).
  assert (Hv0 : c_now c <= lv_next_job v) by lia.
      destruct (batch_admission_wake _ _ _ _ _ _ _ _ _ _ _ Hbi Hv0 Hba)
    as (_ & _ & Hflag & _).
  specialize (Hall (Hflag Hidle)).
  split; [exact Hall|].
  assert (Hnone : List.filter (due_batch (c_now c)) (c_entries c) = []
                  /\ List.filter (due_inline (c_now c)) (c_entries c) = []).
  { clear - Hall. induction (c_entries c) as [|e es IH]; [auto|].
    destruct IH as [IH1 IH2]; [intros x Hx; apply Hall; right; exact Hx|].
    destruct (Hall e (or_introl eq_refl)) as (Hd & _).
    simpl. unfold due_batch, due_inline. rewrite Hd. auto. }
  destruct Hnone as [Hnb Hni].
  pose proof (scan_dir_run_batch _ _ _ _ _ Hs) as Hcount.
  rewrite Hnb in Hcount. simpl in Hcount.
  pose proof (batch_admission_trace cfg (c_now c) (st_mtime buf)
                (armed_next_batch s (c_now c)) v (c_loadavg c) (c_batch_run c) tr0) as Htr.
  rewrite Hba in Htr. simpl in Htr. subst tr.
  rewrite batch_actions_zero by lia.
  rewrite app_nil_r, (scan_dir_run_files _ _ _ _ _ Hs), Hni. reflexivity.
Qed.

Lemma idle_flag_is_sound_witness :
  due 7200 Sample.orphan = None /\ unready Sample.orphan = false.
Proof.
  destruct (idle_flag_is_sound Sample.cfg initial_sched (mk_sched 100 true 7200)
              (mk_cycle_in 7200 (Some (Sample.dir_stat 100)) true [Sample.orphan]
                 (1, 0.25%float) Sample.all_ok)
              10800 [ActUnlink "=0000300000001"]) as [H _].
  - apply Z.leb_le. reflexivity.
  - reflexivity.
  - vm_compute. reflexivity.
  - reflexivity.
  - destruct (H Sample.orphan) as (Hd & _ & _ & Hu); [left; reflexivity|]. auto.
Defined.

(** X4.  When a call of run_loop() ends with [nothing_to_do] set and the
    directory's modification time has not advanced by the next call, the
    next call takes no action at all and asks for the full interval, until
    a directory change or SIGHUP. *)
Theorem unchanged_directory_is_not_read_again (cfg : config) (s s1 : sched)
    (c1 c2 : cycle_in) (nj1 : Z) (tr1 : list action) (buf1 buf2 : stat) :
  run_loop cfg s c1 = Returned s1 nj1 tr1 ->
  nothing_to_do s1 = true ->
  c_dirstat c1 = Some buf1 -> c_dirstat c2 = Some buf2 ->
  st_mtime buf2 <= st_mtime buf1 ->
  run_loop cfg s1 c2 =
    Returned (mk_sched (last_chg s1) true (armed_next_batch s1 (c_now c2)))
             (c_now c2 + CHECK_INTERVAL) []
  /\ (c_opendir_ok c2 = true -> scans (sdummy s1) c2 = true).
Proof.
  intros Hr Hidle Hd1 Hd2 Hm.
  assert (Hlast : st_mtime buf1 <= last_chg s1).
  { destruct (scans s c1) eqn:Hsc.
    - destruct (run_loop_returned _ _ _ _ _ _ Hsc Hr) as (v & tr0 & buf & Hd & Hs & Hba).
      assert (buf = buf1) by congruence. subst buf.
      unfold batch_admission in Hba.
      repeat match type of Hba with
             | (if ?b then _ else _) = _ => destruct b; try discriminate
             | match ?x with _ => _ end = _ => destruct x; try discriminate
             end;
        apply wake_hint_cases in Hba as (-> & _); lia.
    - destruct (run_loop_skipped_result _ _ _ _ _ _ Hsc Hr)
        as (_ & _ & -> & _ & buf & Hd & _ & Hle).
      assert (buf = buf1) by congruence. subst buf. exact Hle. }
  split.
  - unfold run_loop. rewrite Hd2, Hidle.
    replace (st_mtime buf2 <=? last_chg s1) with true by (symmetry; apply Z.leb_le; lia).
    reflexivity.
  - intros Hok. unfold scans. rewrite Hd2, Hok. reflexivity.
Qed.

Lemma unchanged_directory_is_not_read_again_witness :
  trace_of (run_loop Sample.cfg (mk_sched 100 true 7200)
              (mk_cycle_in 7260 (Some (Sample.dir_stat 100)) true [Sample.inline4]
                 (1, 0.25%float) Sample.all_ok)) = [].
Proof.
  destruct (unchanged_directory_is_not_read_again Sample.cfg initial_sched
              (mk_sched 100 true 7200)
              (mk_cycle_in 7200 (Some (Sample.dir_stat 100)) true [Sample.orphan]
                 (1, 0.25%float) Sample.all_ok)
              (mk_cycle_in 7260 (Some (Sample.dir_stat 100)) true [Sample.inline4]
                 (1, 0.25%float) Sample.all_ok)
              10800 [ActUnlink "=0000300000001"]
              (Sample.dir_stat 100) (Sample.dir_stat 100)) as [H _].
  - vm_compute. reflexivity.
  - reflexivity.
  - reflexivity.
  - reflexivity.
  - apply Z.leb_le. reflexivity.
  - rewrite H. reflexivity.
Defined.

Lemma no_job_is_overslept_witness :
  exists rt, pending 7200 Later.waiting = Some rt /\ 7200 <= rt.
Proof.
  destruct (no_job_is_overslept Sample.cfg initial_sched (mk_sched 100 false 7200)
              (Later.cycle [Later.crashed; Later.waiting]) 7200
              [ActUnlink "=0000600000001"] Later.waiting) as [H _].
  - apply Z.leb_le. reflexivity.
  - reflexivity.
  - vm_compute. reflexivity.
  - right. left. reflexivity.
  - exists 7680. split; [reflexivity|]. apply H. reflexivity.
Defined.

(** ** What the scanner removes *)

Lemma set_sigil_lock (q : ascii) (s : string) (n : nat) :
  is_lock_name (set_sigil (strncpy (S n) (String q s))) = true.
Proof. reflexivity. Qed.

Lemma scan_entry_unlinks (now : Z) (v : loop_vars) (name : string) (st : option stat)
    (n : string) :
  In (ActUnlink n) (scan_entry now v name st).2 -> is_lock_name n = true.
Proof.
  unfold scan_entry.
  destruct (sscanf_c_5lx_8lx name) as [[[q j] m]|] eqn:Hs; [|simpl; tauto].
  destruct (sscanf_name _ _ _ _ Hs) as [s ->].
  destruct st as [buf|]; [|simpl; tauto].
  destruct (Ascii.eqb q "=") eqn:Hq.
  - apply Ascii.eqb_eq in Hq. subst q.
    split_ifs; simpl; intros H; try tauto;
      destruct H as [H | []]; try discriminate; injection H as <-; reflexivity.
  - split_ifs; simpl; intros H; try tauto;
      destruct H as [H | []]; try discriminate; injection H as <-; reflexivity.
Qed.

Lemma scan_dir_unlinks (now : Z) (es : list dirent_in) (v : loop_vars) (n : string) :
  In (ActUnlink n) (scan_dir now v es).2 -> is_lock_name n = true.
Proof.
  revert v. induction es as [|e es IH]; intros v; simpl; [tauto|].
  pose proof (scan_entry_unlinks now v (d_name e) (d_stat e) n) as He.
  destruct (scan_entry now v (d_name e) (d_stat e)) as [v1 acts]. simpl in He.
  destruct (fatal acts (d_run e)); simpl; [exact He|].
  specialize (IH v1). destruct (scan_dir now v1 es) as [r tr]. simpl in *.
  intros H. apply in_app_or in H. tauto.
Qed.

(** X5.  Whatever run_loop() unlinks has the sigil of a lock: the scanner
    removes no job file, whatever the directory holds and however the call
    ends. *)
Theorem scanner_unlinks_only_locks (cfg : config) (s : sched) (c : cycle_in) (n : string) :
  In (ActUnlink n) (trace_of (run_loop cfg s c)) -> is_lock_name n = true.
Proof.
  rewrite run_loop_trace. destruct (scans s c); [|simpl; tauto].
  pose proof (scan_dir_unlinks (c_now c) (c_entries c) (initial_vars (c_now c)) n) as Hs.
  destruct (scan_dir (c_now c) (initial_vars (c_now c)) (c_entries c)) as [[v|] tr];
    simpl in Hs; [|exact Hs].
  intros H. apply in_app_or in H. destruct H as [H | H]; [exact (Hs H)|].
  destruct (batch_actions_cases cfg (c_now c) (armed_next_batch s (c_now c)) v (c_loadavg c))
    as [[Hb _] | [[Hb _] | [Hb _]]]; rewrite Hb in H; simpl in H;
    intuition discriminate.
Qed.

Lemma scanner_unlinks_only_locks_witness : is_lock_name "=0000600000001" = true.
Proof.
  apply (scanner_unlinks_only_locks Sample.cfg initial_sched
           (Later.cycle [Later.crashed; Later.waiting])).
  vm_compute. left. reflexivity.
Defined.

(** ** Batch jobs left over *)

(** X6.  When more batch jobs are due than this call of run_loop() has
    started, the call asks to be woken no later than the time at which the
    next batch job may start, and leaves [nothing_to_do] clear. *)
Theorem deferred_batch_sets_the_alarm (cfg : config) (s s' : sched) (c : cycle_in)
    (nj : Z) (tr : list action) :
  0 <= batch_interval cfg ->
  scans s c = true ->
  run_loop cfg s c = Returned s' nj tr ->
  (length (batch_runs tr) < length (List.filter (due_batch (c_now c)) (c_entries c)))%nat ->
  nj <= next_batch s' /\ nothing_to_do s' = false.
Proof.
  intros Hbi Hsc Hr Hmore.
  destruct (run_loop_returned _ _ _ _ _ _ Hsc Hr) as (v & tr0 & buf & _ & Hs & Hba).
  destruct (scan_dir_wake _ _ _ _ _ (initial_vars_next_job (c_now c)) Hs)
    as (Hv & _ & _ & _ & Hall).
  assert (Hv0 : c_now c <= lv_next_job v) by lia.
  destruct (batch_admission_wake _ _ _ _ _ _ _ _ _ _ _ Hbi Hv0 Hba)
    as (_ & _ & Hflag & Hnb).
  pose proof (scan_dir_run_batch _ _ _ _ _ Hs) as Hcount. simpl in Hcount.
  destruct (scan_dir_batch_queue (c_now c) (c_entries c) (initial_vars (c_now c)) v tr0)
    as [_ Hq]; [simpl; lia | reflexivity | simpl; congruence | exact Hs |].
  pose proof (batch_admission_trace cfg (c_now c) (st_mtime buf)
                (armed_next_batch s (c_now c)) v (c_loadavg c) (c_batch_run c) tr0) as Htr.
  rewrite Hba in Htr. simpl in Htr.
  split.
  - apply Hnb.
    destruct (negb (lv_run_batch v =? 0) && (armed_next_batch s (c_now c) <=? c_now c)
              && PrimFloat.ltb (sampled_load (c_loadavg c)) (load_avg cfg)) eqn:Hadm;
      [|lia].
    apply andb_prop in Hadm as [Hadm Hlt]. 
    assert (Hnz : lv_run_batch v <> 0).
    { apply andb_prop in Hadm as [Hnz _]. apply negb_true_iff, Z.eqb_neq in Hnz. exact Hnz. }
    assert (1 <= length (batch_runs tr))%nat.
    { subst tr. unfold batch_runs, batch_actions. rewrite Hadm, Hlt.
      rewrite List.filter_app, length_app. simpl. rewrite (Hq Hnz). simpl. lia. }
    lia.
  - destruct (nothing_to_do s') eqn:Hn; [|reflexivity].
    specialize (Hall (Hflag eq_refl)).
    assert (List.filter (due_batch (c_now c)) (c_entries c) = []).
    { clear - Hall. induction (c_entries c) as [|e es IH]; [reflexivity|].
      simpl. unfold due_batch at 1.
      destruct (Hall e (or_introl eq_refl)) as (-> & _).
      apply IH. intros x Hx. apply Hall. right. exact Hx. }
    rewrite H in Hmore. simpl in Hmore. lia.
Qed.

Lemma deferred_batch_sets_the_alarm_witness :
  7260 <= next_batch (mk_sched 100 false 7260).
Proof.
  apply (deferred_batch_sets_the_alarm Sample.cfg initial_sched (mk_sched 100 false 7260)
           (Sample.cycle 7200 1 0.25) 7260
           [ActUnlink "=0000300000001"; ActRunFile "a0000400000001" 1000 1000;
            ActGetloadavg; ActRunFile "B0000100000001" 1001 1001]).
  - apply Z.leb_le. reflexivity.
  - reflexivity.
  - vm_compute. reflexivity.
  - vm_compute. lia.
Defined.

(** ** The run time of a name *)

Lemma xdigit_val_range (c : ascii) (d : Z) : xdigit_val c = Some d -> 0 <= d < 16.
Proof.
  unfold xdigit_val. split_ifs; intros H; try discriminate; injection H as <-; lia.
Qed.

Lemma scan_xdigits_range (w : nat) (acc : Z) (s r : string) (v : Z) (n : nat) :
  scan_xdigits w acc s = (v, n, r) ->
  (n <= w)%nat /\ acc * 16 ^ Z.of_nat n <= v < (acc + 1) * 16 ^ Z.of_nat n.
Proof.
  revert acc s v n r. induction w as [|w IH]; intros acc s v n r; simpl.
  - destruct s; intros H; injection H as <- <- _; simpl; lia.
  - destruct s as [|c s]; [intros H; injection H as <- <- _; simpl; lia|].
    destruct (xdigit_val c) as [d|] eqn:Hd; [|intros H; injection H as <- <- _; simpl; lia].
    apply xdigit_val_range in Hd.
    destruct (scan_xdigits w (acc * 16 + d) s) as [[v1 n1] r1] eqn:Hrec.
    intros H. injection H as <- <- _.
    destruct (IH _ _ _ _ _ Hrec) as [Hn Hv].
    split; [lia|].
    rewrite Nat2Z.inj_succ, Z.pow_succ_r by lia.
    assert (0 < 16 ^ Z.of_nat n1) by (apply Z.pow_pos_nonneg; lia).
    nia.
Qed.

Lemma scan_sign_width (w : nat) (s s1 : string) (neg : bool) (w1 : nat) :
  scan_sign w s = (neg, w1, s1) ->
  (w1 <= w)%nat /\ (neg = true -> w1 = Nat.pred w).
Proof.
  unfold scan_sign. destruct s as [|c s]; [intros H; injection H as <- <- _; split; [lia|discriminate]|].
  split_ifs; intros H; injection H as <- <- _; split; try lia; try discriminate; reflexivity.
Qed.

Lemma scan_prefix_width (w : nat) (s s2 : string) (zero : bool) (w2 : nat) :
  scan_prefix w s = (zero, w2, s2) -> (w2 <= w)%nat.
Proof.
  unfold scan_prefix. destruct w as [|w]; [intros H; injection H as _ <- _; lia|].
  destruct s as [|c s]; [intros H; injection H as _ <- _; lia|].
  destruct (Ascii.eqb c "0"); [|intros H; injection H as _ <- _; lia].
  destruct w as [|w]; [intros H; injection H as _ <- _; lia|].
  destruct s as [|x s]; [intros H; injection H as _ <- _; lia|].
  destruct (is_x x); intros H; injection H as _ <- _; lia.
Qed.

(** A field of at most eight characters, read as [unsigned long] and cast
    to [time_t]. *)
Lemma scan_lx_8_range (s rest : string) (v : Z) :
  scan_lx 8 s = Some (v, rest) ->
  0 <= v < 2 ^ 64 /\ - 16 ^ 7 < to_time_t v < 16 ^ 8.
Proof.
  unfold scan_lx. destruct (skip_space s) as [|c0 s0]; [discriminate|].
  destruct (scan_sign 8 (String c0 s0)) as [[neg w1] s1] eqn:Hsign.
  destruct (scan_prefix w1 s1) as [[zero w2] s2] eqn:Hpre.
  destruct (scan_xdigits w2 0 s2) as [[x n] r] eqn:Hdig.
  destruct (zero || (0 <? n)%nat); [|discriminate].
  intros H. injection H as <- _.
  destruct (scan_sign_width _ _ _ _ _ Hsign) as [Hw1 Hneg].
  apply scan_prefix_width in Hpre.
  destruct (scan_xdigits_range _ _ _ _ _ _ Hdig) as [Hn Hx].
  split; [apply Z.mod_pos_bound; lia|].
  unfold to_time_t, wrap64.
  destruct neg.
  - specialize (Hneg eq_refl). simpl in Hneg.
    assert (16 ^ Z.of_nat n <= 16 ^ 7) by (apply Z.pow_le_mono_r; lia).
    destruct (Z.eq_dec x 0) as [-> | Hnz].
    + change (- 0) with 0. rewrite Z.mod_0_l by lia. simpl. lia.
    + assert (Hm : (- x) mod 2 ^ 64 = 2 ^ 64 - x).
      { symmetry. apply (Z.mod_unique _ _ (-1)); lia. }
      rewrite Hm.
      destruct (2 ^ 64 - x <? 2 ^ 63) eqn:E; [apply Z.ltb_lt in E|]; lia.
  - assert (16 ^ Z.of_nat n <= 16 ^ 8) by (apply Z.pow_le_mono_r; lia).
    rewrite Z.mod_small by lia.
    destruct (x <? 2 ^ 63) eqn:E; [|apply Z.ltb_ge in E]; lia.
Qed.

(** X7.  For every name that passes the sscanf() of the readdir loop, the
    product [(time_t) ctm * 60] and the sum [run_time + CHECK_INTERVAL]
    stay inside [time_t]: the scanner's arithmetic on run times cannot
    overflow, whatever the name. *)
Theorem run_time_cannot_overflow (name : string) (queue : ascii) (jobno ctm : Z) :
  sscanf_c_5lx_8lx name = Some (queue, jobno, ctm) ->
  - (60 * 16 ^ 7) < to_time_t ctm * 60 < 60 * 16 ^ 8
  /\ - 2 ^ 63 <= to_time_t ctm * 60
  /\ to_time_t ctm * 60 + CHECK_INTERVAL < 2 ^ 63.
Proof.
  unfold sscanf_c_5lx_8lx. destruct name as [|q s]; [discriminate|].
  destruct (scan_lx 5 s) as [[j s1]|]; [|discriminate].
  destruct (scan_lx 8 s1) as [[m r]|] eqn:Hm; [|discriminate].
  intros H. injection H as _ _ <-.
  apply scan_lx_8_range in Hm as [_ Hm]. unfold CHECK_INTERVAL. lia.
Qed.

Lemma run_time_cannot_overflow_witness :
  - 2 ^ 63 <= to_time_t (2 ^ 64 - 1048575) * 60.
Proof.
  apply (run_time_cannot_overflow "a00001-fffff" "a" 1 (2 ^ 64 - 1048575)).
  vm_compute. reflexivity.
Defined.

(** ** The lock of run_file() *)

Lemma run_file_parent_spawned (pe : parent_env) (name : string) :
  run_file_parent pe name = RunSpawned ->
  pe_malloc_ok pe = true /\ jobbuf_fits name = true /\ pe_strdup_ok pe = true
  /\ pe_link pe = LinkOk /\ pe_fork_ok pe = true.
Proof.
  unfold run_file_parent.
  destruct (pe_malloc_ok pe), (jobbuf_fits name), (pe_strdup_ok pe), (pe_link pe),
    (pe_fork_ok pe); simpl; intros H; try discriminate; auto.
Qed.

Lemma fs_link_ok (fs fs' : jobdir) (old new : string) :
  fs_link fs old new = (LinkOk, fs') ->
  exists n, names fs !! old = Some n /\ names fs !! new = None
            /\ fs' = mk_jobdir (<[new := n]> (names fs))
                               (alter (bump_nlink 1) n (inodes fs)).
Proof.
  unfold fs_link. destruct (names fs !! old) as [n|]; [|discriminate].
  destruct (names fs !! new) eqn:Hn; [discriminate|].
  intros H. injection H as <-. eauto.
Qed.

Lemma fs_link_exists (fs : jobdir) (old new : string) :
  is_Some (names fs !! new) ->
  (fs_link fs old new).1 <> LinkOk /\ (fs_link fs old new).2 = fs.
Proof.
  intros [m Hm]. unfold fs_link. destruct (names fs !! old); [|split; [discriminate|reflexivity]].
  rewrite Hm. split; [discriminate|reflexivity].
Qed.

(** While the lock name exists, run_file() forks nothing and leaves the
    directory as it is. *)
Lemma run_file_locked (res : parent_env) (fs : jobdir) (name : string) (uid gid : Z) :
  is_Some (names fs !! set_sigil name) ->
  (run_file res fs name uid gid).1.1 <> RunSpawned
  /\ (run_file res fs name uid gid).1.2 = fs
  /\ (run_file res fs name uid gid).2 = [].
Proof.
  intros Hl. destruct (fs_link_exists fs name (set_sigil name) Hl) as [Hne Hfs].
  unfold run_file. cbn [fst snd].
  assert (Hst : run_file_parent (link_env res (fs_link fs name (set_sigil name)).1) name
                <> RunSpawned).
  { intros H. apply run_file_parent_spawned in H as (_ & _ & _ & H & _). simpl in H. auto. }
  repeat split.
  - exact Hst.
  - rewrite Hfs.
    destruct (pe_malloc_ok res && jobbuf_fits name && pe_strdup_ok res); reflexivity.
  - destruct (run_file_parent (link_env res (fs_link fs name (set_sigil name)).1) name);
      congruence.
Qed.

(** X8.  A run_file() that forks a child has made the lock a second name
    of the job's inode and left the job's own name in place; and for as
    long as that lock name exists, no further run_file() for the job forks
    a child or changes the directory: one job, one child. *)
Theorem one_child_per_lock (res : parent_env) (fs fs1 : jobdir) (name : string)
    (uid gid : Z) (cs : list child_proc) :
  run_file res fs name uid gid = (RunSpawned, fs1, cs) ->
  cs = [mk_child name uid gid]
  /\ is_Some (names fs !! name)
  /\ names fs !! set_sigil name = None
  /\ names fs1 !! name = names fs !! name
  /\ names fs1 !! set_sigil name = names fs !! name
  /\ (forall res2 uid2 gid2,
        (run_file res2 fs1 name uid2 gid2).1.1 <> RunSpawned
        /\ (run_file res2 fs1 name uid2 gid2).1.2 = fs1
        /\ (run_file res2 fs1 name uid2 gid2).2 = []).
Proof.
  unfold run_file at 1. intros H. injection H as Hst Hfs Hcs.
  rewrite Hst in Hcs.
  apply run_file_parent_spawned in Hst as (Hm & Hj & Hs & Hl & _). simpl in Hm, Hs, Hl.
  rewrite Hm, Hj, Hs in Hfs. simpl in Hfs.
  destruct (fs_link fs name (set_sigil name)) as [lr fs2] eqn:Hlink. simpl in Hl, Hfs.
  subst lr fs2.
  destruct (fs_link_ok _ _ _ _ Hlink) as (n & Hn & Hnone & ->).
  assert (Hneq : set_sigil name <> name) by congruence.
  assert (Hlock : names {| names := <[set_sigil name:=n]> (names fs);
                           inodes := alter (bump_nlink 1) n (inodes fs) |}
                    !! set_sigil name = Some n) by (simpl; apply lookup_insert_eq).
  repeat split; auto.
  - simpl. rewrite lookup_insert_ne by exact Hneq. reflexivity.
  - rewrite Hlock, Hn. reflexivity.
  - apply run_file_locked. rewrite Hlock. eauto.
  - apply run_file_locked. rewrite Hlock. eauto.
  - apply run_file_locked. rewrite Hlock. eauto.
Qed.

Lemma one_child_per_lock_witness :
  names Sample.locked !! "=0000100000001" = names Sample.honest !! "a0000100000001".
Proof.
  apply (one_child_per_lock Sample.all_ok Sample.honest Sample.locked "a0000100000001"
           1000 1000 [mk_child "a0000100000001" 1000 1000]).
  vm_compute. reflexivity.
Defined.

(** ** The child of run_file(): links, and the lock *)

Lemma fs_lstat_inv (fs : jobdir) (name : string) (lbuf : stat) :
  fs_lstat fs name = Some lbuf ->
  exists n i, names fs !! name = Some n /\ inodes fs !! n = Some i /\ lbuf = stat_of n i.
Proof.
  unfold fs_lstat. destruct (names fs !! name) as [n|] eqn:Hn; simpl; [|discriminate].
  destruct (inodes fs !! n) as [i|] eqn:Hi; simpl; [|discriminate].
  intros H. injection H as <-. eauto.
Qed.

Lemma fs_fstat_inv (fs : jobdir) (fd : Z) (buf : stat) :
  fs_fstat fs fd = Some buf -> exists i, inodes fs !! fd = Some i /\ buf = stat_of fd i.
Proof.
  unfold fs_fstat. destruct (inodes fs !! fd) as [i|] eqn:Hi; simpl; [|discriminate].
  intros H. injection H as <-. eauto.
Qed.

(** X9.  A name in the spool that is a symbolic link, or whose inode has
    more than two links, is never executed: the child stops before the
    commit, with the directory as it found it and nothing done. *)
Theorem linked_job_is_refused (ce : child_env) (fs : jobdir) (name : string)
    (uid gid : Z) (lbuf : stat) :
  fs_lstat fs name = Some lbuf ->
  S_ISLNK (st_mode lbuf) = true \/ 2 < st_nlink lbuf ->
  exists a, before_commit a = true
            /\ run_child ce fs name uid gid = (inl a, (fs, [])).
Proof.
  intros Hl Hbad.
  destruct (run_child_cases ce fs name uid gid)
    as [H | (fd & buf & lbuf' & h & res & fs' & rest & _ & Hf & Hl' & Hv & _)];
    [exact H|].
  exfalso. rewrite Hl in Hl'. injection Hl' as <-.
  apply validate_accepts in Hv as (Hlnk & _ & Hino & _ & _ & _ & Hn & _).
  destruct Hbad as [Hs | Hn2]; [congruence|].
  destruct (fs_lstat_inv _ _ _ Hl) as (n & i & _ & Hi & ->).
  destruct (fs_fstat_inv _ _ _ Hf) as (i' & Hi' & ->).
  simpl in Hino. subst fd. rewrite Hi in Hi'. injection Hi' as <-.
  simpl in Hn, Hn2. lia.
Qed.

Lemma linked_job_is_refused_witness :
  exists a, run_child Sample.env_ok Later.linked "a0000700000001" 1000 1000
            = (inl a, (Later.linked, [])).
Proof.
  destruct (linked_job_is_refused Sample.env_ok Later.linked "a0000700000001" 1000 1000
              (stat_of 300 (mk_inode 2049 41471 1 1000 1000 14 0 "a0000100000001" None)))
    as (a & _ & H).
  - vm_compute. reflexivity.
  - left. reflexivity.
  - exists a. exact H.
Defined.

Lemma alpha_sigil_differs (name : string) :
  isalpha (queue_of name) = true -> set_sigil name <> name.
Proof.
  destruct name as [|q s]; [discriminate|]. simpl. intros Ha H.
  injection H as <-. discriminate.
Qed.

Lemma fs_unlink_other (fs : jobdir) (n m : string) :
  n <> m -> names (fs_unlink fs m) !! n = names fs !! n.
Proof.
  intros Hne. unfold fs_unlink. destruct (names fs !! m); [|reflexivity].
  simpl. apply lookup_delete_ne. congruence.
Qed.

Ltac finish_lock :=
  do 3 eexists; split; [reflexivity|];
  repeat split; intros; simpl in *; try discriminate; try reflexivity;
  repeat match goal with
         | H : _ \/ _ |- _ => destruct H
         | H : False |- _ => destruct H
         end;
  try discriminate;
  try (match goal with H : inl _ = inl _ |- _ => injection H as <- end);
  try discriminate; try reflexivity; try congruence;
  try (match goal with H : EvUnlinkLock _ = EvUnlinkLock _ |- _ => injection H as <- end);
  try reflexivity;
  try (do 2 eexists; reflexivity);
  try (simpl; tauto).

(** From the commit on, by the point at which the child ends: the lock is
    unlinked only by a child that got past waitpid() and the redirections
    that follow it. *)
Lemma execute_lock (ce : child_env) (filename : string) (uid gid : Z) (h : header)
    (fs : jobdir) :
  exists res fs' evs,
    execute ce filename uid gid h (fs, []) = (res, (fs', evs))
    /\ (forall l, In (EvUnlinkLock l) evs ->
          l = set_sigil filename
          /\ fs' = fs_unlink (fs_unlink fs filename) (set_sigil filename)
          /\ exists n post,
               evs = [EvUnlinkJob filename; EvCreateOutput filename uid (h_ngid h);
                      EvShell uid (h_ngid h) n; EvWait; EvRemoveOutput filename;
                      EvUnlinkLock l] ++ post)
    /\ (forall b, res = inr b -> In (EvUnlinkLock (set_sigil filename)) evs)
    /\ (forall a, res = inl a -> after_cleanup a = true ->
          In (EvUnlinkLock (set_sigil filename)) evs)
    /\ (forall a, res = inl a -> after_cleanup a = false ->
          fs' = fs_unlink fs filename
          /\ before_commit a = false
          /\ existsb is_unlink_lock evs = false).
Proof.
  unfold execute. unfold_child.
  destruct (ce_chdir_ok ce); simpl; [|finish_lock].
  destruct (ce_open_out_ok ce); simpl; [|finish_lock].
  destruct (ce_pam_ok ce); simpl; [|finish_lock].
  destruct (ce_fork_ok ce); simpl; [|finish_lock].
  destruct (ce_stdin_ok ce); simpl; [|finish_lock].
  destruct (ce_devnull_ok ce); simpl; [|finish_lock].
  destruct (mail_decision (h_send_mail h) (ce_final_size ce) (ce_size ce)) eqn:Hm; simpl.
  - destruct (ce_initgroups_ok ce); simpl; [|finish_lock].
    destruct (ce_setgid_ok ce); simpl; [|finish_lock].
    destruct (ce_setuid_ok ce); simpl; [|finish_lock].
    destruct (ce_exec_mail_ok ce); simpl; [|finish_lock].
    finish_lock.
  - finish_lock.
Qed.

Lemma run_child_lock (ce : child_env) (fs : jobdir) (name : string) (uid gid : Z) :
  (exists a, before_commit a = true
             /\ run_child ce fs name uid gid = (inl a, (fs, [])))
  \/ (exists h, run_child ce fs name uid gid = execute ce name uid gid h (fs, [])).
Proof.
  unfold run_child, run_file_child.
  destruct (open_and_validate_cases ce name uid fs [])
    as [(a & Ha & Hrun) | (fd & buf & lbuf & h & _ & _ & _ & _ & Hrun)].
  - left. exists a. split; [exact Ha|].
    cbv [mbind child_bind]. rewrite Hrun. reflexivity.
  - right. exists h. cbv [mbind child_bind]. rewrite Hrun. reflexivity.
Qed.

(** X10.  The child unlinks the lock only when its shell has been waited
    for: an unlink of a lock is of the job's own lock, is preceded by the
    unlink of the job, the start of the shell and the return of waitpid(),
    in that order, and leaves neither name in the directory.  Every child
    that reaches its end has done so. *)
Theorem lock_is_held_until_the_shell_is_reaped (ce : child_env) (fs fs' : jobdir)
    (name : string) (uid gid : Z) (res : abort + bool) (evs : list event) :
  run_child ce fs name uid gid = (res, (fs', evs)) ->
  (forall l, In (EvUnlinkLock l) evs ->
     l = set_sigil name
     /\ names fs' !! name = None /\ names fs' !! set_sigil name = None
     /\ exists g n post,
          evs = [EvUnlinkJob name; EvCreateOutput name uid g; EvShell uid g n; EvWait;
                 EvRemoveOutput name; EvUnlinkLock l] ++ post)
  /\ (forall b, res = inr b -> In (EvUnlinkLock (set_sigil name)) evs).
Proof.
  intros Hrun.
  destruct (run_child_lock ce fs name uid gid) as [(a & _ & H) | (h & H)].
  - rewrite H in Hrun. injection Hrun as <- <- <-. split; [simpl; tauto|discriminate].
  - destruct (execute_lock ce name uid gid h fs) as (r & f & e & Hex & Hlock & Hend & _).
    rewrite H, Hex in Hrun. injection Hrun as -> -> ->.
    split; [|exact Hend].
    intros l Hin. destruct (Hlock l Hin) as (-> & -> & n & post & ->).
    repeat split.
    + apply fs_unlink_stays_gone, fs_unlink_gone.
    + apply fs_unlink_gone.
    + eauto.
Qed.

Lemma lock_is_held_until_the_shell_is_reaped_witness :
  names (run_child Sample.env_ok Sample.locked "a0000100000001" 1000 1000).2.1
    !! "=0000100000001" = None.
Proof.
  destruct (lock_is_held_until_the_shell_is_reaped Sample.env_ok Sample.locked
              (run_child Sample.env_ok Sample.locked "a0000100000001" 1000 1000).2.1
              "a0000100000001" 1000 1000
              (inr false)
              [EvUnlinkJob "a0000100000001"; EvCreateOutput "a0000100000001" 1000 1000;
               EvShell 1000 1000 2; EvWait; EvRemoveOutput "a0000100000001";
               EvUnlinkLock "=0000100000001"]) as [H _].
  - vm_compute. reflexivity.
  - destruct (H "=0000100000001") as (_ & _ & Hgone & _).
    + simpl. tauto.
    + exact Hgone.
Defined.

(** X11.  A child that fails after the commit and before its clean-up has
    removed the job file and not the lock: the job will not run again, and
    its lock stays behind for the scanner to find.  A child that fails
    before the commit leaves both names as they were. *)
Theorem failed_child_leaves_the_lock (ce : child_env) (fs fs' : jobdir) (name : string)
    (uid gid : Z) (a : abort) (evs : list event) :
  isalpha (queue_of name) = true ->
  run_child ce fs name uid gid = (inl a, (fs', evs)) ->
  after_cleanup a = false ->
  names fs' !! set_sigil name = names fs !! set_sigil name
  /\ existsb is_unlink_lock evs = false
  /\ (if before_commit a then fs' = fs else names fs' !! name = None).
Proof.
  intros Hq Hrun Hac.
  destruct (run_child_lock ce fs name uid gid) as [(a' & Ha' & H) | (h & H)].
  - rewrite H in Hrun. injection Hrun as <- <- <-. rewrite Ha'. auto.
  - destruct (execute_lock ce name uid gid h fs) as (r & f & e & Hex & _ & _ & _ & Hfail).
    rewrite H, Hex in Hrun. injection Hrun as -> -> ->.
    destruct (Hfail a eq_refl Hac) as (-> & -> & Hno).
    repeat split.
    + apply fs_unlink_other, alpha_sigil_differs, Hq.
    + exact Hno.
    + apply fs_unlink_gone.
Qed.

Lemma failed_child_leaves_the_lock_witness :
  names (run_child Later.env_nofork Sample.locked "a0000100000001" 1000 1000).2.1
    !! "=0000100000001" = Some 100.
Proof.
  destruct (failed_child_leaves_the_lock Later.env_nofork Sample.locked
              (run_child Later.env_nofork Sample.locked "a0000100000001" 1000 1000).2.1
              "a0000100000001" 1000 1000 AbortFork
              [EvUnlinkJob "a0000100000001"; EvCreateOutput "a0000100000001" 1000 1000])
    as [H _].
  - reflexivity.
  - vm_compute. reflexivity.
  - reflexivity.
  - etransitivity; [exact H | vm_compute; reflexivity].
Defined.

(** ** The names run_file() is given *)

Lemma scan_entry_run_alpha (now : Z) (v : loop_vars) (e : dirent_in) (n : string)
    (u g : Z) :
  In (ActRunFile n u g) (scan_entry now v (d_name e) (d_stat e)).2 ->
  isalpha (queue_of n) = true.
Proof.
  destruct (scan_entry_runs now v e) as [-> | [_ [[m ->] | ->]]].
  - unfold due_inline. destruct (due now e) as [[q buf]|] eqn:Hd; [|simpl; tauto].
    destruct (due_inv _ _ _ _ Hd) as (rt & Hr & Ha & _).
    destruct (ready_inv _ _ _ _ Hr) as (Hst & Hq & _).
    destruct (negb (isbatch q)); [|simpl; tauto].
    unfold run_of. rewrite Hst. intros [H | []]. injection H as <- _ _.
    rewrite Hq. exact Ha.
  - intros [H | []]. discriminate.
  - intros [H | []]. discriminate.
Qed.

Lemma scan_dir_run_alpha (now : Z) (es : list dirent_in) (v : loop_vars) (n : string)
    (u g : Z) :
  In (ActRunFile n u g) (scan_dir now v es).2 -> isalpha (queue_of n) = true.
Proof.
  revert v. induction es as [|e es IH]; intros v; simpl; [tauto|].
  pose proof (scan_entry_run_alpha now v e n u g) as He.
  destruct (scan_entry now v (d_name e) (d_stat e)) as [v1 acts]. simpl in He.
  destruct (fatal acts (d_run e)); simpl; [exact He|].
  specialize (IH v1). destruct (scan_dir now v1 es) as [r tr]. simpl in *.
  intros H. apply in_app_or in H. tauto.
Qed.

Lemma isbatch_alpha (q : ascii) : isbatch q = true -> isalpha q = true.
Proof.
  unfold isbatch, isalpha. destruct (isupper q); [reflexivity|]. simpl.
  intros H. apply Ascii.eqb_eq in H. subst q. reflexivity.
Qed.

Lemma nice_of_alpha (q : ascii) : isalpha q = true -> 2 <= nice_of q <= 52.
Proof.
  unfold isalpha, nice_of, tolower, isupper, islower.
  destruct ((65 <=? code q) && (code q <=? 90)) eqn:Hu; simpl.
  - intros _. apply andb_prop in Hu as [H1 H2].
    apply Z.leb_le in H1, H2. lia.
  - intros Hl. apply andb_prop in Hl as [H1 H2].
    apply Z.leb_le in H1, H2. lia.
Qed.

(** X12.  Every name run_loop() passes to run_file(), from the readdir
    loop or as the batch job, and however the call ends, begins with a
    letter.  So the lock name run_file() makes of it differs from the name
    itself, and the niceness the job's shell is given, twice the place of
    the letter in the alphabet whatever its case, lies between 2 and 52. *)
Theorem run_file_is_given_queue_letters (cfg : config) (s : sched) (c : cycle_in)
    (n : string) (u g : Z) :
  In (ActRunFile n u g) (trace_of (run_loop cfg s c)) ->
  isalpha (queue_of n) = true
  /\ set_sigil n <> n
  /\ 2 <= nice_of (queue_of n) <= 52.
Proof.
  intros Hin.
  assert (Ha : isalpha (queue_of n) = true).
  { rewrite run_loop_trace in Hin. destruct (scans s c); [|destruct Hin].
    pose proof (scan_dir_run_alpha (c_now c) (c_entries c) (initial_vars (c_now c)) n u g)
      as Hs.
    destruct (scan_dir (c_now c) (initial_vars (c_now c)) (c_entries c)) as [[v|] tr] eqn:Hsd;
      simpl in Hs; [|exact (Hs Hin)].
    apply in_app_or in Hin. destruct Hin as [Hin | Hin]; [exact (Hs Hin)|].
    destruct (scan_dir_batch_queue (c_now c) (c_entries c) (initial_vars (c_now c)) v tr)
      as [_ Hq]; [simpl; lia | reflexivity | simpl; congruence | exact Hsd |].
    destruct (batch_actions_cases cfg (c_now c) (armed_next_batch s (c_now c)) v
                (c_loadavg c)) as [[Hb _] | [[Hb _] | (Hb & Hnz & _)]];
      rewrite Hb in Hin; simpl in Hin.
    - destruct Hin.
    - destruct Hin as [H | []]. discriminate.
    - destruct Hin as [H | [H | []]]; [discriminate|].
      injection H as <- _ _. apply isbatch_alpha, Hq, Hnz. }
  split; [exact Ha|]. split; [apply alpha_sigil_differs, Ha | apply nice_of_alpha, Ha].
Qed.

Lemma run_file_is_given_queue_letters_witness :
  2 <= nice_of (queue_of "B0000100000001") <= 52.
Proof.
  apply (run_file_is_given_queue_letters Sample.cfg initial_sched
           (Sample.cycle 7200 1 0.25) "B0000100000001" 1001 1001).
  vm_compute. right. right. right. left. reflexivity.
Defined.

(** ** main(): what the options leave in the configuration *)

Lemma main_option_config (MX : float) (st st' : settings) (o : getopt_result) :
  main_option MX st o = Some st' ->
  0 <= batch_interval (set_config st) < 2 ^ 32 ->
  0 <= batch_interval (set_config st') < 2 ^ 32
  /\ (PrimFloat.ltb 0 MX = true -> numeric_option o = true ->
      PrimFloat.ltb 0 (load_avg (set_config st)) = true ->
      PrimFloat.ltb 0 (load_avg (set_config st')) = true).
Proof.
  destruct o as [[p|] | [p|] | | | | | ]; simpl; intros H Hb; try discriminate;
    injection H as <-; simpl.
  - split; [exact Hb|]. intros Hmx Hnum _. apply option_l_positive; [exact Hmx|].
    unfold is_number in Hnum. apply orb_prop in Hnum. exact Hnum.
  - split; [|auto]. unfold to_unsigned_int. apply Z.mod_pos_bound. lia.
  - auto.
  - auto.
  - auto.
Qed.

Lemma main_options_config (MX : float) (os : list getopt_result) (st st' : settings) :
  main_options MX st os = Some st' ->
  0 <= batch_interval (set_config st) < 2 ^ 32 ->
  0 <= batch_interval (set_config st') < 2 ^ 32
  /\ (PrimFloat.ltb 0 MX = true -> forallb numeric_option os = true ->
      PrimFloat.ltb 0 (load_avg (set_config st)) = true ->
      PrimFloat.ltb 0 (load_avg (set_config st')) = true).
Proof.
  revert st. induction os as [|o os IH]; intros st; simpl.
  - intros H Hb. injection H as <-. auto.
  - destruct (main_option MX st o) as [st1|] eqn:Ho; [|discriminate].
    intros H Hb. destruct (main_option_config _ _ _ _ Ho Hb) as [Hb1 Hl1].
    destruct (IH _ H Hb1) as [Hb' Hl']. split; [exact Hb'|].
    intros Hmx Hnum Hl. apply andb_prop in Hnum as [Hn1 Hn2]. auto.
Qed.

(** X13.  Whatever options main() accepts, the batch interval it hands to
    run_loop() is an [unsigned int], never negative; and when LOADAVG_MX is
    positive and every [-l] argument is a number, the load ceiling is
    positive: an argument of zero or below gives the ceiling back its
    default. *)
Theorem options_leave_a_usable_configuration (LOADAVG_MX : float) (debug foreground : Z)
    (os : list getopt_result) (st : settings) :
  main_options LOADAVG_MX (initial_settings LOADAVG_MX debug foreground) os = Some st ->
  0 <= batch_interval (set_config st) < 2 ^ 32
  /\ (PrimFloat.ltb 0 LOADAVG_MX = true -> forallb numeric_option os = true ->
      PrimFloat.ltb 0 (load_avg (set_config st)) = true).
Proof.
  intros H.
  destruct (main_options_config LOADAVG_MX os _ _ H) as [Hb Hl].
  - simpl. unfold BATCH_INTERVAL_DEFAULT. lia.
  - split; [exact Hb|]. intros Hmx Hnum. apply Hl; auto.
Qed.

Lemma options_leave_a_usable_configuration_witness :
  0 <= batch_interval (mk_config 4294967291 0.75) < 2 ^ 32
  /\ PrimFloat.ltb 0 (load_avg (mk_config 4294967291 0.75)) = true.
Proof.
  destruct (options_leave_a_usable_configuration 0.75 0 0
              [Opt_l (Some 1.5%float); Opt_b (Some (-5)); Opt_f; Opt_l (Some (-2)%float)]
              (mk_settings (mk_config 4294967291 0.75) 0 1 true)) as [Hb Hl].
  - vm_compute. reflexivity.
  - split; [exact Hb|]. apply Hl; reflexivity.
Defined.

(** ** The daemon's own changes to the directory *)

Lemma lock_name_differs (n m : string) :
  is_lock_name n = false -> is_lock_name m = true -> n <> m.
Proof. intros Hn Hm ->. congruence. Qed.

Lemma fs_link_frame (fs : jobdir) (name n : string) :
  is_lock_name n = false ->
  names (fs_link fs name (set_sigil name)).2 !! n = names fs !! n.
Proof.
  intros Hn. unfold fs_link.
  destruct (names fs !! name) as [i|] eqn:Hi; [|reflexivity].
  destruct (names fs !! set_sigil name) eqn:Hl; [reflexivity|]. simpl.
  destruct name as [|q s]; [simpl in Hl; congruence|].
  apply lookup_insert_ne. intros <-. discriminate.
Qed.

Lemma run_file_frame (res : parent_env) (fs : jobdir) (name n : string) (uid gid : Z) :
  is_lock_name n = false ->
  names (run_file res fs name uid gid).1.2 !! n = names fs !! n.
Proof.
  intros Hn. unfold run_file. cbn [fst snd].
  destruct (pe_malloc_ok res && jobbuf_fits name && pe_strdup_ok res); [|reflexivity].
  apply fs_link_frame, Hn.
Qed.

Lemma scan_step_fs_frame (res : parent_env) (now : Z) (v : loop_vars) (m n : string)
    (fs : jobdir) :
  is_lock_name n = false ->
  names (scan_step_fs res now v m fs).1.2 !! n = names fs !! n.
Proof.
  intros Hn. unfold scan_step_fs.
  pose proof (scan_entry_unlinks now v m (fs_stat fs m)) as Hu.
  destruct (scan_entry now v m (fs_stat fs m)) as [v' acts]. simpl in Hu.
  unfold perform.
  destruct acts as [|[l | f u g | |] [|a acts]]; simpl; try reflexivity.
  - apply fs_unlink_other, lock_name_differs; [exact Hn|]. apply Hu. left. reflexivity.
  - exact (run_file_frame res fs f n u g Hn).
Qed.

Lemma scan_dir_fs_frame (res : parent_env) (now : Z) (ns : list string) (v : loop_vars)
    (n : string) (fs : jobdir) :
  is_lock_name n = false ->
  names (scan_dir_fs res now v ns fs).1.2 !! n = names fs !! n.
Proof.
  intros Hn. revert v fs. induction ns as [|m ns IH]; intros v fs; simpl; [reflexivity|].
  pose proof (scan_step_fs_frame res now v m n fs Hn) as Hs.
  destruct (scan_step_fs res now v m fs) as [[[[v'|] acts] fs'] cs]; simpl in Hs;
    [|exact Hs].
  specialize (IH v' fs').
  destruct (scan_dir_fs res now v' ns fs') as [[[r tr] fs''] cs']. simpl in *.
  congruence.
Qed.

(** X14.  run_loop() itself, whatever it finds and however it ends, leaves
    every name that is not a lock name as it was: it adds no job to the
    directory and removes none.  Only lock names come and go in the daemon;
    a job file is removed by the child of run_file() alone. *)
Theorem daemon_touches_only_lock_names (cfg : config) (s : sched) (c : cycle_fs)
    (fs : jobdir) (n : string) :
  is_lock_name n = false ->
  names (run_loop_fs cfg s c fs).1.2 !! n = names fs !! n.
Proof.
  intros Hn. unfold run_loop_fs.
  destruct (f_dirstat c) as [buf|]; [|reflexivity].
  destruct (nothing_to_do s && (st_mtime buf <=? last_chg s)); [reflexivity|].
  pose proof (scan_dir_fs_frame (f_res c) (f_now c) (fs_readdir fs)
                (initial_vars (f_now c)) n fs Hn) as Hs.
  destruct (scan_dir_fs (f_res c) (f_now c) (initial_vars (f_now c)) (fs_readdir fs) fs)
    as [[[[v|] tr] fs'] cs]; simpl in Hs; [|exact Hs].
  unfold batch_admission_fs.
  destruct (negb (lv_run_batch v =? 0) && (armed_next_batch s (f_now c) <=? f_now c)
            && PrimFloat.ltb (sampled_load (f_loadavg c)) (load_avg cfg)
            && negb (unterminated (lv_batch_name v))); [|exact Hs].
  pose proof (run_file_frame (f_res c) fs' (lv_batch_name v) n (lv_batch_uid v)
                (lv_batch_gid v) Hn) as Hf.
  destruct (run_file (f_res c) fs' (lv_batch_name v) (lv_batch_uid v) (lv_batch_gid v))
    as [[st fs''] cs']. simpl in *. congruence.
Qed.

Lemma daemon_touches_only_lock_names_witness :
  names Sample.scan1.1.2 !! "a0000100000001" = Some 100.
Proof.
  etransitivity.
  - apply (daemon_touches_only_lock_names Sample.cfg initial_sched
             (mk_cycle_fs 7200 (Some (Sample.dir_stat 7200)) (1, 0.25%float) Sample.all_ok)
             Sample.forged "a0000100000001").
    reflexivity.
  - vm_compute. reflexivity.
Defined.

(** ** A job that holds its lock *)

Lemma resolve_plain (fuel : nat) (fs : jobdir) (name : string) (n : Z) (i : inode) :
  names fs !! name = Some n -> inodes fs !! n = Some i -> S_ISLNK (i_mode i) = false ->
  resolve (S fuel) fs name = Some n.
Proof. intros Hn Hi Hl. simpl. rewrite Hn. simpl. rewrite Hi. simpl. rewrite Hl. reflexivity. Qed.

Lemma scan_entry_locked (now : Z) (v : loop_vars) (name : string) (buf : stat) :
  1 < st_nlink buf ->
  List.filter is_run_file (scan_entry now v name (Some buf)).2 = []
  /\ lv_run_batch (scan_entry now v name (Some buf)).1 = lv_run_batch v
  /\ lv_batch_name (scan_entry now v name (Some buf)).1 = lv_batch_name v.
Proof.
  intros Hn. apply Z.ltb_lt in Hn. unfold scan_entry.
  destruct (sscanf_c_5lx_8lx name) as [[[q j] m]|]; [|auto].
  rewrite Hn. split_ifs; auto.
Qed.

(** X15.  In the directory as a run_file() that forked a child leaves it,
    the scanner's stat() of the job's name shows one link more than
    before, and a turn of the readdir loop for that name leaves the job
    alone: it neither calls run_file() for it again nor counts it as a
    batch candidate. *)
Theorem locked_job_is_not_started_again (res res2 : parent_env) (fs fs1 : jobdir)
    (name : string) (uid gid n : Z) (i : inode) (cs : list child_proc)
    (now : Z) (v : loop_vars) :
  names fs !! name = Some n ->
  inodes fs !! n = Some i ->
  S_ISLNK (i_mode i) = false ->
  1 <= i_nlink i ->
  run_file res fs name uid gid = (RunSpawned, fs1, cs) ->
  fs_stat fs1 name = Some (stat_of n (bump_nlink 1 i))
  /\ List.filter is_run_file (scan_step_fs res2 now v name fs1).1.1.2 = []
  /\ (scan_step_fs res2 now v name fs1).2 = []
  /\ (forall v', (scan_step_fs res2 now v name fs1).1.1.1 = Some v' ->
        lv_run_batch v' = lv_run_batch v /\ lv_batch_name v' = lv_batch_name v).
Proof.
  intros Hn Hi Hl Hk Hrun.
  unfold run_file in Hrun. injection Hrun as Hst Hfs Hcs.
  apply run_file_parent_spawned in Hst as (Hm & Hj & Hs & Hlr & _). simpl in Hm, Hs, Hlr.
  rewrite Hm, Hj, Hs in Hfs. simpl in Hfs.
  destruct (fs_link fs name (set_sigil name)) as [lr fs2] eqn:Hlink. simpl in Hlr, Hfs.
  subst lr fs2.
  destruct (fs_link_ok _ _ _ _ Hlink) as (n' & Hn' & Hnone & ->).
  assert (n' = n) by congruence. subst n'.
  assert (Hneq : set_sigil name <> name) by congruence.
  assert (Hstat : fs_stat {| names := <[set_sigil name:=n]> (names fs);
                             inodes := alter (bump_nlink 1) n (inodes fs) |} name
                  = Some (stat_of n (bump_nlink 1 i))).
  { unfold fs_stat, MAXSYMLINKS.
    rewrite (resolve_plain _ _ name n (bump_nlink 1 i)).
    - simpl. unfold fs_fstat. simpl. rewrite lookup_alter_eq, Hi. reflexivity.
    - simpl. rewrite lookup_insert_ne by exact Hneq. exact Hn.
    - simpl. rewrite lookup_alter_eq, Hi. reflexivity.
    - exact Hl. }
  split; [exact Hstat|].
  unfold scan_step_fs. rewrite Hstat.
  destruct (scan_entry_locked now v name (stat_of n (bump_nlink 1 i)))
    as (Hnorun & Hrb & Hbn); [simpl; lia|].
  destruct (scan_entry now v name (Some (stat_of n (bump_nlink 1 i)))) as [v1 acts].
  simpl in Hnorun, Hrb, Hbn.
  assert (Hperf : (perform res2
                     {| names := <[set_sigil name:=n]> (names fs);
                        inodes := alter (bump_nlink 1) n (inodes fs) |} acts).2 = []).
  { destruct acts as [|[l | f u g | |] [|a acts]]; simpl in *; try discriminate; auto. }
  destruct (perform res2 _ acts) as [[pe fs'] cs']. simpl in *.
  split; [|split; [exact Hperf|]].
  - destruct (fatal acts pe); exact Hnorun.
  - destruct (fatal acts pe); intros v' H; [discriminate|].
    injection H as <-. auto.
Qed.

Lemma locked_job_is_not_started_again_witness :
  fs_stat Sample.locked "a0000100000001" = Some (Sample.job_stat 100 2 1000).
Proof.
  destruct (locked_job_is_not_started_again Sample.all_ok Sample.all_ok Sample.honest
              Sample.locked "a0000100000001" 1000 1000 100
              (Sample.job_inode 1 1000 120 (Some (mk_header 1000 1000 "alice" 0)))
              [mk_child "a0000100000001" 1000 1000] 7200 (initial_vars 7200)) as [H _].
  - reflexivity.
  - reflexivity.
  - reflexivity.
  - apply Z.leb_le. reflexivity.
  - vm_compute. reflexivity.
  - rewrite H. reflexivity.
Defined.

(** ** The serial number in run_file() *)

(** A field of at most five characters, read as [unsigned long]: five
    digits at most, or the negation of four. *)
Lemma scan_lx_5_range (s rest : string) (v : Z) :
  scan_lx 5 s = Some (v, rest) ->
  0 <= v < 16 ^ 5 \/ 2 ^ 64 - 16 ^ 4 < v < 2 ^ 64.
Proof.
  unfold scan_lx. destruct (skip_space s) as [|c0 s0]; [discriminate|].
  destruct (scan_sign 5 (String c0 s0)) as [[neg w1] s1] eqn:Hsign.
  destruct (scan_prefix w1 s1) as [[zero w2] s2] eqn:Hpre.
  destruct (scan_xdigits w2 0 s2) as [[x n] r] eqn:Hdig.
  destruct (zero || (0 <? n)%nat); [|discriminate].
  intros H. injection H as <- _.
  destruct (scan_sign_width _ _ _ _ _ Hsign) as [Hw1 Hneg].
  apply scan_prefix_width in Hpre.
  destruct (scan_xdigits_range _ _ _ _ _ _ Hdig) as [Hn Hx].
  unfold wrap64. destruct neg.
  - specialize (Hneg eq_refl). simpl in Hneg.
    assert (16 ^ Z.of_nat n <= 16 ^ 4) by (apply Z.pow_le_mono_r; lia).
    destruct (Z.eq_dec x 0) as [-> | Hnz].
    + left. change (- 0) with 0. rewrite Z.mod_0_l by lia. lia.
    + right. assert (Hm : (- x) mod 2 ^ 64 = 2 ^ 64 - x).
      { symmetry. apply (Z.mod_unique _ _ (-1)); lia. }
      rewrite Hm. lia.
  - left. assert (16 ^ Z.of_nat n <= 16 ^ 5) by (apply Z.pow_le_mono_r; lia).
    rewrite Z.mod_small by lia. lia.
Qed.

(** X16.  For a name the sscanf() of the readdir loop accepts, run_file()
    reads the same queue byte and serial number.  The serial is below 16^5,
    and then sprintf() fits it into [jobbuf]; or its field has a minus sign
    and the serial is above 2^64 - 16^4, a number of twenty digits, and
    then run_file(), once malloc() has succeeded, writes past the end of
    [jobbuf] before it reaches link(), and the readdir loop does not go on
    from that call. *)
Theorem signed_serial_overruns_jobbuf (name : string) (queue : ascii) (jobno ctm : Z) :
  sscanf_c_5lx_8lx name = Some (queue, jobno, ctm) ->
  sscanf_c_5lx name = Some (queue, jobno)
  /\ (0 <= jobno < 16 ^ 5 \/ 2 ^ 64 - 16 ^ 4 < jobno < 2 ^ 64)
  /\ jobbuf_fits name = (jobno <? 16 ^ 5)
  /\ (forall pe uid gid,
        pe_malloc_ok pe = true -> 16 ^ 5 <= jobno ->
        run_file_parent pe name = RunOverrun
        /\ fatal [ActRunFile name uid gid] pe = true).
Proof.
  unfold sscanf_c_5lx_8lx, jobbuf_fits, sscanf_c_5lx.
  destruct name as [|q s]; [discriminate|].
  destruct (scan_lx 5 s) as [[j s1]|] eqn:Hj; [|discriminate].
  destruct (scan_lx 8 s1) as [[m r]|]; [|discriminate].
  intros H. injection H as <- <- _.
  pose proof (scan_lx_5_range _ _ _ Hj) as Hrange.
  assert (Hfit : (j <? 10 ^ 8) = (j <? 16 ^ 5)).
  { destruct Hrange as [Hs | Hb].
    - replace (j <? 10 ^ 8) with true by (symmetry; apply Z.ltb_lt; lia).
      symmetry. apply Z.ltb_lt. lia.
    - replace (j <? 10 ^ 8) with false by (symmetry; apply Z.ltb_ge; lia).
      symmetry. apply Z.ltb_ge. lia. }
  split; [reflexivity|]. split; [exact Hrange|]. split; [exact Hfit|].
  intros pe uid gid Hm Hbig.
  assert (Hrun : run_file_parent pe (String q s) = RunOverrun).
  { unfold run_file_parent, jobbuf_fits, sscanf_c_5lx. rewrite Hm, Hj, Hfit.
    replace (j <? 16 ^ 5) with false by (symmetry; apply Z.ltb_ge; exact Hbig).
    reflexivity. }
  split; [exact Hrun|]. unfold fatal. rewrite Hrun. reflexivity.
Qed.

Lemma signed_serial_overruns_jobbuf_witness :
  run_file_parent Sample.all_ok "a-000100000001" = RunOverrun.
Proof.
  destruct (signed_serial_overruns_jobbuf "a-000100000001" "a" (2 ^ 64 - 1) 1)
    as (_ & _ & _ & H).
  - vm_compute. reflexivity.
  - apply (H Sample.all_ok 1000 1000).
    + reflexivity.
    + apply Z.leb_le. reflexivity.
Defined.

(** ** The commit point, and what becomes of a job stopped before it *)





